(** * Sickness tracker front end: calendar grid and entry reconciliation

    A shallow embedding of the calendar heat-map layout (the grid of
    [src/components/YearHeatmap.js]) and of the entry normalisation and
    save reconciliation of the home page (the [App.js] that normalises the
    entries it receives, with the API calls of [src/api/entries.js]),
    together with the properties the specification states about them.

    JavaScript [Date] values are modelled by their time value, an integer
    number of milliseconds since the epoch, or NaN ([None]).  The
    arithmetic on them follows ECMA-262, section "Date Objects". *)

From Stdlib Require Import ZArith QArith Qabs Lia List Bool Ascii.
From stdpp Require Import base gmap strings list sorting.

Local Open Scope Z_scope.

(** ** ECMAScript date arithmetic *)

Module JSDate.

Definition msPerDay : Z := 86400000.

(** [Day(t)] and the largest time value a [Date] can hold. *)
Definition Day (t : Z) : Z := t / msPerDay.

Definition maxTime : Z := 8640000000000000.

(** A JavaScript number that is either an integer or NaN. *)
Definition num := option Z.

Definition TimeClip (t : Z) : num :=
  if Z.abs t <=? maxTime then Some t else None.

Definition InLeapYear (y : Z) : bool :=
  ((y mod 4 =? 0) && negb (y mod 100 =? 0)) || (y mod 400 =? 0).

Definition DaysInYear (y : Z) : Z := if InLeapYear y then 366 else 365.

Definition DayFromYear (y : Z) : Z :=
  365 * (y - 1970) + (y - 1969) / 4 - (y - 1901) / 100 + (y - 1601) / 400.

(** [YearFromTime]: the largest year whose first day is not after day [d].
    The quotient by the mean year length is off by at most one. *)
Definition YearFromDay (d : Z) : Z :=
  let y := 1970 + (400 * d) / 146097 in
  if d <? DayFromYear y then y - 1
  else if DayFromYear (y + 1) <=? d then y + 1
  else y.

Definition leapDays (y : Z) : Z := if InLeapYear y then 1 else 0.

(** Day number within the year of the first day of month [m] (0 = January). *)
Definition monthStartDay (leap m : Z) : Z :=
  match m with
  | 0 => 0
  | 1 => 31
  | 2 => 59 + leap
  | 3 => 90 + leap
  | 4 => 120 + leap
  | 5 => 151 + leap
  | 6 => 181 + leap
  | 7 => 212 + leap
  | 8 => 243 + leap
  | 9 => 273 + leap
  | 10 => 304 + leap
  | _ => 334 + leap
  end.

(** [MonthFromTime] in terms of the day within the year. *)
Definition monthOfYearDay (leap dwy : Z) : Z :=
  if dwy <? 31 then 0
  else if dwy <? 59 + leap then 1
  else if dwy <? 90 + leap then 2
  else if dwy <? 120 + leap then 3
  else if dwy <? 151 + leap then 4
  else if dwy <? 181 + leap then 5
  else if dwy <? 212 + leap then 6
  else if dwy <? 243 + leap then 7
  else if dwy <? 273 + leap then 8
  else if dwy <? 304 + leap then 9
  else if dwy <? 334 + leap then 10
  else 11.

Definition DayWithinYear (d : Z) : Z := d - DayFromYear (YearFromDay d).

Definition MonthFromDay (d : Z) : Z :=
  monthOfYearDay (leapDays (YearFromDay d)) (DayWithinYear d).

Definition DateFromDay (d : Z) : Z :=
  let l := leapDays (YearFromDay d) in
  DayWithinYear d - monthStartDay l (MonthFromDay d) + 1.

Definition WeekDay (d : Z) : Z := (d + 4) mod 7.

(** Number of days of month [m] (0 = January) of year [y]. *)
Definition daysInMonth (y m : Z) : Z :=
  match m with
  | 1 => 28 + leapDays y
  | 3 | 5 | 8 | 10 => 30
  | _ => 31
  end.

(** [MakeDay(year, month, date)] on integer arguments. *)
Definition MakeDay (year month date : Z) : Z :=
  let ym := year + month / 12 in
  let mn := month mod 12 in
  DayFromYear ym + monthStartDay (leapDays ym) mn + date - 1.

(** [MakeFullYear]: a year from 0 to 99 stands for 1900 + year. *)
Definition MakeFullYear (y : Z) : Z :=
  if (0 <=? y) && (y <=? 99) then 1900 + y else y.

(** [Date.UTC(year, month, date)] on integer arguments. *)
Definition UTC (year month date : Z) : num :=
  TimeClip (MakeDay (MakeFullYear year) month date * msPerDay).

(** A [Date] object is its time value. *)
Definition Date := num.

Definition getTime (d : Date) : num := d.
Definition getUTCFullYear (d : Date) : num := YearFromDay ∘ Day <$> d.
Definition getUTCMonth (d : Date) : num := MonthFromDay ∘ Day <$> d.
Definition getUTCDate (d : Date) : num := DateFromDay ∘ Day <$> d.
Definition getUTCDay (d : Date) : num := WeekDay ∘ Day <$> d.

End JSDate.

Import JSDate.

(** ** Strings *)

Module JSString.

Definition digitChar (n : Z) : ascii :=
  ascii_of_N (48 + Z.to_N n).

Definition isDigit (c : ascii) : bool :=
  let n := N_of_ascii c in ((48 <=? n) && (n <=? 57))%N.

Definition digitValue (c : ascii) : Z := Z.of_N (N_of_ascii c) - 48.

(** Decimal digits of a non-negative integer, most significant first. *)
Fixpoint digitsOf (fuel : nat) (n : Z) (acc : string) : string :=
  match fuel with
  | O => acc
  | S fuel' =>
      let acc' := String (digitChar (n mod 10)) acc in
      if n <? 10 then acc' else digitsOf fuel' (n / 10) acc'
  end.

(** [String(n)] for an integer [n] below 10^21 in size, where JavaScript
    writes all the digits. *)
Definition intToString (n : Z) : string :=
  if n <? 0 then String "-" (digitsOf (S (Z.to_nat (Z.log2 (- n)))) (- n) "")
  else digitsOf (S (Z.to_nat (Z.log2 n))) n "".

(** [String(x)] for an integer or NaN. *)
Definition numToString (x : num) : string :=
  match x with
  | Some n => intToString n
  | None => "NaN"
  end.

(** [s.padStart(2, '0')]. *)
Definition padStart2 (s : string) : string :=
  match s with
  | EmptyString => "00"
  | String c EmptyString => String "0" s
  | _ => s
  end.

(** [/^\d{4}-\d{2}-\d{2}$/.test(s)]. *)
Definition matchesDateKey (s : string) : bool :=
  match s with
  | String y1 (String y2 (String y3 (String y4 (String h1
      (String m1 (String m2 (String h2
        (String d1 (String d2 EmptyString))))))))) =>
      isDigit y1 && isDigit y2 && isDigit y3 && isDigit y4
      && Ascii.eqb h1 "-" && isDigit m1 && isDigit m2
      && Ascii.eqb h2 "-" && isDigit d1 && isDigit d2
  | _ => false
  end.

(** Value of a string of decimal digits; [None] when the string is empty,
    holds another character, or is too long to be read exactly. *)
Fixpoint decimalAcc (s : string) (acc : Z) : option Z :=
  match s with
  | EmptyString => Some acc
  | String c s' =>
      if isDigit c then decimalAcc s' (10 * acc + digitValue c) else None
  end.

Definition decimalValue (s : string) : option Z :=
  match s with
  | EmptyString => None
  | _ => if (String.length s <=? 15)%nat then decimalAcc s 0 else None
  end.

(** [s.split('-')]. *)
Fixpoint splitDash (s : string) : list string :=
  match s with
  | EmptyString => [EmptyString]
  | String c s' =>
      if Ascii.eqb c "-" then EmptyString :: splitDash s'
      else match splitDash s' with
           | part :: parts => String c part :: parts
           | [] => [String c EmptyString]
           end
  end.

End JSString.

Import JSString.

(** [toDateKey(date)], the same in both files: the key from the UTC
    calendar fields of [date]. *)
Definition toDateKey (date : Date) : string :=
  let y := getUTCFullYear date in
  let m := padStart2 (numToString ((λ x, x + 1) <$> getUTCMonth date)) in
  let d := padStart2 (numToString (getUTCDate date)) in
  numToString y +:+ "-" +:+ m +:+ "-" +:+ d.

(** ** JavaScript values as they come out of a JSON response *)

Module JSValue.

(** A JavaScript number: NaN, an infinity, or a finite value. *)
Inductive jsnum :=
| NaN
| Infinity (negative : bool)
| Finite (q : Q).

#[warnings="-register-all"] Inductive jsval :=
| VUndefined
| VNull
| VBool (b : bool)
| VNum (n : jsnum)
| VStr (s : string)
| VArr (items : list jsval)
| VObj (props : list (string * jsval)).

(** The result of running a piece of code: a value, or a thrown error with
    its message. *)
Inductive completion (A : Type) :=
| Normal (a : A)
| Throw (message : string).
Arguments Normal {A} a.
Arguments Throw {A} message.

Definition bindC {A B} (c : completion A) (k : A → completion B) : completion B :=
  match c with
  | Normal a => k a
  | Throw m => Throw m
  end.

(** What the model takes from the JavaScript engine without defining it:
    [Number] on strings that are not plain decimal numerals, the rendering
    of numbers as strings, [Date.parse] on strings that are not in the
    UTC date-time format, and the message texts of the errors the engine
    itself throws: the [TypeError] of a property read on [null] or
    [undefined], the [TypeError] of an object that cannot be converted to
    a primitive value, the [RangeError] of an invalid time value and the
    [SyntaxError] of a text that is not JSON. *)
Record Platform := {
  strToNum : string → jsnum;
  numToStr : jsnum → string;
  dateParse : string → num;
  typeErrorText : string;
  primitiveErrorText : string;
  rangeErrorText : string;
  syntaxErrorText : string
}.

#[global] Instance completion_ret : MRet completion := @Normal.
#[global] Instance completion_bind : MBind completion :=
  λ A B k c, bindC c k.

Definition intNum (n : Z) : jsnum := Finite (inject_Z n).

Definition truthyNum (n : jsnum) : bool :=
  match n with
  | NaN => false
  | Infinity _ => true
  | Finite q => negb (Qnum q =? 0)
  end.

(** [!!v]. *)
Definition truthy (v : jsval) : bool :=
  match v with
  | VUndefined | VNull => false
  | VBool b => b
  | VNum n => truthyNum n
  | VStr s => negb (String.eqb s "")
  | VArr _ | VObj _ => true
  end.

(** [typeof v === 'object'] ([null] included, as in JavaScript). *)
Definition typeofObject (v : jsval) : bool :=
  match v with
  | VNull | VArr _ | VObj _ => true
  | _ => false
  end.

(** Own property of a parsed JSON object; a later duplicate wins. *)
Fixpoint findProp (props : list (string * jsval)) (k : string) : option jsval :=
  match props with
  | [] => None
  | (k', v) :: rest =>
      match findProp rest k with
      | Some found => Some found
      | None => if String.eqb k' k then Some v else None
      end
  end.

Section Conversions.

Variable P : Platform.

(** [StringToNumber]: a short string of decimal digits is that integer, the
    empty string is 0, any other string is left to the engine. *)
Definition StringToNumber (s : string) : jsnum :=
  match decimalValue s with
  | Some n => intNum n
  | None => if String.eqb s "" then intNum 0 else strToNum P s
  end.

(** [ToString].  An object or array is first converted to a primitive
    ([ToPrimitive]), by the methods [toString] and [valueOf] in this order
    or the other.  An object of a parsed JSON text inherits both: the
    [valueOf] it inherits gives the object back, which is no primitive,
    and the [toString] it inherits gives ["[object Object]"].  A property
    [toString] of its own hides the inherited method and is no function,
    whatever its value, and a [valueOf] of its own is none either; so an
    object with a [toString] of its own has no method that gives a
    primitive, and the conversion throws a [TypeError].  An array has no
    such property of its own; it is joined with commas, [null] and
    [undefined] elements becoming empty and the others being converted in
    turn, the first that throws ending the conversion. *)
Fixpoint ToString (v : jsval) : completion string :=
  match v with
  | VUndefined => Normal "undefined"
  | VNull => Normal "null"
  | VBool true => Normal "true"
  | VBool false => Normal "false"
  | VNum n => Normal (numToStr P n)
  | VStr s => Normal s
  | VArr items =>
      bindC
        ((fix parts (l : list jsval) : completion (list string) :=
            match l with
            | [] => Normal []
            | x :: rest =>
                bindC (match x with
                       | VUndefined | VNull => Normal ""
                       | _ => ToString x
                       end)
                      (λ s, bindC (parts rest) (λ ss, Normal (s :: ss)))
            end) items)
        (λ ss, Normal (String.concat "," ss))
  | VObj props =>
      match findProp props "toString" with
      | Some _ => Throw (primitiveErrorText P)
      | None => Normal "[object Object]"
      end
  end.

(** [ToNumber], which is also [Number(v)]; an object or array is converted
    to a primitive first, which may throw. *)
Definition ToNumber (v : jsval) : completion jsnum :=
  match v with
  | VUndefined => Normal NaN
  | VNull => Normal (intNum 0)
  | VBool true => Normal (intNum 1)
  | VBool false => Normal (intNum 0)
  | VNum n => Normal n
  | VStr s => Normal (StringToNumber s)
  | VArr _ | VObj _ => bindC (ToString v) (λ s, Normal (StringToNumber s))
  end.

(** [TimeClip] of a JavaScript number: NaN beyond the range of [Date],
    the integer part otherwise. *)
Definition TimeClipNum (n : jsnum) : num :=
  match n with
  | Finite q =>
      if Qle_bool (Qabs q) (inject_Z maxTime)
      then Some (Z.quot (Qnum q) (Z.pos (Qden q)))
      else None
  | _ => None
  end.

Definition twoDigits (a b : ascii) : option Z :=
  if isDigit a && isDigit b then Some (10 * digitValue a + digitValue b)
  else None.

(** The UTC date-time format [YYYY-MM-DDTHH:mm:ss.sssZ] with every field
    in range; every engine reads it the same way. *)
Definition parseIsoUtc (s : string) : option Z :=
  match s with
  | String y1 (String y2 (String y3 (String y4 (String "-"
      (String m1 (String m2 (String "-" (String d1 (String d2 (String "T"
        (String h1 (String h2 (String ":" (String i1 (String i2 (String ":"
          (String s1 (String s2 (String "."
            (String f1 (String f2 (String f3 (String "Z" EmptyString)))))))))))))))))))))))
      =>
      yh ← twoDigits y1 y2; yl ← twoDigits y3 y4;
      mo ← twoDigits m1 m2; dt ← twoDigits d1 d2;
      hh ← twoDigits h1 h2; mi ← twoDigits i1 i2; ss ← twoDigits s1 s2;
      fh ← twoDigits "0" f1; fl ← twoDigits f2 f3;
      let y := 100 * yh + yl in
      if (1 <=? mo) && (mo <=? 12) && (1 <=? dt) && (dt <=? daysInMonth y (mo - 1))
         && (hh <=? 23) && (mi <=? 59) && (ss <=? 59)
      then Some (MakeDay y (mo - 1) dt * msPerDay
                 + hh * 3600000 + mi * 60000 + ss * 1000 + 100 * fh + fl)
      else None
  | _ => None
  end.

(** [Date.parse(s)]. *)
Definition Date_parse (s : string) : num :=
  match parseIsoUtc s with
  | Some t => TimeClip t
  | None => dateParse P s
  end.

(** [new Date(v)] for a value [v] that is not itself a [Date]: [v] is
    converted to a primitive, which may throw; a string is parsed and any
    other primitive is taken as a number. *)
Definition newDate (v : jsval) : completion Date :=
  match v with
  | VStr s => Normal (Date_parse s)
  | VArr _ | VObj _ => bindC (ToString v) (λ s, Normal (Date_parse s))
  | _ => bindC (ToNumber v) (λ n, Normal (TimeClipNum n))
  end.

(** [v.k]: reading a property of [null] or [undefined] throws a
    [TypeError]; a primitive or an array has none of the properties this
    program reads, but for [entries], which on an array is a method: like
    [undefined] it is no array, which is all the program asks of it. *)
Definition getProp (v : jsval) (k : string) : completion jsval :=
  match v with
  | VUndefined | VNull => Throw (typeErrorText P)
  | VObj props => Normal (default VUndefined (findProp props k))
  | _ => Normal VUndefined
  end.

End Conversions.

End JSValue.

Import JSValue.
#[global] Coercion VStr : string >-> jsval.

(** ** Entries *)

(** A normalised entry, as [normalizeEntry] builds it: [id] and [date] are
    whatever the response held ([entryId] is the field [id]), [severity] is a number or [null]. *)
Record Entry := {
  entryId : jsval;
  date : jsval;
  dateKey : string;
  isSick : bool;
  severity : option jsnum
}.

(** ** The year heat map, [src/components/YearHeatmap.js] *)

Module YearHeatmap.

(** Arithmetic on numbers that may be NaN. *)
Definition nadd (a b : num) : num := x ← a; y ← b; Some (x + y).
Definition nsub (a b : num) : num := x ← a; y ← b; Some (x - y).
Definition nlt (a b : num) : bool :=
  match a, b with
  | Some x, Some y => x <? y
  | _, _ => false
  end.
Definition nge (a b : num) : bool :=
  match a, b with
  | Some x, Some y => y <=? x
  | _, _ => false
  end.
(** [Math.floor(a / 7)], [Math.ceil(a / 7)] and [Math.max(1, a)]. *)
Definition floorDiv7 (a : num) : num := (λ x, x / 7) <$> a.
Definition ceilDiv7 (a : num) : num := (λ x, - ((- x) / 7)) <$> a.
Definition max1 (a : num) : num := Z.max 1 <$> a.

(** [Date.UTC] on arguments that may be NaN. *)
Definition UTCnum (year month date : num) : Date :=
  y ← year; m ← month; d ← date; UTC y m d.

Definition startOfYearUtc (year : Z) : Date := UTC year 0 1.

Definition startOfNextYearUtc (year : Z) : Date := UTC (year + 1) 0 1.

(** [Math.floor((b.getTime() - a.getTime()) / 86400000)]; the component
    only passes UTC midnights, for which the quotient is exact. *)
Definition dayDiffUtc (a b : Date) : num :=
  ta ← getTime a; tb ← getTime b; Some ((tb - ta) / msPerDay).

(** The short English name of month [month], which [toLocaleString] gives
    for the UTC midnight of the month's first day where local time is at
    or ahead of UTC; where it is behind, that instant falls in the month
    before and the label is that month's name.  No property below depends
    on the text of a label. *)
Definition monthName (month : Z) : string :=
  match month with
  | 0 => "Jan" | 1 => "Feb" | 2 => "Mar" | 3 => "Apr"
  | 4 => "May" | 5 => "Jun" | 6 => "Jul" | 7 => "Aug"
  | 8 => "Sep" | 9 => "Oct" | 10 => "Nov" | _ => "Dec"
  end.

(** A day cell of the grid, and a week column of seven cells, each a day
    or [null]. *)
Record DayCell := {
  cellDate : Date;
  cellDateKey : string;
  cellEntry : option Entry
}.

Record WeekColumn := {
  index : Z;
  days : list (option DayCell);
  monthBreakBefore : bool
}.

Record MonthLabel := {
  label : string;
  startWeek : num;
  spanWeeks : num
}.

Record Grid := {
  weeks : list WeekColumn;
  monthLayout : list MonthLabel
}.

(** The lookup object built from the entries: a later entry with the same
    key replaces an earlier one. *)
Definition entriesByKey (entries : list Entry) : gmap string Entry :=
  foldl (λ map entry, <[dateKey entry := entry]> map) ∅ entries.

Section Layout.

Variable year : Z.

Definition jan1 : Date := startOfYearUtc year.
Definition nextJan1 : Date := startOfNextYearUtc year.
Definition totalDays : num := dayDiffUtc jan1 nextJan1.
Definition offset : num := getUTCDay jan1.
Definition totalCells : num := nadd offset totalDays.
Definition weekCount : num := ceilDiv7 totalCells.

Definition monthStartWeek (m : Z) : num :=
  let monthStart := UTC year m 1 in
  floorDiv7 (nadd offset (dayDiffUtc jan1 monthStart)).

Definition monthEndWeek (m : Z) : num :=
  let monthEnd := if m =? 11 then nextJan1 else UTC year (m + 1) 1 in
  ceilDiv7 (nadd offset (dayDiffUtc jan1 monthEnd)).

Definition monthLayoutData : list MonthLabel :=
  map (λ m, {| label := monthName m;
               startWeek := monthStartWeek m;
               spanWeeks := max1 (nsub (monthEndWeek m) (monthStartWeek m)) |})
      (seqZ 0 12).

(** The set of week columns at which some month starts, week 0 left out. *)
Definition monthStarts : gset Z :=
  list_to_set
    (omap (λ m, w ← monthStartWeek m; if 0 <? w then Some w else None)
          (seqZ 0 12)).

Definition dayCell (entriesByKey : gmap string Entry) (flatIndex : Z)
  : option DayCell :=
  let dayIndex := nsub (Some flatIndex) offset in
  if nlt dayIndex (Some 0) || nge dayIndex totalDays then None
  else
    let date := UTCnum (Some year) (Some 0) (nadd (Some 1) dayIndex) in
    let dateKey := toDateKey date in
    Some {| cellDate := date;
            cellDateKey := dateKey;
            cellEntry := entriesByKey !! dateKey |}.

Definition weekColumns (entriesByKey : gmap string Entry) : list WeekColumn :=
  match weekCount with
  | None => []
  | Some n =>
      map (λ w, {| index := w;
                   days := map (λ d, dayCell entriesByKey (w * 7 + d)) (seqZ 0 7);
                   monthBreakBefore := bool_decide (w ∈ monthStarts) |})
          (seqZ 0 n)
  end.

End Layout.

(** The grid the component computes from its [year] and [entries]. *)
Definition buildYearGrid (year : Z) (entries : list Entry) : Grid :=
  {| weeks := weekColumns year (entriesByKey entries);
     monthLayout := monthLayoutData year |}.

(** All cells of a grid, column by column. *)
Definition cells (g : Grid) : list (option DayCell) :=
  concat (map days (weeks g)).

(** The day cells of a grid. *)
Definition dayCells (g : Grid) : list DayCell := omap (λ c, c) (cells g).

End YearHeatmap.

Import YearHeatmap.

(** ** The home page, [src/App.js] *)

Module App.

(** The payload of a save, the preview shown before an update, and what a
    request to the persistence service settles to. *)
Record Payload := {
  payloadDate : string;
  payloadIsSick : bool;
  payloadSeverity : option jsnum
}.

Record UpdatePreview := {
  existing : Entry;
  next : Payload;
  previewDateKey : string
}.

Inductive Settled :=
| Resolved (value : jsval)
| Rejected (message : string).

(** What [fetch] comes back with: a network failure, or a response with
    its [ok] flag and its body read as JSON, if it is JSON. *)
Inductive HttpResult :=
| NetworkError (message : string)
| Response (ok : bool) (body : option jsval).

(** The requests the page sends, and the network as the page sees it: the
    results its next calls of [fetch] will come back with, and the
    requests sent so far. *)
Inductive Request :=
| SaveEntryRequest (payload : Payload)
| FetchEntriesRequest (year : Z).

Record Network := {
  replies : list HttpResult;
  sent : list Request
}.

(** One call of [fetch]: the request is sent and the next result comes back;
    a network that has nothing to answer fails the call. *)
Definition callFetch (request : Request) (net : Network) : HttpResult * Network :=
  match replies net with
  | reply :: rest => (reply, {| replies := rest; sent := sent net ++ [request] |})
  | [] => (NetworkError "Failed to fetch",
           {| replies := []; sent := sent net ++ [request] |})
  end.

(** The state of the [HomePage] component; [formIsSick] and
    [formSeverity] are its state variables [isSick] and [severity]. *)
Record HomeState := {
  selectedYear : Z;
  yearsFromApi : list jsval;
  entries : list Entry;
  busy : bool;
  info : string;
  error : string;
  formDate : Date;
  formIsSick : bool;
  formSeverity : jsnum;
  existingEntryNotice : option Entry;
  updatePreview : option UpdatePreview
}.

Definition setEntries (f : list Entry → list Entry) (st : HomeState) : HomeState :=
  {| selectedYear := selectedYear st; yearsFromApi := yearsFromApi st;
     entries := f (entries st); busy := busy st; info := info st;
     error := error st; formDate := formDate st; formIsSick := formIsSick st;
     formSeverity := formSeverity st;
     existingEntryNotice := existingEntryNotice st;
     updatePreview := updatePreview st |}.

Definition setYearsFromApi (f : list jsval → list jsval) (st : HomeState) : HomeState :=
  {| selectedYear := selectedYear st; yearsFromApi := f (yearsFromApi st);
     entries := entries st; busy := busy st; info := info st;
     error := error st; formDate := formDate st; formIsSick := formIsSick st;
     formSeverity := formSeverity st;
     existingEntryNotice := existingEntryNotice st;
     updatePreview := updatePreview st |}.

Definition setBusy (b : bool) (st : HomeState) : HomeState :=
  {| selectedYear := selectedYear st; yearsFromApi := yearsFromApi st;
     entries := entries st; busy := b; info := info st;
     error := error st; formDate := formDate st; formIsSick := formIsSick st;
     formSeverity := formSeverity st;
     existingEntryNotice := existingEntryNotice st;
     updatePreview := updatePreview st |}.

Definition setInfo (s : string) (st : HomeState) : HomeState :=
  {| selectedYear := selectedYear st; yearsFromApi := yearsFromApi st;
     entries := entries st; busy := busy st; info := s;
     error := error st; formDate := formDate st; formIsSick := formIsSick st;
     formSeverity := formSeverity st;
     existingEntryNotice := existingEntryNotice st;
     updatePreview := updatePreview st |}.

Definition setError (s : string) (st : HomeState) : HomeState :=
  {| selectedYear := selectedYear st; yearsFromApi := yearsFromApi st;
     entries := entries st; busy := busy st; info := info st;
     error := s; formDate := formDate st; formIsSick := formIsSick st;
     formSeverity := formSeverity st;
     existingEntryNotice := existingEntryNotice st;
     updatePreview := updatePreview st |}.

Definition setUpdatePreview (p : option UpdatePreview) (st : HomeState) : HomeState :=
  {| selectedYear := selectedYear st; yearsFromApi := yearsFromApi st;
     entries := entries st; busy := busy st; info := info st;
     error := error st; formDate := formDate st; formIsSick := formIsSick st;
     formSeverity := formSeverity st;
     existingEntryNotice := existingEntryNotice st;
     updatePreview := p |}.

(** [value || fallback] on strings. *)
Definition orString (value fallback : string) : string :=
  if String.eqb value "" then fallback else value.

(** [Array.prototype.sort] with a comparator, as the insertion sort of the
    textbook: each element moves left past the elements the comparator
    puts after it.  The prefix sorted so far is kept in reverse.  For a
    comparator that orders the elements consistently every engine gives
    this result; for another one the order is up to the engine. *)
Fixpoint insertDown {A} (after : A → A → bool) (x : A) (sortedRev : list A)
  : list A :=
  match sortedRev with
  | [] => [x]
  | y :: rest =>
      if after y x then y :: insertDown after x rest else x :: sortedRev
  end.

Definition sortWith {A} (compare : A → A → num) (l : list A) : list A :=
  let after a b := match compare a b with Some c => 0 <? c | None => false end in
  rev (foldl (λ sortedRev x, insertDown after x sortedRev) [] l).

Section WithPlatform.

Variable P : Platform.

Definition isValidDateKey (value : jsval) : bool :=
  match value with
  | VStr s => matchesDateKey s
  | _ => false
  end.

(** [normalizeEntry(raw)].  The properties of [raw] are read once each,
    which changes nothing for a parsed JSON value; the last test before
    the entry is built is [!isValidDateKey(dateKey) || typeof raw.isSick
    !== 'boolean'].  [new Date(raw.date)] and [Number(raw.severity || 1)]
    convert a value of the response and throw if it cannot be converted:
    the first before that test, whenever [raw.dateKey] is no valid key and
    [raw.date] is truthy, the second after it, when the entry is sick. *)
Definition normalizeEntry (raw : jsval) : completion (option Entry) :=
  if negb (truthy raw) || negb (typeofObject raw) then Normal None
  else
    rawDateKey ← getProp P raw "dateKey";
    rawDate ← getProp P raw "date";
    dateKey ←
      (if negb (isValidDateKey rawDateKey) && truthy rawDate then
         parsed ← newDate P rawDate;
         Normal (match getTime parsed with
                 | Some _ => VStr (toDateKey parsed)
                 | None => rawDateKey
                 end)
       else Normal rawDateKey);
    rawIsSick ← getProp P raw "isSick";
    match dateKey, rawIsSick with
    | VStr key, VBool sick =>
        if negb (matchesDateKey key) then Normal None
        else
          rawId ← getProp P raw "id";
          rawId' ← getProp P raw "_id";
          rawSeverity ← getProp P raw "severity";
          severity ←
            (if sick
             then n ← ToNumber P (if truthy rawSeverity then rawSeverity
                                  else VNum (intNum 1));
                  Normal (Some n)
             else Normal None);
          Normal (Some
            {| entryId := if truthy rawId then rawId
                          else if truthy rawId' then rawId' else VNull;
               date := rawDate;
               dateKey := key;
               isSick := sick;
               severity := severity |})
    | _, _ => Normal None
    end.

(** The integer part of a finite number. *)
Definition truncate (q : Q) : Z := Z.quot (Qnum q) (Z.pos (Qden q)).

(** [Date.UTC] on JavaScript numbers. *)
Definition UTCjs (y m d : jsnum) : Date :=
  match y, m, d with
  | Finite qy, Finite qm, Finite qd => UTC (truncate qy) (truncate qm) (truncate qd)
  | _, _, _ => None
  end.

(** [n - 1]. *)
Definition minusOne (n : jsnum) : jsnum :=
  match n with
  | Finite q => Finite (q - 1)
  | other => other
  end.

(** [parseDateFromKey(dateKey)]: the first three parts of the key, as
    numbers, go to [Date.UTC]; a missing part is [undefined] and makes the
    date invalid. *)
Definition parseDateFromKey (dateKey : string) : Date :=
  match map (StringToNumber P) (splitDash dateKey) with
  | y :: m :: d :: _ => UTCjs y (minusOne m) d
  | _ => None
  end.

Fixpoint zeros (n : nat) : string :=
  match n with
  | O => ""
  | S n' => String "0" (zeros n')
  end.

(** [s.padStart(width, '0')]. *)
Definition padZeros (width : nat) (s : string) : string :=
  zeros (width - String.length s) +:+ s.

(** [date.toISOString()], which throws a [RangeError] on an invalid date. *)
Definition toISOString (date : Date) : completion string :=
  match date with
  | None => Throw (rangeErrorText P)
  | Some t =>
      let day := Day t in
      let ms := t mod msPerDay in
      let y := YearFromDay day in
      let year :=
        if (0 <=? y) && (y <=? 9999) then padZeros 4 (intToString y)
        else String (if y <? 0 then "-"%char else "+"%char)
                    (padZeros 6 (intToString (Z.abs y))) in
      Normal (year +:+ "-" +:+ padZeros 2 (intToString (MonthFromDay day + 1))
              +:+ "-" +:+ padZeros 2 (intToString (DateFromDay day))
              +:+ "T" +:+ padZeros 2 (intToString (ms / 3600000))
              +:+ ":" +:+ padZeros 2 (intToString (ms / 60000 mod 60))
              +:+ ":" +:+ padZeros 2 (intToString (ms / 1000 mod 60))
              +:+ "." +:+ padZeros 3 (intToString (ms mod 1000)) +:+ "Z")
  end.

(** A JavaScript number strictly equal to an integer. *)
Definition numIs (n : jsnum) (z : Z) : bool :=
  match n with
  | Finite q => Qeq_bool q (inject_Z z)
  | _ => false
  end.

(** The lookup from date key to entry, over the entries of the selected
    year. *)
Definition entryMap (entries : list Entry) (selectedYear : Z) : gmap string Entry :=
  foldl (λ map entry,
           if negb (matchesDateKey (dateKey entry)) then map
           else if negb (numIs (StringToNumber P (String.substring 0 4 (dateKey entry)))
                               selectedYear)
                then map
                else <[dateKey entry := entry]> map)
        ∅ entries.

(** The time the comparator of the merge reads in an entry,
    [new Date(entry.date).getTime()].  For a date that cannot be converted
    to a primitive the comparator throws and the update of the collection
    is not carried out; such an entry has no time here, as one with an
    invalid date has none. *)
Definition entryTime (e : Entry) : num :=
  match newDate P (date e) with
  | Normal parsed => getTime parsed
  | Throw _ => None
  end.

(** The comparator of the merge: the difference of the two dates' times. *)

Definition compareByDate (a b : Entry) : num :=
  ta ← entryTime a; tb ← entryTime b; Some (ta - tb).

(** The state update of [commitSave] after a successful save. *)
Definition mergeSaved (saved : Entry) (prev : list Entry) : list Entry :=
  let next := filter (λ item, dateKey item ≠ dateKey saved) prev in
  sortWith compareByDate (next ++ [saved]).

Definition yearValue (year : Z) : jsval := VNum (intNum year).

Definition includesYear (years : list jsval) (year : Z) : bool :=
  existsb (λ v, match v with VNum n => numIs n year | _ => false end) years.

(** [saveEntry] of [src/api/entries.js]: one call of [fetch], then the
    reading of the response.  [new Error(message)] converts a message
    that is no string, which may throw in its turn. *)
Definition saveEntrySettled (r : HttpResult) : Settled :=
  match r with
  | NetworkError message => Rejected message
  | Response false body =>
      match getProp P (default (VObj []) body) "message" with
      | Normal message =>
          if truthy message then
            match ToString P message with
            | Normal text => Rejected text
            | Throw thrown => Rejected thrown
            end
          else Rejected "Failed to save entry"
      | Throw message => Rejected message
      end
  | Response true (Some value) => Resolved value
  | Response true None => Rejected (syntaxErrorText P)
  end.

Definition saveEntry (payload : Payload) (net : Network) : Settled * Network :=
  let (r, net') := callFetch (SaveEntryRequest payload) net in
  (saveEntrySettled r, net').

(** [fetchEntriesByYear] of [src/api/entries.js]. *)
Definition fetchEntriesSettled (r : HttpResult) : Settled :=
  match r with
  | NetworkError message => Rejected message
  | Response false _ => Rejected "Failed to fetch entries"
  | Response true (Some value) => Resolved value
  | Response true None => Rejected (syntaxErrorText P)
  end.

Definition fetchEntriesByYear (year : Z) (net : Network) : Settled * Network :=
  let (r, net') := callFetch (FetchEntriesRequest year) net in
  (fetchEntriesSettled r, net').

(** The [try] block of [commitSave] once [saveEntry] has settled. *)
Definition commitSaveTry (settled : Settled) (st : HomeState)
  : completion HomeState :=
  match settled with
  | Rejected message => Throw message
  | Resolved response =>
      rawEntry ← getProp P response "entry";
      saved ← normalizeEntry rawEntry;
      match saved with
      | None => Throw "Invalid entry returned by server."
      | Some saved =>
          let st := setEntries (mergeSaved saved) st in
          let st := setYearsFromApi
                      (λ prev, if includesYear prev (selectedYear st) then prev
                               else prev ++ [yearValue (selectedYear st)]) st in
          let st := setUpdatePreview None st in
          Normal (setInfo "Entry saved." st)
      end
  end.

(** [commitSave(payload)]: the request, the [try] block, then [catch] and
    [finally]. *)
Definition commitSave (payload : Payload) (page : HomeState * Network)
  : HomeState * Network :=
  let (st, net) := page in
  let st := setInfo "" (setError "" (setBusy true st)) in
  let (settled, net) := saveEntry payload net in
  let st :=
    match commitSaveTry settled st with
    | Normal st' => st'
    | Throw message => setError (orString message "Failed to save entry") st
    end in
  (setBusy false st, net).

(** The effect that loads the entries of the selected year, from the point
    where the request has settled. *)
Fixpoint normalizeAll (items : list jsval) : completion (list Entry) :=
  match items with
  | [] => Normal []
  | raw :: rest =>
      entry ← normalizeEntry raw;
      others ← normalizeAll rest;
      Normal (match entry with Some e => e :: others | None => others end)
  end.

Definition loadEntriesThen (data : jsval) : completion (list Entry) :=
  rawEntries ← getProp P data "entries";
  match rawEntries with
  | VArr items => normalizeAll items
  | _ => Normal []
  end.

Definition loadEntries (page : HomeState * Network) : HomeState * Network :=
  let (st, net) := page in
  let st := setEntries (λ _, []) (setError "" (setBusy true st)) in
  let (settled, net) := fetchEntriesByYear (selectedYear st) net in
  let loaded :=
    match settled with
    | Resolved data => loadEntriesThen data
    | Rejected message => Throw message
    end in
  let st :=
    match loaded with
    | Normal normalized => setEntries (λ _, normalized) st
    | Throw message =>
        setError (orString message "Failed to load entries")
                 (setEntries (λ _, []) st)
    end in
  (setBusy false st, net).

(** The payload [onSubmit] builds; [toISOString] may throw. *)
Definition submitPayload (st : HomeState) : completion Payload :=
  isoDate ← toISOString (parseDateFromKey (toDateKey (formDate st)));
  Normal {| payloadDate := isoDate;
            payloadIsSick := formIsSick st;
            payloadSeverity :=
              if formIsSick st then Some (formSeverity st) else None |}.

(** [onSubmit]: with an entry of the same key in the map it shows the
    update preview and returns; otherwise it calls [commitSave]. *)
Definition onSubmit (page : HomeState * Network)
  : completion (HomeState * Network) :=
  let (st, net) := page in
  let dateKey := toDateKey (formDate st) in
  payload ← submitPayload st;
  match entryMap (entries st) (selectedYear st) !! dateKey with
  | Some existing =>
      Normal (setUpdatePreview
                (Some {| existing := existing; next := payload;
                         previewDateKey := dateKey |}) st,
              net)
  | None => Normal (commitSave payload page)
  end.

End WithPlatform.

End App.

Import App.

(** ** Notions the properties are stated with *)

(** The years [Date.UTC] takes literally and whose first day, like that of
    the next year, a [Date] can hold: not 0 to 99 (read as 1900 to 1999),
    not -1 (whose next year is 0), and within the range of [Date]. *)
Definition literalYear (y : Z) : Prop :=
  (-271820 <= y <= -2) ∨ (100 <= y <= 275759).

(** The years whose grid has as many day cells as the year has days: the
    years in the range of [Date], without -1 (whose next year is read as
    1900), 0 (read as 1900, which is no leap year) and 99 (read as 1999,
    with the next year read as 100).  For the years 1 to 98 the grid is
    that of 1901 to 1998, which have the same number of days. *)
Definition countedYear (y : Z) : Prop :=
  -271820 <= y <= 275759 ∧ y ≠ -1 ∧ y ≠ 0 ∧ y ≠ 99.

(** The cell of day [k] of the year [y]. *)
Definition cellOfDay (y : Z) (byKey : gmap string Entry) (k : Z) : DayCell :=
  let date := UTC y 0 (1 + k) in
  {| cellDate := date;
     cellDateKey := toDateKey date;
     cellEntry := byKey !! toDateKey date |}.

(** The key of the day [dt] of month [m] (0 = January) of year [y], with
    the year in plain decimal and month and day in two digits; for a year
    of four digits this is the canonical form [YYYY-MM-DD]. *)
Definition dayKey (y m dt : Z) : string :=
  intToString y +:+ "-" +:+ padStart2 (intToString (m + 1))
    +:+ "-" +:+ padStart2 (intToString dt).

(** The weekday (0 = Sunday) of 1 January of year [y] in the Gregorian
    calendar, by Gauss's formula. *)
Definition jan1Weekday (y : Z) : Z :=
  (1 + 5 * ((y - 1) mod 4) + 4 * ((y - 1) mod 100) + 6 * ((y - 1) mod 400)) mod 7.

(** The day cells of a grid that hold an entry. *)
Definition occupiedCells (g : Grid) : list DayCell :=
  filter (λ c, is_Some (cellEntry c)) (dayCells g).

Fixpoint leadingNulls {A} (l : list (option A)) : Z :=
  match l with
  | None :: l' => 1 + leadingNulls l'
  | _ => 0
  end.

(** The number of empty cells before the first day in week 0. *)
Definition leadingEmpty (g : Grid) : Z :=
  match weeks g with
  | [] => 0
  | w :: _ => leadingNulls (days w)
  end.

(** The grid built for [y] from the single entry [e] holds [e] in exactly
    one cell, whose key is the key of [e] and is derived from the cell's
    date. *)
Definition heldOnce (y : Z) (e : Entry) : Prop :=
  ∃ c, occupiedCells (buildYearGrid y [e]) = [c]
       ∧ cellEntry c = Some e
       ∧ cellDateKey c = dateKey e
       ∧ cellDateKey c = toDateKey (cellDate c).

(** Month labels as the specification wants them: each label's span ends
    no later than the next begins. *)
Definition nonOverlapping (l : list MonthLabel) : Prop :=
  ∀ (i : nat) a b s n s',
    l !! i = Some a → l !! S i = Some b →
    startWeek a = Some s → spanWeeks a = Some n → startWeek b = Some s' →
    s + n <= s'.

(** Month labels as the component lays them out: each label begins in the
    last column of the label before it or in the column right after it. *)
Definition adjoining (l : list MonthLabel) : Prop :=
  ∀ (i : nat) a b s n s',
    l !! i = Some a → l !! S i = Some b →
    startWeek a = Some s → spanWeeks a = Some n → startWeek b = Some s' →
    s' <= s + n <= s' + 1.

(** Week column [w] lies in the span of the label [ml]. *)
Definition inSpan (ml : MonthLabel) (w : Z) : Prop :=
  ∃ s n, startWeek ml = Some s ∧ spanWeeks ml = Some n ∧ s <= w < s + n.

(** Every week column that holds a day lies in the span of some label. *)
Definition coversDayColumns (g : Grid) : Prop :=
  ∀ w, w ∈ weeks g → (∃ c, Some c ∈ days w) →
       ∃ ml, ml ∈ monthLayout g ∧ inSpan ml (index w).

(** A platform that leaves to NaN whatever the model does not define. *)
Definition barePlatform : Platform :=
  {| strToNum := λ _, NaN;
     numToStr := λ _, "NaN";
     dateParse := λ _, None;
     typeErrorText := "Cannot read properties of null";
     primitiveErrorText := "Cannot convert object to primitive value";
     rangeErrorText := "Invalid time value";
     syntaxErrorText := "Unexpected token" |}.

(** [raw] is an object: not a primitive, not [null]. *)
Definition isObject (raw : jsval) : bool := truthy raw && typeofObject raw.

(** The property [k] of an object [raw]. *)
Definition rawProp (raw : jsval) (k : string) : jsval :=
  match raw with
  | VObj props => default VUndefined (findProp props k)
  | _ => VUndefined
  end.

Definition isBoolean (v : jsval) : bool :=
  match v with
  | VBool _ => true
  | _ => false
  end.

(** The date key that parsing [d] yields: [d] is there (not [undefined],
    [null] or another falsy value), is a valid date, and the key of its
    UTC fields has the canonical shape.  The parsing throws when [d]
    cannot be converted to a primitive. *)
Definition keyFromDate (P : Platform) (d : jsval) : completion (option string) :=
  if truthy d then
    parsed ← newDate P d;
    Normal (match parsed with
            | Some t =>
                if matchesDateKey (toDateKey (Some t))
                then Some (toDateKey (Some t))
                else None
            | None => None
            end)
  else Normal None.

(** The date key of a raw entry as the specification determines it:
    [raw.dateKey] if it has the canonical shape, otherwise the key
    derived from [raw.date]; [None] if neither yields a valid key. *)
Definition derivedDateKey (P : Platform) (raw : jsval)
  : completion (option string) :=
  match rawProp raw "dateKey" with
  | VStr s =>
      if matchesDateKey s then Normal (Some s)
      else keyFromDate P (rawProp raw "date")
  | _ => keyFromDate P (rawProp raw "date")
  end.

(** The severity [normalizeEntry] gives an entry: [Number(raw.severity ||
    1)] if it is sick, which throws when the value cannot be converted to
    a primitive, and [null] if it is not. *)
Definition convertedSeverity (P : Platform) (raw : jsval) (sick : bool)
  : completion (option jsnum) :=
  if sick then
    n ← ToNumber P (if truthy (rawProp raw "severity")
                    then rawProp raw "severity"
                    else VNum (intNum 1));
    Normal (Some n)
  else Normal None.

(** A number that is an integer from 1 to 5. *)
Definition inSeverityRange (n : jsnum) : Prop :=
  match n with
  | Finite q => ∃ z, 1 <= z <= 5 ∧ Qeq q (inject_Z z)
  | _ => False
  end.

(** The invariant of the data model on severity. *)
Definition severityInvariant (e : Entry) : Prop :=
  if isSick e then ∃ n, severity e = Some n ∧ inSeverityRange n
  else severity e = None.



(** The result the next call of [fetch] comes back with. *)
Definition nextReply (net : Network) : HttpResult :=
  match replies net with
  | reply :: _ => reply
  | [] => NetworkError "Failed to fetch"
  end.

(** A transport failure: a network error or a status that is not a success. *)
Definition transportFailure (r : HttpResult) : Prop :=
  match r with
  | NetworkError _ => True
  | Response ok _ => ok = false
  end.

(** A string of decimal digits. *)
Fixpoint allDigits (s : string) : bool :=
  match s with
  | EmptyString => true
  | String c s' => isDigit c && allDigits s'
  end.

(** The year a date key falls in: the number its first four digits
    spell. *)
Definition keyYear (k : string) : option Z :=
  if matchesDateKey k then decimalValue (String.substring 0 4 k) else None.

(** An entry of the collection that a submit collides with: it has the key
    of the form's date, and that key falls in the selected year. *)
Definition collidingEntry (st : HomeState) (e : Entry) : Prop :=
  e ∈ entries st
  ∧ dateKey e = toDateKey (formDate st)
  ∧ keyYear (dateKey e) = Some (selectedYear st).

(** ** Sample data *)

Definition rawEntry (key : string) (iso : option string) (sick : bool)
    (sev : option Z) : jsval :=
  VObj ([("dateKey", VStr key)]
        ++ match iso with Some d => [("date", VStr d)] | None => [] end
        ++ [("isSick", VBool sick)]
        ++ match sev with Some n => [("severity", VNum (intNum n))] | None => [] end).


Definition emptyPage : HomeState :=
  {| selectedYear := 2024; yearsFromApi := []; entries := [];
     busy := false; info := ""; error := "";
     formDate := UTC 2024 5 1; formIsSick := true; formSeverity := intNum 2;
     existingEntryNotice := None; updatePreview := None |}.

Definition withEntries (l : list Entry) (st : HomeState) : HomeState :=
  setEntries (λ _, l) st.

Definition entry_april : Entry :=
  {| entryId := VNull; date := VStr "2024-04-05T00:00:00.000Z";
     dateKey := "2024-04-05"; isSick := false; severity := None |}.


Definition entry_january : Entry :=
  {| entryId := VNull; date := VStr "2024-01-05T00:00:00.000Z";
     dateKey := "2024-01-05"; isSick := false; severity := None |}.

Definition somePayload : Payload :=
  {| payloadDate := "2024-01-05T00:00:00.000Z"; payloadIsSick := false;
     payloadSeverity := None |}.

Definition entry_2024_03_05 : Entry :=
  {| entryId := VNull; date := VStr "2024-03-05T00:00:00.000Z";
     dateKey := "2024-03-05"; isSick := true; severity := Some (intNum 3) |}.

Definition entry_0099_01_01 : Entry :=
  {| entryId := VNull; date := VStr "0099-01-01T00:00:00.000Z";
     dateKey := "99-01-01"; isSick := false; severity := None |}.

Definition entry_0050_03_05 : Entry :=
  {| entryId := VNull; date := VStr "0050-03-05T00:00:00.000Z";
     dateKey := "50-03-05"; isSick := false; severity := None |}.

Definition entry_0099_01_01_padded : Entry :=
  {| entryId := VNull; date := VStr "0099-01-01T00:00:00.000Z";
     dateKey := "0099-01-01"; isSick := false; severity := None |}.

Definition raw_sick_3 : jsval := rawEntry "2024-03-05" None true (Some 3).
Definition raw_healthy_4 : jsval := rawEntry "2024-03-05" None false (Some 4).
Definition raw_sick_9 : jsval := rawEntry "2024-03-05" None true (Some 9).

(** Raw entries with a value that cannot be converted to a primitive, an
    object with a property [toString] of its own: as the [date] of an
    entry without a date key, and as the [severity] of an entry that has
    a canonical key, a boolean [isSick] and no date. *)
Definition raw_date_unconvertible : jsval :=
  VObj [("date", VObj [("toString", VNum (intNum 1))]); ("isSick", VBool true)].

Definition raw_severity_unconvertible : jsval :=
  VObj [("dateKey", VStr "2024-03-05"); ("isSick", VBool true);
        ("severity", VObj [("toString", VNum (intNum 1))])].

Definition entry_sick (n : Z) : Entry :=
  {| entryId := VNull; date := VUndefined; dateKey := "2024-03-05";
     isSick := true; severity := Some (intNum n) |}.

Definition failingNetwork : Network :=
  {| replies := [Response false (Some (VObj [("message", VStr "Server error")]))];
     sent := [] |}.

(** ** The colours of the grid heat map, [src/components/YearHeatmap.js] *)

(** [shades[severity]]: a number names the property it is written as, so
    only the integers 1 to 5 find a shade; [null] finds none. *)
Definition shades (severity : option jsnum) : option string :=
  match severity with
  | Some n =>
      if numIs n 1 then Some "#f6b1b1"
      else if numIs n 2 then Some "#ef8a8a"
      else if numIs n 3 then Some "#e35d5d"
      else if numIs n 4 then Some "#ce3030"
      else if numIs n 5 then Some "#990f0f"
      else None
  | None => None
  end.

(** [colorForEntry(entry)], with [null] for no entry; a shade is a
    non-empty string, so [shades[entry.severity] || shades[1]] falls back
    only when no shade is found. *)
Definition colorForEntry (entry : option Entry) : string :=
  match entry with
  | None => "#ffffff"
  | Some e =>
      if negb (isSick e) then "#2ecc71"
      else match shades (severity e) with
           | Some shade => shade
           | None => default "" (shades (Some (intNum 1)))
           end
  end.

(** [severity || 1]. *)
Definition severityOrOne (severity : option jsnum) : jsnum :=
  match severity with
  | Some n => if truthyNum n then n else intNum 1
  | None => intNum 1
  end.

(** ** The calendar heat map, the [YearHeatmap.js] drawn with ECharts *)

Module Calendar.

(** A data point of the series: [[key, scale, dayCounter]]. *)
Record DataPoint := {
  pointKey : string;
  pointScale : jsnum;
  pointDay : Z
}.

(** [Math.max(2, n)] and [Math.min(6, n)]. *)
Definition max2 (n : jsnum) : jsnum :=
  match n with
  | NaN => NaN
  | Infinity true => intNum 2
  | Infinity false => Infinity false
  | Finite q => if Qle_bool q (inject_Z 2) then intNum 2 else Finite q
  end.

Definition min6 (n : jsnum) : jsnum :=
  match n with
  | NaN => NaN
  | Infinity true => Infinity true
  | Infinity false => intNum 6
  | Finite q => if Qle_bool (inject_Z 6) q then intNum 6 else Finite q
  end.

(** The colours of the visual map, by the value of their piece. *)
Definition pieces : list (Z * string) :=
  [(0, "#ffffff"); (1, "#2ecc71"); (2, "#f6b1b1"); (3, "#ef8a8a");
   (4, "#e35d5d"); (5, "#ce3030"); (6, "#990f0f")]%string.

(** The colour of the piece whose value is [scale], if there is one. *)
Definition pieceColor (scale : jsnum) : option string :=
  snd <$> List.find (λ piece, numIs scale (fst piece)) pieces.

(** [date.setUTCDate(dt)]: the new time value of [date]. *)
Definition setUTCDate (date : Date) (dt : num) : Date :=
  t ← date; d ← dt;
  TimeClip (MakeDay (YearFromDay (Day t)) (MonthFromDay (Day t)) d * msPerDay
            + t mod msPerDay).

(** The numbers a set holds, in the order they were added. *)
Definition addToSet (x : num) (set : list num) : list num :=
  if decide (x ∈ set) then set else set ++ [x].

(** [monthBoundaryWeeks]: the week of the first day of each month after
    January, without repeats, in ascending order. *)
Definition monthBoundaryWeeks (year : Z) : list num :=
  let jan1 := UTC year 0 1 in
  let offset := getUTCDay jan1 in
  let boundaries :=
    foldl (λ set month,
             let monthStart := UTC year month 1 in
             let dayIndex := dayDiffUtc jan1 monthStart in
             let weekIndex := floorDiv7 (nadd offset dayIndex) in
             addToSet weekIndex set)
          [] (seqZ 1 11) in
  sortWith nsub boundaries.

Section Rounding.

(** The double nearest to a real number: the sum of two doubles is the
    exact sum, rounded. *)
Variable fl : Q → Q.

(** [n + 1]. *)
Definition plusOne (n : jsnum) : jsnum :=
  match n with
  | Finite q => Finite (fl (q + 1))
  | other => other
  end.

(** [entryToScale(entry)]. *)
Definition entryToScale (entry : option Entry) : jsnum :=
  match entry with
  | None => intNum 0
  | Some e =>
      if negb (isSick e) then intNum 1
      else min6 (max2 (plusOne (severityOrOne (severity e))))
  end.

(** The loop that makes the data points: [date] runs from the first day
    of the year, a day at a time, while it is before the first day of the
    next year.  [fuel] bounds the number of rounds. *)
Fixpoint dataPointsFrom (fuel : nat) (map : gmap string Entry)
    (nextYearStart date : Date) (dayCounter : Z) : list DataPoint :=
  match fuel with
  | O => []
  | S fuel' =>
      if nlt date nextYearStart then
        let key := toDateKey date in
        {| pointKey := key;
           pointScale := entryToScale (map !! key);
           pointDay := dayCounter |}
        :: dataPointsFrom fuel' map nextYearStart
             (setUTCDate date (nadd (getUTCDate date) (Some 1)))
             (dayCounter + 1)
      else []
  end.

Definition dataPoints (fuel : nat) (year : Z) (entries : list Entry)
  : list DataPoint :=
  dataPointsFrom fuel (entriesByKey entries) (UTC (year + 1) 0 1)
    (UTC year 0 1) 1.

End Rounding.

End Calendar.

Import Calendar.

(** ** The rest of the home page *)

(** The statistics above the heat map. *)
Definition healthyCount (entries : list Entry) : nat :=
  length (List.filter (λ e, negb (isSick e)) entries).

Definition sickCount (entries : list Entry) : nat :=
  length (List.filter (λ e, isSick e) entries).

Definition setFormDate (d : Date) (st : HomeState) : HomeState :=
  {| selectedYear := selectedYear st; yearsFromApi := yearsFromApi st;
     entries := entries st; busy := busy st; info := info st;
     error := error st; formDate := d; formIsSick := formIsSick st;
     formSeverity := formSeverity st;
     existingEntryNotice := existingEntryNotice st;
     updatePreview := updatePreview st |}.

Definition setIsSick (b : bool) (st : HomeState) : HomeState :=
  {| selectedYear := selectedYear st; yearsFromApi := yearsFromApi st;
     entries := entries st; busy := busy st; info := info st;
     error := error st; formDate := formDate st; formIsSick := b;
     formSeverity := formSeverity st;
     existingEntryNotice := existingEntryNotice st;
     updatePreview := updatePreview st |}.

Definition setSeverity (n : jsnum) (st : HomeState) : HomeState :=
  {| selectedYear := selectedYear st; yearsFromApi := yearsFromApi st;
     entries := entries st; busy := busy st; info := info st;
     error := error st; formDate := formDate st; formIsSick := formIsSick st;
     formSeverity := n;
     existingEntryNotice := existingEntryNotice st;
     updatePreview := updatePreview st |}.

Definition setExistingEntryNotice (e : option Entry) (st : HomeState) : HomeState :=
  {| selectedYear := selectedYear st; yearsFromApi := yearsFromApi st;
     entries := entries st; busy := busy st; info := info st;
     error := error st; formDate := formDate st; formIsSick := formIsSick st;
     formSeverity := formSeverity st;
     existingEntryNotice := e;
     updatePreview := updatePreview st |}.

Section LocalTime.

(** The offset of local time from UTC, in milliseconds, at a time value:
    the time zone of the browser. *)
Variable LocalTZA : Z → Z.

Definition LocalTime (t : Z) : Z := t + LocalTZA t.

Definition getFullYear (d : Date) : num := YearFromDay ∘ Day ∘ LocalTime <$> d.
Definition getMonth (d : Date) : num := MonthFromDay ∘ Day ∘ LocalTime <$> d.
Definition getDate (d : Date) : num := DateFromDay ∘ Day ∘ LocalTime <$> d.

Variable P : Platform.

(** [onSelectDate(date)]; [date] is a [Date] or [null]. *)
Definition onSelectDate (date : option Date) (st : HomeState) : HomeState :=
  match date with
  | None => st
  | Some date =>
      let normalized := UTCnum (getFullYear date) (getMonth date) (getDate date) in
      let st := setFormDate normalized st in
      if negb (bool_decide (getUTCFullYear normalized = Some (selectedYear st)))
      then setExistingEntryNotice None st
      else
        match entryMap P (entries st) (selectedYear st) !! toDateKey normalized with
        | Some existing =>
            setSeverity (severityOrOne (severity existing))
              (setIsSick (isSick existing)
                 (setExistingEntryNotice (Some existing) st))
        | None => setExistingEntryNotice None st
        end
  end.

(** [onHeatmapDayClick(date)]. *)
Definition onHeatmapDayClick (date : option Date) (st : HomeState) : HomeState :=
  onSelectDate date st.

End LocalTime.


(** ** More notions the properties are stated with *)

(** The week columns of a grid that are marked with a month break. *)
Definition markedColumns (g : Grid) : list Z :=
  map index (filter (λ w, monthBreakBefore w = true) (weeks g)).


(** Rounding to the nearest double keeps the order of the reals and
    leaves an integer that a double holds as it is. *)
Definition roundsToNearest (fl : Q → Q) : Prop :=
  (∀ p q, (p <= q)%Q → (fl p <= fl q)%Q)
  ∧ (∀ q z, (q == inject_Z z)%Q → Z.abs z <= 2 ^ 53 → (fl q == inject_Z z)%Q).

(** The data point the calendar heat map draws for a day cell of the grid,
    as the day of the given number. *)
Definition pointOfCell (fl : Q → Q) (i : nat) (c : DayCell) : DataPoint :=
  {| pointKey := cellDateKey c;
     pointScale := entryToScale fl (cellEntry c);
     pointDay := Z.of_nat i + 1 |}.


(** What [normalizeEntry] makes of a raw entry: the entry, or nothing. *)
Definition accepted (P : Platform) (raw : jsval) : option Entry :=
  match normalizeEntry P raw with
  | Normal r => r
  | Throw _ => None
  end.

(** A piece of code returns: it does not throw. *)
Definition returns {A} (c : completion A) : bool :=
  match c with
  | Normal _ => true
  | Throw _ => false
  end.

(** The records of a response [data]: the elements of [data.entries] if
    that is an array, none otherwise. *)
Definition responseRecords (data : jsval) : list jsval :=
  match rawProp data "entries" with
  | VArr items => items
  | _ => []
  end.

(** The entries [normalizeEntry] makes of the records of a response. *)
Definition acceptedEntries (P : Platform) (data : jsval) : list Entry :=
  omap (accepted P) (responseRecords data).

(** Every entry of the collection has a date that [new Date] converts, so
    that the comparator of the merge does not throw on it. *)
Definition datesConvert (P : Platform) (l : list Entry) : Prop :=
  Forall (λ e, returns (newDate P (date e)) = true) l.

(** The keys of a collection are canonical and no two entries share one. *)
Definition keyedByDay (l : list Entry) : Prop :=
  Forall (λ e, isValidDateKey (VStr (dateKey e)) = true) l
  ∧ NoDup (map dateKey l).

(** The day a click on a heat-map cell of day [d] selects: that day where
    local time is at or ahead of UTC, the day before where it is behind. *)
Definition pickedDay (LocalTZA : Z → Z) (d : Z) : Z :=
  if 0 <=? LocalTZA (d * msPerDay) then d else d - 1.

(** The entry the next save merges into the collection: the one
    [normalizeEntry] makes of the [entry] of the server's answer, if the
    save gets that far. *)
Definition savedEntry (P : Platform) (net : Network) : option Entry :=
  match saveEntrySettled P (nextReply net) with
  | Resolved response =>
      match getProp P response "entry" with
      | Normal raw => accepted P raw
      | Throw _ => None
      end
  | Rejected _ => None
  end.


(** ** The year selector of the home page *)

Module YearSelect.

(** An option of the selector. *)
Record YearOption := {
  value : jsval;
  label : string
}.

(** [SameValueZero], by which a [Set] tells its elements apart, on the
    values of a parsed JSON response and on numbers.  An object or array
    is the same as itself only, and no two elements of a parsed array are
    one object. *)
Definition sameNum (a b : jsnum) : bool :=
  match a, b with
  | NaN, NaN => true
  | Infinity s, Infinity s' => Bool.eqb s s'
  | Finite p, Finite q => Qeq_bool p q
  | _, _ => false
  end.

Definition sameValueZero (a b : jsval) : bool :=
  match a, b with
  | VUndefined, VUndefined | VNull, VNull => true
  | VBool x, VBool y => Bool.eqb x y
  | VNum x, VNum y => sameNum x y
  | VStr x, VStr y => String.eqb x y
  | _, _ => false
  end.

(** [set.add(x)], the set as the list of its elements in the order they
    were added. *)
Definition setAdd (x : jsval) (set : list jsval) : list jsval :=
  if existsb (sameValueZero x) set then set else set ++ [x].

(** [a - b] on numbers; the difference of two finite numbers is exact up
    to rounding, which keeps its sign. *)
Definition minus (a b : jsnum) : jsnum :=
  match a, b with
  | NaN, _ | _, NaN => NaN
  | Infinity s, Infinity s' => if Bool.eqb s s' then NaN else Infinity s
  | Infinity s, Finite _ => Infinity s
  | Finite _, Infinity s => Infinity (negb s)
  | Finite p, Finite q => Finite (p - q)
  end.

(** The sign of a number, which is all a sort looks at in the result of
    its comparator. *)
Definition signOf (n : jsnum) : num :=
  match n with
  | NaN => None
  | Infinity negative => Some (if negative then -1 else 1)
  | Finite q => Some (Z.sgn (Qnum q))
  end.

(** [Array.prototype.sort] with a comparator that may throw: the
    insertion sort of [sortWith], ended by the first comparison that
    throws.  Whatever the order in which an engine compares, it compares
    every element of an array of two or more. *)
Fixpoint insertDownThrowing {A} (after : A → A → completion bool) (x : A)
    (sortedRev : list A) : completion (list A) :=
  match sortedRev with
  | [] => Normal [x]
  | y :: rest =>
      bindC (after y x)
            (λ isAfter : bool,
               if isAfter then
                 others ← insertDownThrowing after x rest; Normal (y :: others)
               else Normal (x :: sortedRev))
  end.

Fixpoint insertAllThrowing {A} (after : A → A → completion bool)
    (l sortedRev : list A) : completion (list A) :=
  match l with
  | [] => Normal sortedRev
  | x :: rest =>
      sortedRev ← insertDownThrowing after x sortedRev;
      insertAllThrowing after rest sortedRev
  end.

Definition sortThrowing {A} (compare : A → A → completion num) (l : list A)
  : completion (list A) :=
  let after a b :=
    c ← compare a b;
    Normal (match c with Some c => 0 <? c | None => false end) in
  sortedRev ← insertAllThrowing after l [];
  Normal (rev sortedRev).

(** [array.map(f)] with a function that may throw. *)
Fixpoint mapThrowing {A B} (f : A → completion B) (l : list A)
  : completion (list B) :=
  match l with
  | [] => Normal []
  | x :: rest => y ← f x; others ← mapThrowing f rest; Normal (y :: others)
  end.

Definition isUndefined (v : jsval) : bool :=
  match v with
  | VUndefined => true
  | _ => false
  end.

Section WithPlatform.

Variable P : Platform.

(** The comparator [(a, b) => b - a], which converts [b], then [a], to a
    number. *)
Definition compareYears (a b : jsval) : completion num :=
  nb ← ToNumber P b; na ← ToNumber P a; Normal (signOf (minus nb na)).

(** [yearOptions], from the known years, the selected year and the
    current year.  The sort puts the elements that are [undefined] last
    without comparing them. *)
Definition yearOptions (yearsFromApi : list jsval) (selectedYear nowYear : Z)
  : completion (list YearOption) :=
  let set := foldl (λ set x, setAdd x set) [] yearsFromApi in
  let set := foldl (λ set year, setAdd (yearValue year) set) set
                   (seqZ (nowYear - 20) 31) in
  let set := setAdd (yearValue selectedYear) set in
  sorted ← sortThrowing compareYears
             (List.filter (λ v, negb (isUndefined v)) set);
  mapThrowing (λ year, label ← ToString P year;
                       Normal {| value := year; label := label |})
              (sorted ++ List.filter isUndefined set).

(** [item.value === selectedYear]. *)
Definition isYear (year : Z) (item : YearOption) : bool :=
  match value item with
  | VNum n => numIs n year
  | _ => false
  end.

(** [selectedYearOption]. *)
Definition selectedYearOption (yearsFromApi : list jsval)
    (selectedYear nowYear : Z) : completion YearOption :=
  options ← yearOptions yearsFromApi selectedYear nowYear;
  match List.find (isYear selectedYear) options with
  | Some item => Normal item
  | None =>
      label ← ToString P (yearValue selectedYear);
      Normal {| value := yearValue selectedYear; label := label |}
  end.

End WithPlatform.

(** The year a value stands for, if it is an integer. *)
Definition yearOf (v : jsval) : option Z :=
  match v with
  | VNum (Finite q) =>
      if Qeq_bool q (inject_Z (truncate q)) then Some (truncate q) else None
  | _ => None
  end.

(** The number and the string a value converts to, with [NaN] and the
    empty string where the conversion throws. *)
Definition numberOf (P : Platform) (v : jsval) : jsnum :=
  match ToNumber P v with
  | Normal n => n
  | Throw _ => NaN
  end.

Definition stringOf (P : Platform) (v : jsval) : string :=
  match ToString P v with
  | Normal s => s
  | Throw _ => ""
  end.

(** The set of years the selector is made from, before it is sorted, and
    the values of a set in the order of the options when no conversion
    throws: those that are not [undefined] by descending number, then
    those that are. *)
Definition yearSet (api : list jsval) (sel now : Z) : list jsval :=
  setAdd (yearValue sel)
    (foldl (λ set year, setAdd (yearValue year) set)
       (foldl (λ set x, setAdd x set) [] api)
       (seqZ (now - 20) 31)).

Definition orderedValues (P : Platform) (set : list jsval) : list jsval :=
  sortWith (λ a b, signOf (minus (numberOf P b) (numberOf P a)))
           (List.filter (λ v, negb (isUndefined v)) set)
  ++ List.filter isUndefined set.


(** The option of a value. *)
Definition optionOf (P : Platform) (v : jsval) : YearOption :=
  {| value := v; label := stringOf P v |}.

End YearSelect.


(** The date a click on a data point of the calendar heat map hands to
    [onDayClick]: [new Date(`${key}T00:00:00.000Z`)]. *)
Definition clickedDate (P : Platform) (point : DataPoint) : Date :=
  Date_parse P (pointKey point +:+ "T00:00:00.000Z").


(** ** More sample data *)

(** The first week column of a grid and the cell in a row of a column. *)
Definition firstWeek (g : Grid) : WeekColumn :=
  default {| index := 0; days := []; monthBreakBefore := false |} (head (weeks g)).

Definition cellInRow (w : WeekColumn) (d : nat) : DayCell :=
  default {| cellDate := None; cellDateKey := ""; cellEntry := None |}
          (mjoin (days w !! d)).



(** A network whose next answer is the given value. *)
Definition answering (value : jsval) : Network :=
  {| replies := [Response true (Some value)]; sent := [] |}.

(** Local time five hours behind UTC, and UTC itself. *)
Definition fiveHoursBehind (t : Z) : Z := -18000000.

(** Numbers that need no rounding. *)
Definition exact (q : Q) : Q := q.

Section DateArithmetic.

Lemma DayFromYear_succ y : DayFromYear (y + 1) = DayFromYear y + DaysInYear y.
Proof.
  unfold DayFromYear, DaysInYear, InLeapYear.
  destruct (y mod 4 =? 0) eqn:E4; destruct (y mod 100 =? 0) eqn:E100;
    destruct (y mod 400 =? 0) eqn:E400; cbn [andb orb negb];
    rewrite ?Z.eqb_eq, ?Z.eqb_neq in *;
    Z.div_mod_to_equations; lia.
Qed.

Lemma DaysInYear_bounds y : 365 <= DaysInYear y <= 366.
Proof. unfold DaysInYear. destruct (InLeapYear y); lia. Qed.

Lemma DayFromYear_lt y : DayFromYear y < DayFromYear (y + 1).
Proof. rewrite DayFromYear_succ. pose proof (DaysInYear_bounds y). lia. Qed.

Lemma YearFromDay_spec d :
  DayFromYear (YearFromDay d) <= d < DayFromYear (YearFromDay d + 1).
Proof.
  unfold YearFromDay.
  set (y := 1970 + 400 * d / 146097).
  destruct (d <? DayFromYear y) eqn:E1.
  - apply Z.ltb_lt in E1. replace (y - 1 + 1) with y by lia. split; [|lia].
    subst y. unfold DayFromYear in *. Z.div_mod_to_equations. lia.
  - apply Z.ltb_ge in E1.
    destruct (DayFromYear (y + 1) <=? d) eqn:E2.
    + apply Z.leb_le in E2. split; [lia|].
      subst y. unfold DayFromYear in *. Z.div_mod_to_equations. lia.
    + apply Z.leb_gt in E2. lia.
Qed.

End DateArithmetic.

(** ** Lists of consecutive integers *)

Lemma seqZ_7 m : seqZ m 7 = [m; m+1; m+2; m+3; m+4; m+5; m+6].
Proof. unfold seqZ. cbn. repeat (apply (f_equal2 cons); [lia|]). reflexivity. Qed.
Section Ranges.

Context {A : Type}.

Lemma concat_weeks (f : Z → A) (n : nat) :
  concat (map (λ w, map (λ d, f (w * 7 + d)) (seqZ 0 7)) (seqZ 0 (Z.of_nat n)))
  = map f (seqZ 0 (7 * Z.of_nat n)).
Proof.
  induction n as [|n IH]; [reflexivity|].
  rewrite Nat2Z.inj_succ, <- Z.add_1_r.
  rewrite seqZ_app by lia.
  replace (7 * (Z.of_nat n + 1)) with (7 * Z.of_nat n + 7) by lia.
  rewrite (seqZ_app 0 (7 * Z.of_nat n) 7) by lia.
  rewrite !map_app, concat_app, IH. f_equal.
  rewrite !seqZ_7. change (seqZ (0 + Z.of_nat n) 1) with [0 + Z.of_nat n].
  cbn [map concat app].
  repeat (apply (f_equal2 cons); [f_equal; lia|]). reflexivity.
Qed.

Lemma omap_seqZ_None (f : Z → option A) (m len : Z) :
  (∀ i, m <= i < m + len → f i = None) → omap f (seqZ m len) = [].
Proof.
  intros H. destruct (Z_le_gt_dec len 0) as [Hle|Hgt].
  { rewrite seqZ_nil by lia. reflexivity. }
  revert m H. rewrite <- (Z2Nat.id len) by lia.
  induction (Z.to_nat len) as [|n IH]; intros m H; [reflexivity|].
  rewrite Nat2Z.inj_succ, seqZ_cons by lia. cbn [omap list_omap].
  rewrite H by lia. rewrite Z.pred_succ. apply IH. intros i Hi. apply H. lia.
Qed.

Lemma omap_seqZ_Some (f : Z → option A) (g : Z → A) (m len : Z) :
  (∀ i, m <= i < m + len → f i = Some (g i)) →
  omap f (seqZ m len) = map g (seqZ m len).
Proof.
  intros H. destruct (Z_le_gt_dec len 0) as [Hle|Hgt].
  { rewrite seqZ_nil by lia. reflexivity. }
  revert m H. rewrite <- (Z2Nat.id len) by lia.
  induction (Z.to_nat len) as [|n IH]; intros m H; [reflexivity|].
  rewrite Nat2Z.inj_succ, seqZ_cons by lia. cbn [omap list_omap map].
  rewrite H by lia. rewrite Z.pred_succ. f_equal. apply IH.
  intros i Hi. apply H. lia.
Qed.

(** Cells that are days exactly on the window [lo, hi). *)
Lemma omap_window (f : Z → option A) (g : Z → A) (lo hi n : Z) :
  0 <= lo → lo <= hi → hi <= n →
  (∀ i, 0 <= i < n →
        f i = if (lo <=? i) && (i <? hi) then Some (g i) else None) →
  omap f (seqZ 0 n) = map g (seqZ lo (hi - lo)).
Proof.
  intros Hlo Hhi Hn H.
  replace n with (lo + ((hi - lo) + (n - hi))) by lia.
  rewrite seqZ_app by lia. rewrite seqZ_app by lia.
  rewrite !omap_app.
  rewrite (omap_seqZ_None f 0 lo), (omap_seqZ_None f (0 + lo + (hi - lo))).
  - rewrite app_nil_r. cbn [app]. apply omap_seqZ_Some.
    intros i Hi. rewrite H by lia.
    destruct (lo <=? i) eqn:E1; destruct (i <? hi) eqn:E2; try reflexivity; lia.
  - intros i Hi. rewrite H by lia.
    destruct (lo <=? i) eqn:E1; destruct (i <? hi) eqn:E2; try reflexivity; lia.
  - intros i Hi. rewrite H by lia.
    destruct (lo <=? i) eqn:E1; destruct (i <? hi) eqn:E2; try reflexivity; lia.
Qed.

End Ranges.

(** ** Calendar arithmetic *)

Lemma DayFromYear_mono y1 y2 : y1 <= y2 → DayFromYear y1 <= DayFromYear y2.
Proof. unfold DayFromYear. intros H. Z.div_mod_to_equations. lia. Qed.

Lemma DayFromYear_strict y1 y2 : y1 < y2 → DayFromYear y1 < DayFromYear y2.
Proof.
  intros H. pose proof (DayFromYear_lt y1).
  pose proof (DayFromYear_mono (y1 + 1) y2). lia.
Qed.

(** [YearFromDay] is the year whose days hold [d]. *)
Lemma YearFromDay_unique y d :
  DayFromYear y <= d < DayFromYear (y + 1) → YearFromDay d = y.
Proof.
  intros H. pose proof (YearFromDay_spec d) as S.
  destruct (Z.lt_trichotomy (YearFromDay d) y) as [Hlt|[Heq|Hgt]]; [|exact Heq|].
  - pose proof (DayFromYear_mono (YearFromDay d + 1) y). lia.
  - pose proof (DayFromYear_mono (y + 1) (YearFromDay d)). lia.
Qed.

Lemma Day_midnight d : Day (d * msPerDay) = d.
Proof. unfold Day, msPerDay. apply Z.div_mul. lia. Qed.

Lemma leapDays_bounds y : 0 <= leapDays y <= 1.
Proof. unfold leapDays. destruct (InLeapYear y); lia. Qed.

Lemma DaysInYear_leapDays y : DaysInYear y = 365 + leapDays y.
Proof. unfold DaysInYear, leapDays. destruct (InLeapYear y); reflexivity. Qed.

Ltac month_cases m H :=
  assert (m = 0 ∨ m = 1 ∨ m = 2 ∨ m = 3 ∨ m = 4 ∨ m = 5 ∨ m = 6 ∨ m = 7
          ∨ m = 8 ∨ m = 9 ∨ m = 10 ∨ m = 11) as H by lia;
  repeat (destruct H as [H|H]); subst m.

Lemma monthOfYearDay_start l m dt :
  0 <= l <= 1 → 0 <= m <= 11 →
  1 <= dt <= (match m with 1 => 28 + l | 3 | 5 | 8 | 10 => 30 | _ => 31 end) →
  monthOfYearDay l (monthStartDay l m + dt - 1) = m.
Proof.
  intros Hl Hm Hdt. unfold monthOfYearDay.
  month_cases m Hc; cbn [monthStartDay] in *;
    repeat (match goal with
            | |- context [?a <? ?b] => destruct (Z.ltb_spec a b); try lia
            end); reflexivity.
Qed.

(** The calendar fields of the day [MakeDay] builds from a date of the
    calendar are that date. *)
Lemma fields_of_MakeDay y m dt :
  0 <= m <= 11 → 1 <= dt <= daysInMonth y m →
  let d := MakeDay y m dt in
  YearFromDay d = y ∧ MonthFromDay d = m ∧ DateFromDay d = dt.
Proof.
  intros Hm Hdt d.
  pose proof (leapDays_bounds y) as Hl.
  assert (Hd : d = DayFromYear y + (monthStartDay (leapDays y) m + dt - 1)).
  { subst d. unfold MakeDay. rewrite Z.div_small, Z.mod_small by lia.
    rewrite Z.add_0_r. lia. }
  assert (Hr : 0 <= monthStartDay (leapDays y) m + dt - 1 < DaysInYear y).
  { rewrite DaysInYear_leapDays. unfold daysInMonth in Hdt.
    month_cases m Hc; cbn [monthStartDay] in *; lia. }
  assert (Hy : YearFromDay d = y).
  { apply YearFromDay_unique. rewrite DayFromYear_succ. lia. }
  assert (Hmo : MonthFromDay d = m).
  { unfold MonthFromDay, DayWithinYear. rewrite Hy, Hd.
    replace (DayFromYear y + (monthStartDay (leapDays y) m + dt - 1) - DayFromYear y)
      with (monthStartDay (leapDays y) m + dt - 1) by lia.
    apply monthOfYearDay_start; [lia|lia|]. exact Hdt. }
  split; [exact Hy|]. split; [exact Hmo|].
  unfold DateFromDay. rewrite Hmo. unfold DayWithinYear. rewrite Hy, Hd. lia.
Qed.

(** Every day of a year is a date of its calendar. *)
Lemma yearDay_is_date y k :
  0 <= k < DaysInYear y →
  ∃ m dt, 0 <= m <= 11 ∧ 1 <= dt <= daysInMonth y m
          ∧ DayFromYear y + k = MakeDay y m dt.
Proof.
  intros Hk. rewrite DaysInYear_leapDays in Hk.
  pose proof (leapDays_bounds y) as Hl.
  set (m := monthOfYearDay (leapDays y) k).
  exists m, (k - monthStartDay (leapDays y) m + 1).
  assert (Hm : 0 <= m <= 11 ∧ 1 <= k - monthStartDay (leapDays y) m + 1 <= daysInMonth y m).
  { subst m. unfold monthOfYearDay, daysInMonth.
    repeat (match goal with
            | |- context [?a <? ?b] => destruct (Z.ltb_spec a b)
            end; [cbn [monthStartDay]; lia|]).
    cbn [monthStartDay]. lia. }
  destruct Hm as [Hm Hdt]. split; [exact Hm|]. split; [exact Hdt|].
  unfold MakeDay. rewrite Z.div_small, Z.mod_small by lia.
  rewrite Z.add_0_r. lia.
Qed.
(** ** The grid of a year *)

Lemma MakeDay_year_start y k : MakeDay y 0 (1 + k) = DayFromYear y + k.
Proof.
  unfold MakeDay. cbv zeta. change (0 / 12) with 0. change (0 mod 12) with 0.
  cbn [monthStartDay]. rewrite !Z.add_0_r. lia.
Qed.

Lemma TimeClip_days d :
  -100000000 <= d <= 100000000 → TimeClip (d * msPerDay) = Some (d * msPerDay).
Proof.
  intros H. unfold TimeClip, maxTime, msPerDay.
  destruct (Z.leb_spec (Z.abs (d * 86400000)) 8640000000000000); [reflexivity|lia].
Qed.

Lemma literalYear_full y : literalYear y → MakeFullYear y = y.
Proof.
  intros H. unfold MakeFullYear.
  destruct (Z.leb_spec 0 y); destruct (Z.leb_spec y 99); cbn; try reflexivity.
  unfold literalYear in H. lia.
Qed.

Lemma literalYear_full_next y : literalYear y → MakeFullYear (y + 1) = y + 1.
Proof.
  intros H. unfold MakeFullYear.
  destruct (Z.leb_spec 0 (y + 1)); destruct (Z.leb_spec (y + 1) 99); cbn;
    try reflexivity.
  unfold literalYear in H. lia.
Qed.

Lemma literalYear_range y :
  literalYear y →
  -100000000 <= DayFromYear y ∧ DayFromYear (y + 1) <= 100000000.
Proof.
  unfold literalYear, DayFromYear. intros H. Z.div_mod_to_equations. lia.
Qed.

(** A day of a literal year, counted from its first day, as [Date.UTC]
    builds it. *)
Lemma UTC_yearDay y k :
  literalYear y → 0 <= k <= DaysInYear y →
  UTC y 0 (1 + k) = Some ((DayFromYear y + k) * msPerDay).
Proof.
  intros Hy Hk. unfold UTC. rewrite literalYear_full by exact Hy.
  rewrite MakeDay_year_start. apply TimeClip_days.
  pose proof (literalYear_range y Hy). pose proof (DayFromYear_succ y). lia.
Qed.

Lemma jan1_literal y :
  literalYear y → jan1 y = Some (DayFromYear y * msPerDay).
Proof.
  intros Hy. unfold jan1, startOfYearUtc.
  pose proof (DaysInYear_bounds y).
  change 1 with (1 + 0) at 1. rewrite UTC_yearDay by (auto; lia).
  do 2 f_equal. lia.
Qed.

Lemma nextJan1_literal y :
  literalYear y → nextJan1 y = Some (DayFromYear (y + 1) * msPerDay).
Proof.
  intros Hy. unfold nextJan1, startOfNextYearUtc, UTC.
  rewrite literalYear_full_next by exact Hy.
  change 1 with (1 + 0) at 2. rewrite MakeDay_year_start, Z.add_0_r.
  apply TimeClip_days.
  pose proof (literalYear_range y Hy). pose proof (DayFromYear_lt y). lia.
Qed.

Lemma totalDays_literal y : literalYear y → totalDays y = Some (DaysInYear y).
Proof.
  intros Hy. unfold totalDays, dayDiffUtc, getTime.
  rewrite jan1_literal, nextJan1_literal by exact Hy. cbn.
  f_equal. rewrite <- Z.mul_sub_distr_r, DayFromYear_succ.
  replace (DayFromYear y + DaysInYear y - DayFromYear y) with (DaysInYear y) by lia.
  apply Z.div_mul. unfold msPerDay. lia.
Qed.

Lemma offset_literal y :
  literalYear y → offset y = Some (WeekDay (DayFromYear y)).
Proof.
  intros Hy. unfold offset, getUTCDay. rewrite jan1_literal by exact Hy.
  cbn. rewrite Day_midnight. reflexivity.
Qed.

Lemma WeekDay_bounds d : 0 <= WeekDay d <= 6.
Proof. unfold WeekDay. pose proof (Z.mod_pos_bound (d + 4) 7). lia. Qed.

Lemma weekCount_literal y :
  literalYear y →
  weekCount y = Some (- (- (WeekDay (DayFromYear y) + DaysInYear y) / 7)).
Proof.
  intros Hy. unfold weekCount, totalCells.
  rewrite offset_literal, totalDays_literal by exact Hy. reflexivity.
Qed.

Lemma dayCell_literal y byKey i :
  literalYear y →
  dayCell y byKey i =
    let k := i - WeekDay (DayFromYear y) in
    if (WeekDay (DayFromYear y) <=? i) && (i <? WeekDay (DayFromYear y) + DaysInYear y)
    then Some (cellOfDay y byKey k) else None.
Proof.
  intros Hy. unfold dayCell. rewrite offset_literal, totalDays_literal by exact Hy.
  cbn. set (o := WeekDay (DayFromYear y)). set (t := DaysInYear y).
  destruct (Z.ltb_spec (i - o) 0); destruct (Z.leb_spec t (i - o));
    destruct (Z.leb_spec o i); destruct (Z.ltb_spec i (o + t)); cbn;
    try reflexivity; lia.
Qed.

(** All cells of the grid, as one list over the flat cell index. *)
Lemma cells_flat y entries :
  cells (buildYearGrid y entries) =
    match weekCount y with
    | Some n => map (dayCell y (entriesByKey entries)) (seqZ 0 (7 * n))
    | None => []
    end.
Proof.
  unfold cells, buildYearGrid, weekColumns. cbn [weeks].
  destruct (weekCount y) as [n|]; [|reflexivity].
  rewrite map_map. cbn [days].
  destruct (Z_le_gt_dec n 0) as [Hle|Hgt].
  { rewrite (seqZ_nil 0 n), (seqZ_nil 0 (7 * n)) by lia. reflexivity. }
  rewrite <- (Z2Nat.id n) by lia. apply concat_weeks.
Qed.

Lemma omap_id_map {A B} (f : A → option B) (l : list A) :
  omap (λ c, c) (map f l) = omap f l.
Proof. induction l as [|a l IH]; [reflexivity|]. cbn. rewrite IH. reflexivity. Qed.

(** The day cells of a literal year are its days, in order. *)
Lemma dayCells_literal y entries :
  literalYear y →
  dayCells (buildYearGrid y entries) =
    map (cellOfDay y (entriesByKey entries)) (seqZ 0 (DaysInYear y)).
Proof.
  intros Hy. unfold dayCells. rewrite cells_flat, weekCount_literal by exact Hy.
  pose proof (WeekDay_bounds (DayFromYear y)) as Ho.
  pose proof (DaysInYear_bounds y) as Ht.
  set (o := WeekDay (DayFromYear y)) in *. set (t := DaysInYear y) in *.
  rewrite omap_id_map.
  rewrite (omap_window _ (λ i, cellOfDay y (entriesByKey entries) (i - o)) o (o + t)).
  - replace (o + t - o) with t by lia.
    replace (seqZ o t) with (seqZ (o + 0) t) by (f_equal; lia).
    rewrite <- fmap_add_seqZ.
    change (map ?f (?g <$> ?l)) with (map f (map g l)). rewrite map_map.
    apply map_ext. intros a. f_equal. lia.
  - lia.
  - lia.
  - Z.div_mod_to_equations. lia.
  - intros i Hi. rewrite dayCell_literal by exact Hy. reflexivity.
Qed.


(** ** Keys of calendar days *)

Lemma WeekDay_jan1 y : WeekDay (DayFromYear y) = jan1Weekday y.
Proof.
  unfold WeekDay, DayFromYear, jan1Weekday. Z.div_mod_to_equations. lia.
Qed.

Lemma append_inv_head (s a b : string) : s +:+ a = s +:+ b → a = b.
Proof. induction s as [|c s IH]; cbn; [auto|]. intros [= H]. auto. Qed.

Lemma digitValue_digitChar n : 0 <= n <= 9 → digitValue (digitChar n) = n.
Proof.
  intros H.
  assert (n = 0 ∨ n = 1 ∨ n = 2 ∨ n = 3 ∨ n = 4 ∨ n = 5 ∨ n = 6 ∨ n = 7
          ∨ n = 8 ∨ n = 9) as Hc by lia.
  repeat (destruct Hc as [Hc|Hc]); subst n; reflexivity.
Qed.

Lemma padStart2_small n :
  0 <= n <= 99 →
  padStart2 (intToString n)
  = String (digitChar (n / 10)) (String (digitChar (n mod 10)) "").
Proof.
  intros H. rewrite <- (Z2Nat.id n) by lia.
  assert (Z.to_nat n < 100)%nat as Hk by lia.
  revert Hk. generalize (Z.to_nat n). intros k Hk.
  do 100 (destruct k as [|k]; [vm_compute; reflexivity|]). lia.
Qed.

Lemma padStart2_inj a b (r1 r2 : string) :
  0 <= a <= 99 → 0 <= b <= 99 →
  padStart2 (intToString a) +:+ r1 = padStart2 (intToString b) +:+ r2 →
  a = b ∧ r1 = r2.
Proof.
  intros Ha Hb. rewrite !padStart2_small by lia. cbn. intros [= H1 H2 H3].
  apply (f_equal digitValue) in H1, H2.
  rewrite !digitValue_digitChar in H1, H2 by (Z.div_mod_to_equations; lia).
  split; [|exact H3]. Z.div_mod_to_equations. lia.
Qed.

Lemma dayKey_inj y m dt m' dt' :
  0 <= m <= 11 → 1 <= dt <= 31 → 0 <= m' <= 11 → 1 <= dt' <= 31 →
  dayKey y m dt = dayKey y m' dt' → m = m' ∧ dt = dt'.
Proof.
  intros Hm Hdt Hm' Hdt'. unfold dayKey. intros H.
  apply append_inv_head in H. apply append_inv_head in H.
  apply padStart2_inj in H as [H1 H2]; [|lia|lia].
  apply append_inv_head in H2.
  rewrite !padStart2_small in H2 by lia. injection H2 as H2 H3.
  apply (f_equal digitValue) in H2, H3.
  rewrite !digitValue_digitChar in H2, H3 by (Z.div_mod_to_equations; lia).
  split; [lia|]. Z.div_mod_to_equations. lia.
Qed.

Lemma daysInMonth_bounds y m : 28 <= daysInMonth y m <= 31.
Proof.
  pose proof (leapDays_bounds y). unfold daysInMonth.
  destruct m as [|p|p]; try lia.
  do 4 (destruct p as [p|p|]; try lia).
Qed.

(** The key of a day of a literal year is the key of its date. *)
Lemma toDateKey_date y m dt :
  literalYear y → 0 <= m <= 11 → 1 <= dt <= daysInMonth y m →
  toDateKey (Some (MakeDay y m dt * msPerDay)) = dayKey y m dt.
Proof.
  intros Hy Hm Hdt. unfold toDateKey, getUTCFullYear, getUTCMonth, getUTCDate.
  cbn. rewrite Day_midnight.
  destruct (fields_of_MakeDay y m dt Hm Hdt) as (-> & -> & ->). reflexivity.
Qed.

Lemma cellOfDay_date y byKey m dt :
  literalYear y → 0 <= m <= 11 → 1 <= dt <= daysInMonth y m →
  let k := MakeDay y m dt - DayFromYear y in
  0 <= k < DaysInYear y ∧ cellDateKey (cellOfDay y byKey k) = dayKey y m dt.
Proof.
  intros Hy Hm Hdt k.
  assert (Hk : 0 <= k < DaysInYear y).
  { subst k. unfold MakeDay. rewrite Z.div_small, Z.mod_small by lia.
    rewrite Z.add_0_r. rewrite DaysInYear_leapDays.
    pose proof (leapDays_bounds y). unfold daysInMonth in Hdt.
    month_cases m Hc; cbn [monthStartDay] in *; lia. }
  split; [exact Hk|].
  unfold cellOfDay. cbn [cellDateKey]. rewrite UTC_yearDay by (auto; lia).
  replace (DayFromYear y + k) with (MakeDay y m dt) by (subst k; lia).
  apply toDateKey_date; assumption.
Qed.

Lemma cellOfDay_key_inj y byKey k k' :
  literalYear y → 0 <= k < DaysInYear y → 0 <= k' < DaysInYear y →
  cellDateKey (cellOfDay y byKey k) = cellDateKey (cellOfDay y byKey k') →
  k = k'.
Proof.
  intros Hy Hk Hk' H.
  destruct (yearDay_is_date y k Hk) as (m & dt & Hm & Hdt & E).
  destruct (yearDay_is_date y k' Hk') as (m' & dt' & Hm' & Hdt' & E').
  pose proof (cellOfDay_date y byKey m dt Hy Hm Hdt) as [_ K].
  pose proof (cellOfDay_date y byKey m' dt' Hy Hm' Hdt') as [_ K'].
  replace (MakeDay y m dt - DayFromYear y) with k in K by lia.
  replace (MakeDay y m' dt' - DayFromYear y) with k' in K' by lia.
  rewrite K, K' in H.
  pose proof (daysInMonth_bounds y m). pose proof (daysInMonth_bounds y m').
  apply dayKey_inj in H as [-> ->]; lia.
Qed.
Lemma filter_map_omap {A B} (P : B → Prop) `{∀ x, Decision (P x)}
    (f : A → B) (l : list A) :
  filter P (map f l) = omap (λ a, if decide (P (f a)) then Some (f a) else None) l.
Proof.
  induction l as [|a l IH]; [reflexivity|]. cbn [map omap list_omap].
  rewrite filter_cons. destruct (decide (P (f a))); rewrite IH; reflexivity.
Qed.

Lemma entriesByKey_single e k :
  entriesByKey [e] !! k = if decide (dateKey e = k) then Some e else None.
Proof.
  unfold entriesByKey. cbn [foldl]. rewrite lookup_insert.
  destruct (decide (dateKey e = k)); [reflexivity|apply lookup_empty].
Qed.

Lemma leadingEmpty_literal y entries :
  literalYear y →
  leadingEmpty (buildYearGrid y entries) = WeekDay (DayFromYear y).
Proof.
  intros Hy. unfold leadingEmpty, buildYearGrid, weekColumns. cbn [weeks].
  rewrite weekCount_literal by exact Hy.
  pose proof (WeekDay_bounds (DayFromYear y)) as Ho.
  pose proof (DaysInYear_bounds y) as Ht.
  set (o := WeekDay (DayFromYear y)) in *. set (t := DaysInYear y) in *.
  rewrite (seqZ_cons 0 (- (- (o + t) / 7))) by (Z.div_mod_to_equations; lia).
  cbn [map days]. rewrite seqZ_7. cbn [map].
  rewrite !(dayCell_literal y _ _ Hy). fold o t. cbv zeta.
  assert (o = 0 ∨ o = 1 ∨ o = 2 ∨ o = 3 ∨ o = 4 ∨ o = 5 ∨ o = 6) as Hc by lia.
  repeat (destruct Hc as [Hc|Hc]); rewrite Hc;
    repeat (match goal with
            | |- context [?a <? ?b + t] =>
                destruct (Z.ltb_spec a (b + t)); [|lia]
            end); reflexivity.
Qed.

(** Within a literal year, the only cell that holds an entry is the cell
    of the entry's day. *)
Lemma occupied_single y e m dt :
  literalYear y → 0 <= m <= 11 → 1 <= dt <= daysInMonth y m →
  dateKey e = dayKey y m dt →
  occupiedCells (buildYearGrid y [e])
  = [cellOfDay y (entriesByKey [e]) (MakeDay y m dt - DayFromYear y)].
Proof.
  intros Hy Hm Hdt He. unfold occupiedCells.
  rewrite dayCells_literal by exact Hy.
  set (byKey := entriesByKey [e]).
  destruct (cellOfDay_date y byKey m dt Hy Hm Hdt) as [Hk Hkey].
  set (k0 := MakeDay y m dt - DayFromYear y) in *.
  rewrite filter_map_omap.
  rewrite (omap_window _ (cellOfDay y byKey) k0 (k0 + 1)); try lia.
  - replace (k0 + 1 - k0) with 1 by lia. reflexivity.
  - intros i Hi.
    destruct (Z.leb_spec k0 i); destruct (Z.ltb_spec i (k0 + 1)); cbn [andb].
    + replace i with k0 by lia.
      destruct (decide _) as [|n]; [reflexivity|]. exfalso. apply n.
      unfold cellOfDay at 1. cbn [cellEntry]. fold (cellDateKey (cellOfDay y byKey k0)).
      change (toDateKey (UTC y 0 (1 + k0))) with (cellDateKey (cellOfDay y byKey k0)).
      rewrite Hkey. subst byKey. rewrite entriesByKey_single.
      rewrite decide_True by exact He. eexists; reflexivity.
    + destruct (decide _) as [s|]; [|reflexivity]. exfalso.
      unfold cellOfDay in s. cbn [cellEntry] in s.
      change (toDateKey (UTC y 0 (1 + i))) with (cellDateKey (cellOfDay y byKey i)) in s.
      subst byKey. rewrite entriesByKey_single in s.
      destruct (decide _) as [E|]; [|destruct s; discriminate].
      rewrite He, <- Hkey in E.
      apply (cellOfDay_key_inj y _ k0 i Hy) in E; lia.
    + destruct (decide _) as [s|]; [|reflexivity]. exfalso.
      unfold cellOfDay in s. cbn [cellEntry] in s.
      change (toDateKey (UTC y 0 (1 + i))) with (cellDateKey (cellOfDay y byKey i)) in s.
      subst byKey. rewrite entriesByKey_single in s.
      destruct (decide _) as [E|]; [|destruct s; discriminate].
      rewrite He, <- Hkey in E.
      apply (cellOfDay_key_inj y _ k0 i Hy) in E; lia.
    + lia.
Qed.

(** ** Month labels *)

Lemma TimeClip_Some t t' : TimeClip t = Some t' → t' = t ∧ Z.abs t <= maxTime.
Proof.
  unfold TimeClip. destruct (Z.leb_spec (Z.abs t) maxTime); [|discriminate].
  intros [= <-]. auto.
Qed.

Lemma MakeDay_month_start y m :
  0 <= m <= 11 → MakeDay y m 1 = DayFromYear y + monthStartDay (leapDays y) m.
Proof.
  intros Hm. unfold MakeDay. cbv zeta.
  rewrite Z.div_small, Z.mod_small by lia. rewrite Z.add_0_r. lia.
Qed.

Lemma dayDiff_days a b :
  dayDiffUtc (Some (a * msPerDay)) (Some (b * msPerDay)) = Some (b - a).
Proof.
  unfold dayDiffUtc, getTime. cbn. f_equal.
  rewrite <- Z.mul_sub_distr_r. apply Z.div_mul. unfold msPerDay. lia.
Qed.

Section AnyYear.

Variable y : Z.

Let D0 := DayFromYear (MakeFullYear y).
Let D1 := DayFromYear (MakeFullYear (y + 1)).
Let l := leapDays (MakeFullYear y).
Let o := WeekDay D0.

Lemma jan1_any : jan1 y = TimeClip (D0 * msPerDay).
Proof.
  unfold jan1, startOfYearUtc, UTC. rewrite MakeDay_month_start by lia.
  cbn [monthStartDay]. rewrite Z.add_0_r. reflexivity.
Qed.

Lemma nextJan1_any : nextJan1 y = TimeClip (D1 * msPerDay).
Proof.
  unfold nextJan1, startOfNextYearUtc, UTC. rewrite MakeDay_month_start by lia.
  cbn [monthStartDay]. rewrite Z.add_0_r. reflexivity.
Qed.

Lemma monthStart_any m :
  0 <= m <= 11 →
  UTC y m 1 = TimeClip ((D0 + monthStartDay l m) * msPerDay).
Proof. intros Hm. unfold UTC. rewrite MakeDay_month_start by lia. reflexivity. Qed.

(** Whenever a month's start week is a number, it is the week of the
    month's first day. *)
Lemma monthStartWeek_Some m s :
  0 <= m <= 11 → monthStartWeek y m = Some s →
  s = (o + monthStartDay l m) / 7.
Proof.
  intros Hm. unfold monthStartWeek, offset, getUTCDay.
  rewrite jan1_any, monthStart_any by lia.
  destruct (TimeClip (D0 * msPerDay)) as [t0|] eqn:E0; [|discriminate].
  destruct (TimeClip ((D0 + monthStartDay l m) * msPerDay)) as [t1|] eqn:E1;
    [|discriminate].
  apply TimeClip_Some in E0 as [-> _]. apply TimeClip_Some in E1 as [-> _].
  rewrite dayDiff_days. cbn. rewrite Day_midnight. intros [= <-].
  f_equal. subst o. lia.
Qed.

Lemma monthEndWeek_Some m e :
  0 <= m < 11 → monthEndWeek y m = Some e →
  e = - (- (o + monthStartDay l (m + 1)) / 7).
Proof.
  intros Hm. unfold monthEndWeek, offset, getUTCDay.
  destruct (Z.eqb_spec m 11); [lia|].
  rewrite jan1_any, monthStart_any by lia.
  destruct (TimeClip (D0 * msPerDay)) as [t0|] eqn:E0; [|discriminate].
  destruct (TimeClip ((D0 + monthStartDay l (m + 1)) * msPerDay)) as [t1|] eqn:E1;
    [|discriminate].
  apply TimeClip_Some in E0 as [-> _]. apply TimeClip_Some in E1 as [-> _].
  rewrite dayDiff_days. cbn. rewrite Day_midnight. intros [= <-].
  do 3 f_equal. subst o. lia.
Qed.

End AnyYear.

Lemma monthLayout_lookup y entries (i : nat) ml :
  monthLayout (buildYearGrid y entries) !! i = Some ml →
  (i < 12)%nat
  ∧ startWeek ml = monthStartWeek y (Z.of_nat i)
  ∧ spanWeeks ml
    = max1 (nsub (monthEndWeek y (Z.of_nat i)) (monthStartWeek y (Z.of_nat i))).
Proof.
  cbn [buildYearGrid monthLayout]. unfold monthLayoutData.
  change (map ?f ?l) with (f <$> l). rewrite list_lookup_fmap.
  destruct (seqZ 0 12 !! i) as [m|] eqn:E; [|discriminate].
  apply lookup_seqZ in E as [-> Hi]. cbn. intros [= <-]. cbn.
  split; [lia|]. split; reflexivity.
Qed.

Lemma TimeClip_Some_days d t :
  TimeClip (d * msPerDay) = Some t →
  t = d * msPerDay ∧ -100000000 <= d <= 100000000.
Proof.
  intros H. apply TimeClip_Some in H as [-> H]. split; [reflexivity|].
  unfold maxTime, msPerDay in H. lia.
Qed.

(** The full years of [y] and [y + 1] differ, by one or by the jump
    between 1900-1999 and the years around 0-99. *)
Lemma fullYear_gap y :
  DayFromYear (MakeFullYear (y + 1)) - DayFromYear (MakeFullYear y) >= 365
  ∨ DayFromYear (MakeFullYear (y + 1)) - DayFromYear (MakeFullYear y) <= -365.
Proof.
  assert (MakeFullYear y < MakeFullYear (y + 1)
          ∨ MakeFullYear (y + 1) < MakeFullYear y) as [H|H].
  { unfold MakeFullYear.
    destruct (Z.leb_spec 0 y); destruct (Z.leb_spec y 99);
      destruct (Z.leb_spec 0 (y + 1)); destruct (Z.leb_spec (y + 1) 99);
      cbn [andb]; lia. }
  - left. pose proof (DayFromYear_mono (MakeFullYear y + 1) (MakeFullYear (y + 1))).
    pose proof (DayFromYear_succ (MakeFullYear y)).
    pose proof (DaysInYear_bounds (MakeFullYear y)). lia.
  - right.
    pose proof (DayFromYear_mono (MakeFullYear (y + 1) + 1) (MakeFullYear y)).
    pose proof (DayFromYear_succ (MakeFullYear (y + 1))).
    pose proof (DaysInYear_bounds (MakeFullYear (y + 1))). lia.
Qed.

(** What a grid with at least one week column tells about its year. *)
Lemma weekCount_Some y n :
  weekCount y = Some n → 0 < n →
  let D0 := DayFromYear (MakeFullYear y) in
  let D1 := DayFromYear (MakeFullYear (y + 1)) in
  -100000000 <= D0 ∧ D0 + 365 <= D1 ∧ D1 <= 100000000
  ∧ jan1 y = Some (D0 * msPerDay)
  ∧ offset y = Some (WeekDay D0)
  ∧ totalDays y = Some (D1 - D0)
  ∧ n = - (- (WeekDay D0 + (D1 - D0)) / 7).
Proof.
  intros Hn Hpos D0 D1. unfold weekCount, totalCells, offset, totalDays, getUTCDay in *.
  rewrite jan1_any, nextJan1_any in *. fold D0 D1 in Hn |- *.
  destruct (TimeClip (D0 * msPerDay)) as [t0|] eqn:E0; [|discriminate].
  destruct (TimeClip (D1 * msPerDay)) as [t1|] eqn:E1; [|discriminate].
  apply TimeClip_Some_days in E0 as [-> B0].
  apply TimeClip_Some_days in E1 as [-> B1].
  rewrite (dayDiff_days D0 D1) in Hn |- *. cbn in Hn |- *.
  rewrite (Day_midnight D0) in Hn |- *. injection Hn as <-.
  pose proof (WeekDay_bounds D0).
  assert (D0 + 365 <= D1).
  { destruct (fullYear_gap y) as [G|G]; fold D0 D1 in G; [lia|].
    exfalso. revert Hpos. Z.div_mod_to_equations. lia. }
  repeat split; try lia; reflexivity.
Qed.

Lemma monthStartDay_bounds l m : 0 <= l <= 1 → 0 <= m <= 11 →
  0 <= monthStartDay l m <= 335.
Proof. intros Hl Hm. month_cases m Hc; cbn [monthStartDay]; lia. Qed.

Lemma monthStartWeek_valid y n m :
  weekCount y = Some n → 0 < n → 0 <= m <= 11 →
  monthStartWeek y m
  = Some ((WeekDay (DayFromYear (MakeFullYear y))
           + monthStartDay (leapDays (MakeFullYear y)) m) / 7).
Proof.
  intros Hn Hpos Hm.
  destruct (weekCount_Some y n Hn Hpos) as (B0 & B1 & B2 & J & O & _).
  unfold monthStartWeek. rewrite O, J, monthStart_any by lia.
  pose proof (monthStartDay_bounds (leapDays (MakeFullYear y)) m
                (leapDays_bounds _) Hm).
  rewrite TimeClip_days by lia. rewrite dayDiff_days. cbn.
  do 2 f_equal. lia.
Qed.

Lemma monthEndWeek_valid y n m :
  weekCount y = Some n → 0 < n → 0 <= m <= 11 →
  monthEndWeek y m
  = Some (if m =? 11 then n
          else - (- (WeekDay (DayFromYear (MakeFullYear y))
                     + monthStartDay (leapDays (MakeFullYear y)) (m + 1)) / 7)).
Proof.
  intros Hn Hpos Hm.
  destruct (weekCount_Some y n Hn Hpos) as (B0 & B1 & B2 & J & O & T & N).
  unfold monthEndWeek. destruct (Z.eqb_spec m 11) as [->|Hne].
  - fold (totalDays y). rewrite O, T. cbn. f_equal. lia.
  - rewrite O, J, monthStart_any by lia.
    pose proof (monthStartDay_bounds (leapDays (MakeFullYear y)) (m + 1)
                  (leapDays_bounds _) ltac:(lia)).
    rewrite TimeClip_days by lia. rewrite dayDiff_days. cbn.
    do 3 f_equal. lia.
Qed.

Lemma weeks_index y entries w :
  w ∈ weeks (buildYearGrid y entries) →
  ∃ n, weekCount y = Some n ∧ 0 <= index w < n.
Proof.
  cbn [buildYearGrid weeks]. unfold weekColumns.
  destruct (weekCount y) as [n|]; [|intros H; inversion H].
  change (map ?f ?l) with (f <$> l). intros H.
  apply list_elem_of_fmap in H as (i & -> & Hi).
  apply elem_of_seqZ in Hi. exists n. cbn [index]. split; [reflexivity|lia].
Qed.

Ltac cover_here m :=
  exists m; split; [lia|]; cbv zeta;
  match goal with
  | |- context [if ?c then _ else _] =>
      let v := eval vm_compute in c in change c with v; cbv iota
  end;
  try match goal with
  | |- context [monthStartDay _ (?a + 1)] =>
      let v := eval vm_compute in (a + 1) in change (a + 1) with v
  end;
  cbn [monthStartDay] in *; Z.div_mod_to_equations; lia.

(** Some month's span holds any given week column of the grid. *)
Lemma covering_month o l t n w :
  0 <= o <= 6 → 0 <= l <= 1 → 365 <= t →
  n = - (- (o + t) / 7) → 0 <= w < n →
  ∃ m, 0 <= m <= 11 ∧
       let s := (o + monthStartDay l m) / 7 in
       let e := if m =? 11 then n
                else - (- (o + monthStartDay l (m + 1)) / 7) in
       s <= w < s + Z.max 1 (e - s).
Proof.
  intros Ho Hl Ht Hn Hw.
  assert (H0 : (o + monthStartDay l 0) / 7 <= w).
  { cbn [monthStartDay]. Z.div_mod_to_equations. lia. }
  destruct (Z_lt_le_dec w ((o + monthStartDay l 1) / 7)) as [L|G1].
  { cover_here 0. }
  clear H0.
  destruct (Z_lt_le_dec w ((o + monthStartDay l 2) / 7)) as [L|G2].
  { cover_here 1. }
  clear G1.
  destruct (Z_lt_le_dec w ((o + monthStartDay l 3) / 7)) as [L|G3].
  { cover_here 2. }
  clear G2.
  destruct (Z_lt_le_dec w ((o + monthStartDay l 4) / 7)) as [L|G4].
  { cover_here 3. }
  clear G3.
  destruct (Z_lt_le_dec w ((o + monthStartDay l 5) / 7)) as [L|G5].
  { cover_here 4. }
  clear G4.
  destruct (Z_lt_le_dec w ((o + monthStartDay l 6) / 7)) as [L|G6].
  { cover_here 5. }
  clear G5.
  destruct (Z_lt_le_dec w ((o + monthStartDay l 7) / 7)) as [L|G7].
  { cover_here 6. }
  clear G6.
  destruct (Z_lt_le_dec w ((o + monthStartDay l 8) / 7)) as [L|G8].
  { cover_here 7. }
  clear G7.
  destruct (Z_lt_le_dec w ((o + monthStartDay l 9) / 7)) as [L|G9].
  { cover_here 8. }
  clear G8.
  destruct (Z_lt_le_dec w ((o + monthStartDay l 10) / 7)) as [L|G10].
  { cover_here 9. }
  clear G9.
  destruct (Z_lt_le_dec w ((o + monthStartDay l 11) / 7)) as [L|G11].
  { cover_here 10. }
  clear G10. cover_here 11.
Qed.



(** ** Sorting *)

Section Sorting.

Context {A : Type}.

Lemma insertDown_perm (after : A → A → bool) x l :
  insertDown after x l ≡ₚ x :: l.
Proof.
  induction l as [|y l IH]; cbn [insertDown]; [reflexivity|].
  destruct (after y x); [|reflexivity].
  rewrite IH. apply perm_swap.
Qed.

Lemma foldl_insertDown_perm (after : A → A → bool) l acc :
  foldl (λ sortedRev x, insertDown after x sortedRev) acc l ≡ₚ l ++ acc.
Proof.
  revert acc. induction l as [|x l IH]; intros acc; cbn [foldl]; [reflexivity|].
  rewrite IH, insertDown_perm. cbn. symmetry. apply Permutation_middle.
Qed.

Lemma sortWith_perm (compare : A → A → num) l : sortWith compare l ≡ₚ l.
Proof.
  unfold sortWith. rewrite <- Permutation_rev, foldl_insertDown_perm.
  rewrite app_nil_r. reflexivity.
Qed.

Variable key : A → Z.

Lemma insertDown_sorted (after : A → A → bool) x l :
  (∀ a b, after a b = (key b <? key a)) →
  StronglySorted (λ a b, key b <= key a) l →
  StronglySorted (λ a b, key b <= key a) (insertDown after x l).
Proof.
  intros Hafter. induction l as [|y l IH]; intros Hs; cbn [insertDown].
  - repeat constructor.
  - apply StronglySorted_inv in Hs as [Hs Hy].
    rewrite Hafter. destruct (Z.ltb_spec (key x) (key y)).
    + constructor; [auto|].
      rewrite insertDown_perm. constructor; [lia|exact Hy].
    + constructor; [constructor; assumption|].
      constructor; [lia|]. eapply Forall_impl; [exact Hy|].
      cbn. intros. lia.
Qed.

Lemma foldl_insertDown_sorted (after : A → A → bool) l acc :
  (∀ a b, after a b = (key b <? key a)) →
  StronglySorted (λ a b, key b <= key a) acc →
  StronglySorted (λ a b, key b <= key a)
    (foldl (λ sortedRev x, insertDown after x sortedRev) acc l).
Proof.
  intros Hafter. revert acc. induction l as [|x l IH]; intros acc Hs; cbn [foldl];
    [exact Hs|].
  apply IH. apply insertDown_sorted; assumption.
Qed.

Lemma StronglySorted_rev_key l :
  StronglySorted (λ a b, key b <= key a) l →
  StronglySorted (λ a b, key a <= key b) (rev l).
Proof.
  induction 1 as [|a l Hs IH Ha]; cbn [rev]; [constructor|].
  apply StronglySorted_app. split; [|split; [exact IH|repeat constructor]].
  intros x1 x2 Hx1 Hx2. apply list_elem_of_singleton in Hx2 as ->.
  rewrite Forall_forall in Ha. apply Ha.
  apply list_elem_of_In in Hx1. apply in_rev in Hx1.
  apply list_elem_of_In. exact Hx1.
Qed.


End Sorting.

(** ** Entry normalisation *)

Section Normalize.

Variable P : Platform.

Lemma getProp_object raw k :
  isObject raw = true → getProp P raw k = Normal (rawProp raw k).
Proof. destruct raw; cbn; try discriminate; reflexivity. Qed.

Lemma normalizeEntry_not_object raw :
  isObject raw = false → normalizeEntry P raw = Normal None.
Proof.
  unfold isObject, normalizeEntry. intros H.
  destruct (truthy raw), (typeofObject raw); cbn in *; try discriminate; reflexivity.
Qed.

(** On an object, [normalizeEntry] builds the entry from the derived date
    key, the boolean [isSick] and the converted severity, gives [null]
    without a key or a boolean, and throws when a conversion throws. *)
Lemma normalizeEntry_object raw :
  isObject raw = true →
  normalizeEntry P raw =
    key ← derivedDateKey P raw;
    match key, rawProp raw "isSick" with
    | Some key, VBool sick =>
        severity ← convertedSeverity P raw sick;
        Normal (Some
          {| entryId := if truthy (rawProp raw "id") then rawProp raw "id"
                        else if truthy (rawProp raw "_id") then rawProp raw "_id"
                        else VNull;
             date := rawProp raw "date";
             dateKey := key;
             isSick := sick;
             severity := severity |})
    | _, _ => Normal None
    end.
Proof.
  intros H. unfold normalizeEntry.
  assert (Hg : negb (truthy raw) || negb (typeofObject raw) = false).
  { unfold isObject in H. destruct (truthy raw), (typeofObject raw); cbn in *; congruence. }
  rewrite Hg. rewrite !(getProp_object raw _ H). cbn [mbind completion_bind bindC].
  unfold derivedDateKey, keyFromDate, convertedSeverity, isValidDateKey.
  destruct (rawProp raw "dateKey") as [| |?|?|s|?|?]; cbn [negb andb];
    try destruct (matchesDateKey s) eqn:Es; cbn [negb andb];
    destruct (truthy (rawProp raw "date"));
    cbn [negb andb mbind completion_bind bindC];
    try (destruct (newDate P (rawProp raw "date")) as [[t|]|thrown] eqn:En;
         cbn [mbind completion_bind bindC getTime]);
    try destruct (matchesDateKey (toDateKey (Some t))) eqn:Et;
    destruct (rawProp raw "isSick") as [| |sick|?|?|?|?]; cbn [negb];
    rewrite ?Es, ?Et; cbn [negb]; try reflexivity.
Qed.

(** The key of an accepted entry has the canonical shape, so every key of
    a collection that came through [normalizeEntry] falls in some year. *)
Lemma normalizeEntry_key_shape raw e :
  normalizeEntry P raw = Normal (Some e) → matchesDateKey (dateKey e) = true.
Proof.
  intros H. destruct (isObject raw) eqn:Ho;
    [|rewrite (normalizeEntry_not_object raw Ho) in H; discriminate].
  rewrite (normalizeEntry_object raw Ho) in H.
  destruct (derivedDateKey P raw) as [[key|]|thrown] eqn:Hk; try discriminate.
  cbn [mbind completion_bind bindC] in H.
  destruct (rawProp raw "isSick") as [| |sick|?|?|?|?]; try discriminate.
  destruct (convertedSeverity P raw sick) as [sev|thrown]; [|discriminate].
  injection H as <-. cbn [dateKey].
  unfold derivedDateKey, keyFromDate in Hk.
  destruct (rawProp raw "dateKey") as [| |?|?|s|?|?];
    try destruct (matchesDateKey s) eqn:Es;
    try (injection Hk as <-; exact Es);
    destruct (truthy (rawProp raw "date")); try discriminate;
    destruct (newDate P (rawProp raw "date")) as [[t|]|thrown]; try discriminate;
    cbn [mbind completion_bind bindC] in Hk;
    destruct (matchesDateKey (toDateKey (Some t))) eqn:Et; try discriminate;
    injection Hk as <-; exact Et.
Qed.

(** What an accepted entry was built from. *)
Lemma normalizeEntry_accepted raw e :
  normalizeEntry P raw = Normal (Some e) →
  isObject raw = true
  ∧ derivedDateKey P raw = Normal (Some (dateKey e))
  ∧ rawProp raw "isSick" = VBool (isSick e)
  ∧ convertedSeverity P raw (isSick e) = Normal (severity e)
  ∧ date e = rawProp raw "date".
Proof.
  intros H. destruct (isObject raw) eqn:Ho;
    [|rewrite (normalizeEntry_not_object raw Ho) in H; discriminate].
  rewrite (normalizeEntry_object raw Ho) in H.
  destruct (derivedDateKey P raw) as [[key|]|thrown]; try discriminate.
  cbn [mbind completion_bind bindC] in H.
  destruct (rawProp raw "isSick") as [| |sick|?|?|?|?]; try discriminate.
  destruct (convertedSeverity P raw sick) as [sev|thrown] eqn:Hs; [|discriminate].
  injection H as <-. cbn [dateKey isSick severity date]. rewrite Hs. auto.
Qed.

(** When [normalizeEntry] returns, its result is [null] exactly when the
    raw value is not an object, or [isSick] is not a boolean, or neither
    [raw.dateKey] nor parsing [raw.date] yields a valid date key. *)
Lemma normalizeEntry_result (raw : jsval) (r : option Entry) :
  normalizeEntry P raw = Normal r →
  (r = None ↔ isObject raw = false
              ∨ isBoolean (rawProp raw "isSick") = false
              ∨ derivedDateKey P raw = Normal None).
Proof.
  destruct (isObject raw) eqn:Ho.
  - rewrite (normalizeEntry_object raw Ho).
    destruct (derivedDateKey P raw) as [[key|]|thrown];
      cbn [mbind completion_bind bindC]; try discriminate;
      destruct (rawProp raw "isSick") as [| |sick|?|?|?|?];
      try destruct (convertedSeverity P raw sick); cbn [isBoolean];
      intros [= <-]; split; intros H; try discriminate; auto;
      destruct H as [H|[H|H]]; discriminate.
  - rewrite (normalizeEntry_not_object raw Ho). intros [= <-]. split; auto.
Qed.

(** [normalizeEntry] throws exactly on an object for which the parsing of
    [raw.date] is tried and throws, or whose key and [isSick] are in
    order while the conversion of its severity throws. *)
Lemma normalizeEntry_throws_iff (raw : jsval) :
  (∃ thrown, normalizeEntry P raw = Throw thrown)
  ↔ isObject raw = true
    ∧ ((∃ thrown, derivedDateKey P raw = Throw thrown)
       ∨ (∃ key thrown,
            derivedDateKey P raw = Normal (Some key)
            ∧ rawProp raw "isSick" = VBool true
            ∧ convertedSeverity P raw true = Throw thrown)).
Proof.
  destruct (isObject raw) eqn:Ho.
  2:{ rewrite (normalizeEntry_not_object raw Ho).
      split; [intros [? H]; discriminate H|intros [H _]; discriminate H]. }
  rewrite (normalizeEntry_object raw Ho).
  destruct (derivedDateKey P raw) as [[key|]|thrown];
    cbn [mbind completion_bind bindC].
  - destruct (rawProp raw "isSick") as [| |[|]|?|?|?|?];
      try (split; [intros [? H]; discriminate H
                  |intros [_ [[? H]|(? & ? & _ & H & _)]]; discriminate H]).
    destruct (convertedSeverity P raw true) as [sev|thrown];
      cbn [mbind completion_bind bindC].
    + split; [intros [? H]; discriminate H|].
      intros [_ [[? H]|(? & ? & _ & _ & H)]]; discriminate H.
    + split; [|eauto]. intros _. split; [reflexivity|]. right. eauto.
  - split; [intros [? H]; discriminate H|].
    intros [_ [[? H]|(? & ? & H & _)]]; discriminate H.
  - split; [|eauto]. intros _. split; [reflexivity|]. left. eauto.
Qed.

(** C6: the code breaks the claim.  [normalizeEntry] throws on the raw
    entry [{"date": {"toString": 1}, "isSick": true}], which has no date
    key and whose date cannot be converted to a primitive: [new
    Date(raw.date)] throws a [TypeError] where the claim has the entry
    dropped with [null]. *)
Theorem normalizeEntry_throws_on_date :
  isObject raw_date_unconvertible = true
  ∧ rawProp raw_date_unconvertible "dateKey" = VUndefined
  ∧ normalizeEntry P raw_date_unconvertible = Throw (primitiveErrorText P).
Proof. repeat split. Qed.

Lemma inSeverityRange_truthy m : inSeverityRange m → truthyNum m = true.
Proof.
  destruct m as [| |q]; cbn; try contradiction.
  intros (z & Hz & Hq). unfold Qeq in Hq. cbn in Hq.
  destruct (Z.eqb_spec (Qnum q) 0) as [E|]; [|reflexivity].
  rewrite E in Hq. lia.
Qed.

(** C7: the severity of an accepted entry is [Number(raw.severity)], or 1
    when [raw.severity] is absent or falsy, if the entry is sick, and
    [null] if it is not, whatever [raw.severity] is. *)
Theorem normalizeEntry_severity (raw : jsval) (e : Entry) :
  normalizeEntry P raw = Normal (Some e) →
  rawProp raw "isSick" = VBool (isSick e)
  ∧ Normal (severity e) =
      if isSick e
      then if truthy (rawProp raw "severity")
           then n ← ToNumber P (rawProp raw "severity"); Normal (Some n)
           else Normal (Some (intNum 1))
      else Normal None.
Proof.
  intros H.
  destruct (normalizeEntry_accepted raw e H) as (_ & _ & Hsick & Hsev & _).
  split; [exact Hsick|]. rewrite <- Hsev. unfold convertedSeverity.
  destruct (isSick e); [|reflexivity].
  destruct (truthy (rawProp raw "severity")); reflexivity.
Qed.

(** C8, as amended: an accepted entry has no severity when it is not sick;
    when it is sick its severity is a number, which is an integer from 1
    to 5 whenever [raw.severity] is such a number or is absent or falsy. *)
Theorem normalizeEntry_severity_range (raw : jsval) (e : Entry) :
  normalizeEntry P raw = Normal (Some e) →
  if isSick e
  then ∃ n, severity e = Some n
            ∧ ((∃ m, rawProp raw "severity" = VNum m ∧ inSeverityRange m)
               ∨ truthy (rawProp raw "severity") = false →
               inSeverityRange n)
  else severity e = None.
Proof.
  intros H.
  destruct (normalizeEntry_accepted raw e H) as (_ & _ & _ & Hsev & _).
  unfold convertedSeverity in Hsev.
  destruct (isSick e); [|injection Hsev as <-; reflexivity].
  destruct (ToNumber P _) as [n|thrown] eqn:Hn; [|discriminate].
  cbn [mbind completion_bind bindC] in Hsev. injection Hsev as <-.
  exists n. split; [reflexivity|]. intros [(m & Hm & Hr)|Hf].
  - rewrite Hm in Hn. cbn [truthy ToNumber] in Hn.
    rewrite (inSeverityRange_truthy m Hr) in Hn.
    injection Hn as <-. exact Hr.
  - rewrite Hf in Hn. injection Hn as <-. exists 1. split; [lia|reflexivity].
Qed.

End Normalize.

(** ** Saving and loading *)

Section SortExt.

Context {A : Type}.

Lemma insertDown_ext (after after' : A → A → bool) x l :
  (∀ y, y ∈ l → after y x = after' y x) →
  insertDown after x l = insertDown after' x l.
Proof.
  induction l as [|y l IH]; intros H; cbn [insertDown]; [reflexivity|].
  rewrite (H y) by (left). destruct (after' y x); [|reflexivity].
  f_equal. apply IH. intros z Hz. apply H. right. exact Hz.
Qed.

Lemma foldl_insertDown_ext (after after' : A → A → bool) l acc :
  (∀ a b, a ∈ l ++ acc → b ∈ l ++ acc → after a b = after' a b) →
  foldl (λ sortedRev x, insertDown after x sortedRev) acc l
  = foldl (λ sortedRev x, insertDown after' x sortedRev) acc l.
Proof.
  revert acc. induction l as [|x l IH]; intros acc H; cbn [foldl]; [reflexivity|].
  rewrite (insertDown_ext after after' x acc).
  - apply IH. intros a b Ha Hb. apply H.
    + rewrite (insertDown_perm after' x acc) in Ha.
      rewrite <- Permutation_middle in Ha. exact Ha.
    + rewrite (insertDown_perm after' x acc) in Hb.
      rewrite <- Permutation_middle in Hb. exact Hb.
  - intros y Hy. apply H.
    + cbn. right. apply elem_of_app. right. exact Hy.
    + cbn. left.
Qed.


Lemma StronglySorted_weaken (R R' : A → A → Prop) l :
  (∀ a b, R a b → R' a b) → StronglySorted R l → StronglySorted R' l.
Proof.
  intros H. induction 1 as [|a l Hs IH Ha]; constructor; [exact IH|].
  eapply Forall_impl; [exact Ha|]. intros b. apply H.
Qed.

End SortExt.

Section Saving.

Variable P : Platform.

Lemma mergeSaved_perm saved prev :
  mergeSaved P saved prev
  ≡ₚ filter (λ item, dateKey item ≠ dateKey saved) prev ++ [saved].
Proof. unfold mergeSaved. apply sortWith_perm. Qed.



Lemma mergeSaved_elem saved prev : saved ∈ mergeSaved P saved prev.
Proof. rewrite mergeSaved_perm. apply elem_of_app. right. left. Qed.


(** What [commitSave] leaves, by what the request settled to. *)
Lemma commitSave_unfold payload st net :
  commitSave P payload (st, net)
  = (setBusy false
       (match commitSaveTry P (saveEntrySettled P (nextReply net))
                (setInfo "" (setError "" (setBusy true st))) with
        | Normal st' => st'
        | Throw message =>
            setError (orString message "Failed to save entry")
                     (setInfo "" (setError "" (setBusy true st)))
        end),
     {| replies := tail (replies net);
        sent := sent net ++ [SaveEntryRequest payload] |}).
Proof.
  unfold commitSave, saveEntry, callFetch, nextReply.
  destruct (replies net); reflexivity.
Qed.

Lemma commitSaveTry_Normal settled st st' :
  commitSaveTry P settled st = Normal st' →
  ∃ response rawEntry saved,
    settled = Resolved response
    ∧ getProp P response "entry" = Normal rawEntry
    ∧ normalizeEntry P rawEntry = Normal (Some saved)
    ∧ entries st' = mergeSaved P saved (entries st).
Proof.
  unfold commitSaveTry. destruct settled as [response|m]; [|discriminate].
  destruct (getProp P response "entry") as [rawEntry|] eqn:E1; [|discriminate].
  cbn [mbind completion_bind bindC].
  destruct (normalizeEntry P rawEntry) as [[saved|]|] eqn:E2; try discriminate.
  cbn [mbind completion_bind bindC]. intros [= <-].
  exists response, rawEntry, saved. repeat split; try assumption.
Qed.

Lemma orString_nonempty message fallback :
  fallback ≠ ""%string → orString message fallback ≠ ""%string.
Proof.
  intros H. unfold orString. destruct (String.eqb_spec message ""); congruence.
Qed.

Lemma saveEntrySettled_failure reply :
  transportFailure reply → ∃ m, saveEntrySettled P reply = Rejected m.
Proof.
  destruct reply as [m|ok body]; cbn; [eauto|]. intros ->.
  destruct (getProp P (default (VObj []) body) "message") as [message|thrown];
    [|eauto].
  destruct (truthy message); [|eauto].
  destruct (ToString P message); eauto.
Qed.

Lemma fetchEntriesSettled_failure reply :
  transportFailure reply → ∃ m, fetchEntriesSettled P reply = Rejected m.
Proof. destruct reply as [m|ok body]; cbn; [eauto|]. intros ->. eauto. Qed.

End Saving.

(** ** Decimal numerals *)

Lemma isDigit_not_dash c : isDigit c = true → Ascii.eqb c "-" = false.
Proof.
  destruct c as [[] [] [] [] [] [] [] []]; vm_compute; congruence.
Qed.

Lemma isDigit_digitChar n : 0 <= n <= 9 → isDigit (digitChar n) = true.
Proof.
  intros H.
  assert (n = 0 ∨ n = 1 ∨ n = 2 ∨ n = 3 ∨ n = 4 ∨ n = 5 ∨ n = 6 ∨ n = 7
          ∨ n = 8 ∨ n = 9) as Hc by lia.
  repeat (destruct Hc as [Hc|Hc]); subst n; reflexivity.
Qed.

Lemma splitDash_nonempty s : splitDash s ≠ [].
Proof.
  destruct s as [|c s]; cbn; [discriminate|].
  destruct (Ascii.eqb c "-"); [discriminate|].
  destruct (splitDash s); discriminate.
Qed.

Lemma splitDash_digits_dash d rest :
  allDigits d = true →
  splitDash (d +:+ String "-" rest) = d :: splitDash rest.
Proof.
  induction d as [|c d IH]; cbn; [reflexivity|].
  intros H. apply andb_true_iff in H as [Hc Hd].
  change (String c d +:+ String "-" rest) with (String c (d +:+ String "-" rest)).
  cbn [splitDash]. rewrite (isDigit_not_dash c Hc), (IH Hd). reflexivity.
Qed.

Lemma splitDash_digits d : allDigits d = true → splitDash d = [d].
Proof.
  induction d as [|c d IH]; cbn; [reflexivity|].
  intros H. apply andb_true_iff in H as [Hc Hd].
  rewrite (isDigit_not_dash c Hc), (IH Hd). reflexivity.
Qed.

Lemma digitsOf_allDigits fuel n acc :
  0 <= n → allDigits acc = true → allDigits (digitsOf fuel n acc) = true.
Proof.
  revert n acc. induction fuel as [|fuel IH]; intros n acc Hn Ha; cbn [digitsOf];
    [exact Ha|].
  assert (Hd : allDigits (String (digitChar (n mod 10)) acc) = true).
  { cbn. rewrite Ha, isDigit_digitChar; [reflexivity|].
    Z.div_mod_to_equations. lia. }
  destruct (n <? 10); [exact Hd|]. apply IH; [|exact Hd].
  Z.div_mod_to_equations. lia.
Qed.

Lemma digitsOf_value fuel n acc :
  0 <= n < 2 ^ Z.of_nat fuel →
  decimalAcc (digitsOf fuel n acc) 0 = decimalAcc acc n.
Proof.
  revert n acc. induction fuel as [|fuel IH]; intros n acc Hn.
  - cbn in Hn. assert (n = 0) as -> by lia. reflexivity.
  - cbn [digitsOf].
    assert (Hstep : decimalAcc (String (digitChar (n mod 10)) acc) (n / 10)
                    = decimalAcc acc n).
    { cbn [decimalAcc]. rewrite isDigit_digitChar, digitValue_digitChar
        by (Z.div_mod_to_equations; lia).
      f_equal. Z.div_mod_to_equations. lia. }
    destruct (Z.ltb_spec n 10).
    + rewrite <- Hstep. rewrite Z.div_small by lia. reflexivity.
    + rewrite IH; [exact Hstep|].
      rewrite Nat2Z.inj_succ, Z.pow_succ_r in Hn by lia.
      Z.div_mod_to_equations. lia.
Qed.

Lemma digitsOf_length fuel n acc (k : nat) :
  0 <= n < 10 ^ Z.of_nat (S k) →
  (String.length (digitsOf fuel n acc) <= String.length acc + S k)%nat.
Proof.
  revert n acc k. induction fuel as [|fuel IH]; intros n acc k Hn; cbn [digitsOf];
    [lia|].
  destruct (Z.ltb_spec n 10); [cbn; lia|].
  destruct k as [|k]; [cbn in Hn; lia|].
  specialize (IH (n / 10) (String (digitChar (n mod 10)) acc) k).
  cbn [String.length] in IH.
  assert (0 <= n / 10 < 10 ^ Z.of_nat (S k)).
  { rewrite (Nat2Z.inj_succ (S k)), Z.pow_succ_r in Hn by lia.
    Z.div_mod_to_equations. lia. }
  specialize (IH ltac:(assumption)). lia.
Qed.


Lemma digitsOf_length_ge fuel n acc :
  (String.length acc <= String.length (digitsOf fuel n acc))%nat.
Proof.
  revert n acc. induction fuel as [|fuel IH]; intros n acc; cbn [digitsOf]; [lia|].
  destruct (n <? 10); [cbn; lia|].
  specialize (IH (n / 10) (String (digitChar (n mod 10)) acc)). cbn in IH. lia.
Qed.

Lemma intToString_digits n : 0 <= n → allDigits (intToString n) = true.
Proof.
  intros Hn. unfold intToString. destruct (Z.ltb_spec n 0); [lia|].
  apply digitsOf_allDigits; [lia|reflexivity].
Qed.

Lemma intToString_value n :
  0 <= n < 10 ^ 15 → decimalValue (intToString n) = Some n.
Proof.
  intros Hn. unfold intToString. destruct (Z.ltb_spec n 0); [lia|].
  set (fuel := Z.to_nat (Z.log2 n)).
  assert (Hlen : (1 <= String.length (digitsOf (S fuel) n "") <= 15)%nat).
  { split.
    - cbn [digitsOf]. destruct (n <? 10); [cbn; lia|].
      pose proof (digitsOf_length_ge fuel (n / 10)
                    (String (digitChar (n mod 10)) "")) as Hg.
      cbn in Hg. lia.
    - assert (Hp : 0 <= n < 10 ^ Z.of_nat 15)
        by (change (Z.of_nat 15) with 15; lia).
      pose proof (digitsOf_length (S fuel) n "" 14 Hp) as Hl.
      cbn [String.length] in Hl. lia. }
  unfold decimalValue.
  destruct (digitsOf (S fuel) n "") as [|c s] eqn:E; [cbn in Hlen; lia|].
  destruct (Nat.leb_spec (String.length (String c s)) 15); [|lia].
  rewrite <- E. rewrite digitsOf_value; [reflexivity|].
  subst fuel. rewrite Nat2Z.inj_succ, Z2Nat.id by apply Z.log2_nonneg.
  destruct (Z.eq_dec n 0) as [->|]; [cbn; lia|].
  pose proof (Z.log2_spec n ltac:(lia)). lia.
Qed.

Section StringNumbers.

Variable P : Platform.

Lemma StringToNumber_int n :
  0 <= n < 10 ^ 15 → StringToNumber P (intToString n) = intNum n.
Proof. intros Hn. unfold StringToNumber. rewrite intToString_value by exact Hn. reflexivity. Qed.

Lemma StringToNumber_pad2 n :
  0 <= n <= 99 →
  StringToNumber P (padStart2 (intToString n)) = intNum n
  ∧ allDigits (padStart2 (intToString n)) = true.
Proof.
  intros H. rewrite <- (Z2Nat.id n) by lia.
  assert (Z.to_nat n < 100)%nat as Hk by lia.
  revert Hk. generalize (Z.to_nat n). intros k Hk.
  do 100 (destruct k as [|k]; [vm_compute; split; reflexivity|]). lia.
Qed.

End StringNumbers.

(** The calendar fields of a day are a date of the calendar, and [MakeDay]
    takes them back to the day. *)
Lemma day_fields d :
  0 <= MonthFromDay d <= 11
  ∧ 1 <= DateFromDay d <= daysInMonth (YearFromDay d) (MonthFromDay d)
  ∧ MakeDay (YearFromDay d) (MonthFromDay d) (DateFromDay d) = d.
Proof.
  pose proof (YearFromDay_spec d) as Hy. rewrite DayFromYear_succ in Hy.
  destruct (yearDay_is_date (YearFromDay d) (d - DayFromYear (YearFromDay d))
              ltac:(lia)) as (m & dt & Hm & Hdt & E).
  replace (DayFromYear (YearFromDay d) + (d - DayFromYear (YearFromDay d)))
    with d in E by lia.
  destruct (fields_of_MakeDay (YearFromDay d) m dt Hm Hdt) as (_ & Hm' & Hdt').
  rewrite <- E in Hm', Hdt'. rewrite Hm', Hdt'. auto.
Qed.

Lemma truncate_int z : truncate (inject_Z z) = z.
Proof. unfold truncate. cbn. apply Z.quot_1_r. Qed.

Lemma truncate_int_pred z : truncate (inject_Z z - 1) = z - 1.
Proof. unfold truncate. cbn. rewrite Z.quot_1_r. lia. Qed.

Lemma dash_append (s : string) : "-" +:+ s = String "-" s.
Proof. reflexivity. Qed.

Section SubmitPayload.

Variable P : Platform.

(** The key of a valid date parses back to a valid date. *)
Lemma parseDateFromKey_valid t :
  Z.abs t <= maxTime → is_Some (parseDateFromKey P (toDateKey (Some t))).
Proof.
  intros Ht.
  assert (Hd : -100000000 <= Day t <= 100000000).
  { unfold Day, maxTime, msPerDay in *. Z.div_mod_to_equations. lia. }
  destruct (day_fields (Day t)) as (Hm & Hdt & Hmk).
  pose proof (daysInMonth_bounds (YearFromDay (Day t)) (MonthFromDay (Day t))) as Hb.
  pose proof (YearFromDay_spec (Day t)) as Hy.
  assert (Hyr : -271822 <= YearFromDay (Day t) <= 275760).
  { revert Hy. unfold DayFromYear. generalize (YearFromDay (Day t)). intros y Hy.
    Z.div_mod_to_equations. lia. }
  unfold toDateKey, getUTCFullYear, getUTCMonth, getUTCDate. cbn [fmap option_fmap option_map compose numToString].
  set (y := YearFromDay (Day t)) in *. set (m := MonthFromDay (Day t)) in *.
  set (dt := DateFromDay (Day t)) in *.
  destruct (StringToNumber_pad2 P (m + 1) ltac:(lia)) as [Nm Dm].
  destruct (StringToNumber_pad2 P dt ltac:(lia)) as [Nd Dd].
  unfold parseDateFromKey.
  rewrite !dash_append.
  destruct (Z_lt_le_dec y 0) as [Hneg|Hpos].
  - assert (Hs : intToString y = String "-" (intToString (- y))).
    { unfold intToString. destruct (Z.ltb_spec y 0); [|lia].
      destruct (Z.ltb_spec (- y) 0); [lia|]. reflexivity. }
    rewrite Hs.
    change (String "-" (intToString (- y)) +:+ ?x)
      with (String "-" (intToString (- y) +:+ x)).
    cbn [splitDash Ascii.eqb Bool.eqb].
    rewrite splitDash_digits_dash by (apply intToString_digits; lia).
    rewrite splitDash_digits_dash by exact Dm.
    rewrite splitDash_digits by exact Dd.
    cbn [map]. rewrite StringToNumber_int by lia. rewrite Nm.
    change (StringToNumber P "") with (intNum 0).
    unfold UTCjs, intNum, minusOne.
    rewrite truncate_int_pred, !truncate_int.
    unfold UTC. change (MakeFullYear 0) with 1900.
    rewrite TimeClip_days; [eexists; reflexivity|].
    unfold MakeDay. cbv zeta.
    pose proof (monthStartDay_bounds
                  (leapDays (1900 + (- y - 1) / 12)) ((- y - 1) mod 12)
                  (leapDays_bounds _) ltac:(Z.div_mod_to_equations; lia)).
    unfold DayFromYear. Z.div_mod_to_equations. lia.
  - rewrite splitDash_digits_dash by (apply intToString_digits; lia).
    rewrite splitDash_digits_dash by exact Dm.
    rewrite splitDash_digits by exact Dd.
    cbn [map]. rewrite StringToNumber_int by lia. rewrite Nm, Nd.
    unfold UTCjs, intNum, minusOne.
    rewrite truncate_int_pred, !truncate_int.
    replace (m + 1 - 1) with m by lia. unfold UTC, MakeFullYear.
    destruct (Z.leb_spec 0 y); [|lia]. destruct (Z.leb_spec y 99); cbn [andb].
    + rewrite TimeClip_days; [eexists; reflexivity|].
      unfold MakeDay. cbv zeta. rewrite Z.div_small, Z.mod_small by lia.
      pose proof (monthStartDay_bounds (leapDays (1900 + y + 0)) m
                    (leapDays_bounds _) Hm).
      unfold DayFromYear. Z.div_mod_to_equations. lia.
    + rewrite Hmk. rewrite TimeClip_days by lia. eexists; reflexivity.
Qed.

(** [onSubmit] builds its payload whenever the form holds a valid date. *)
Lemma submitPayload_valid st t :
  formDate st = Some t → Z.abs t <= maxTime →
  ∃ payload, submitPayload P st = Normal payload.
Proof.
  intros Hf Ht. unfold submitPayload. rewrite Hf.
  destruct (parseDateFromKey_valid t Ht) as [t' ->].
  cbn [toISOString mbind completion_bind bindC]. eexists; reflexivity.
Qed.

End SubmitPayload.

(** ** The entry map and the submit decision *)

Lemma numIs_int n y : numIs (intNum n) y = (n =? y).
Proof.
  unfold numIs, intNum. destruct (Z.eqb_spec n y) as [->|Hne].
  - apply Qeq_bool_iff. reflexivity.
  - destruct (Qeq_bool (inject_Z n) (inject_Z y)) eqn:E; [|reflexivity].
    apply Qeq_bool_iff in E. unfold Qeq in E. cbn in E. lia.
Qed.

Section EntryMap.

Variable P : Platform.

Lemma year_of_key k y :
  matchesDateKey k = true →
  numIs (StringToNumber P (String.substring 0 4 k)) y = true ↔ keyYear k = Some y.
Proof.
  intros H. unfold keyYear. rewrite H.
  assert (∃ n, decimalValue (String.substring 0 4 k) = Some n) as [n Hn].
  { destruct k as [|c1 [|c2 [|c3 [|c4 [|c5 [|c6 [|c7 [|c8 [|c9 [|c10 [|? ?]]]]]]]]]]];
      try discriminate H.
    cbn [matchesDateKey] in H. do 9 (apply andb_true_iff in H as [H ?]).
    cbn [String.substring]. unfold decimalValue.
    cbn [String.length Nat.leb decimalAcc].
    repeat match goal with Hd : isDigit _ = true |- _ => rewrite Hd; clear Hd end.
    eexists; reflexivity. }
  unfold StringToNumber. rewrite Hn, numIs_int.
  split; [intros E; apply Z.eqb_eq in E; congruence|].
  intros [= ->]. apply Z.eqb_refl.
Qed.

Lemma entryMap_snoc l e y :
  entryMap P (l ++ [e]) y =
    if negb (matchesDateKey (dateKey e)) then entryMap P l y
    else if negb (numIs (StringToNumber P (String.substring 0 4 (dateKey e))) y)
         then entryMap P l y
         else <[dateKey e := e]> (entryMap P l y).
Proof. unfold entryMap. rewrite foldl_app. reflexivity. Qed.

(** The map holds under a key an entry of the collection with that key,
    of the selected year. *)
Lemma entryMap_Some l y k e :
  entryMap P l y !! k = Some e →
  e ∈ l ∧ dateKey e = k ∧ keyYear k = Some y.
Proof.
  induction l as [|x l IH] using rev_ind;
    [unfold entryMap; cbn [foldl]; rewrite lookup_empty; discriminate|].
  rewrite entryMap_snoc.
  destruct (matchesDateKey (dateKey x)) eqn:Hv; cbn [negb].
  - destruct (numIs _ y) eqn:Hy; cbn [negb].
    + rewrite lookup_insert. destruct (decide (dateKey x = k)) as [<-|].
      * intros [= <-]. split; [apply elem_of_app; right; left|].
        split; [reflexivity|]. apply year_of_key; assumption.
      * intros H. destruct (IH H) as (? & ? & ?).
        split; [apply elem_of_app; left; assumption|auto].
    + intros H. destruct (IH H) as (? & ? & ?).
      split; [apply elem_of_app; left; assumption|auto].
  - intros H. destruct (IH H) as (? & ? & ?).
    split; [apply elem_of_app; left; assumption|auto].
Qed.

(** The map holds nothing under a key only if no entry of the collection
    has that key in the selected year. *)
Lemma entryMap_None l y k e :
  entryMap P l y !! k = None → e ∈ l → dateKey e = k → keyYear k ≠ Some y.
Proof.
  induction l as [|x l IH] using rev_ind; [intros _ H; inversion H|].
  rewrite entryMap_snoc. intros Hl He Hk.
  apply elem_of_app in He as [He|He].
  - apply IH; [|assumption..].
    destruct (matchesDateKey (dateKey x)); cbn [negb] in Hl; [|exact Hl].
    destruct (numIs _ y); cbn [negb] in Hl; [|exact Hl].
    rewrite lookup_insert in Hl. destruct (decide (dateKey x = k)); [discriminate|exact Hl].
  - apply list_elem_of_singleton in He as ->. rewrite Hk in Hl.
    intros Hy. pose proof Hy as Hy'. unfold keyYear in Hy'.
    destruct (matchesDateKey k) eqn:Hv; [|discriminate]. cbn [negb] in Hl.
    apply (year_of_key k y Hv) in Hy. rewrite Hy in Hl. cbn [negb] in Hl.
    rewrite lookup_insert, decide_True in Hl by reflexivity. discriminate.
Qed.

End EntryMap.

(** ** The day cells of any year *)

(** The numbers of a grid that has a week count. *)
Lemma grid_numbers y n :
  weekCount y = Some n →
  ∃ o t, offset y = Some o ∧ totalDays y = Some t
         ∧ 0 <= o <= 6 ∧ (365 <= t ∨ t <= -365)
         ∧ n = - (- (o + t) / 7).
Proof.
  intros Hn. unfold weekCount, totalCells, offset, totalDays, getUTCDay in *.
  rewrite jan1_any, nextJan1_any in *.
  set (D0 := DayFromYear (MakeFullYear y)) in *.
  set (D1 := DayFromYear (MakeFullYear (y + 1))) in *.
  destruct (TimeClip (D0 * msPerDay)) as [t0|] eqn:E0; [|discriminate].
  destruct (TimeClip (D1 * msPerDay)) as [t1|] eqn:E1; [|discriminate].
  apply TimeClip_Some_days in E0 as [-> B0].
  apply TimeClip_Some_days in E1 as [-> B1].
  rewrite (dayDiff_days D0 D1) in Hn |- *. cbn in Hn |- *.
  rewrite (Day_midnight D0) in Hn |- *. injection Hn as <-.
  exists (WeekDay D0), (D1 - D0).
  split; [reflexivity|]. split; [reflexivity|].
  split; [apply WeekDay_bounds|]. split; [|reflexivity].
  destruct (fullYear_gap y) as [G|G]; fold D0 D1 in G; lia.
Qed.

Lemma weekCount_None y : weekCount y = None → totalDays y = None.
Proof.
  unfold weekCount, totalCells, offset, totalDays, getUTCDay, dayDiffUtc, getTime.
  destruct (jan1 y), (nextJan1 y); cbn; congruence.
Qed.

Lemma dayCell_window y byKey i o t :
  offset y = Some o → totalDays y = Some t →
  dayCell y byKey i =
    if (o <=? i) && (i <? o + t) then Some (cellOfDay y byKey (i - o)) else None.
Proof.
  intros Ho Ht. unfold dayCell. rewrite Ho, Ht. cbn.
  destruct (Z.ltb_spec (i - o) 0); destruct (Z.leb_spec t (i - o));
    destruct (Z.leb_spec o i); destruct (Z.ltb_spec i (o + t)); cbn;
    try reflexivity; lia.
Qed.

(** The day cells of the grid of any year are the days that [Date.UTC]
    counts from the first of January, as many as the day count says. *)
Lemma dayCells_any y entries :
  dayCells (buildYearGrid y entries) =
    map (cellOfDay y (entriesByKey entries)) (seqZ 0 (default 0 (totalDays y))).
Proof.
  unfold dayCells. rewrite cells_flat.
  destruct (weekCount y) as [n|] eqn:Hn.
  - destruct (grid_numbers y n Hn) as (o & t & Ho & Ht & Bo & Bt & N).
    rewrite Ht. change (default 0 (Some t)) with t. rewrite omap_id_map.
    destruct (Z_le_gt_dec n 0) as [Hle|Hgt].
    + rewrite (seqZ_nil 0 (7 * n)), (seqZ_nil 0 t); [reflexivity| |lia].
      revert Hle. rewrite N. Z.div_mod_to_equations. lia.
    + assert (365 <= t).
      { destruct Bt as [|Bt]; [assumption|]. exfalso. revert Hgt. rewrite N.
        Z.div_mod_to_equations. lia. }
      rewrite (omap_window _ (λ i, cellOfDay y (entriesByKey entries) (i - o))
                 o (o + t)).
      * replace (o + t - o) with t by lia.
        replace (seqZ o t) with (seqZ (o + 0) t) by (f_equal; lia).
        rewrite <- fmap_add_seqZ.
        change (map ?f (?g <$> ?l)) with (map f (map g l)). rewrite map_map.
        apply map_ext. intros a. f_equal. lia.
      * lia.
      * lia.
      * rewrite N. Z.div_mod_to_equations. lia.
      * intros i Hi. apply dayCell_window; assumption.
  - rewrite (weekCount_None y Hn). reflexivity.
Qed.

Lemma InLeapYear_1900 y : 1 <= y <= 98 → InLeapYear (1900 + y) = InLeapYear y.
Proof.
  intros H. unfold InLeapYear.
  destruct (Z.eqb_spec ((1900 + y) mod 4) 0); destruct (Z.eqb_spec (y mod 4) 0);
    destruct (Z.eqb_spec ((1900 + y) mod 100) 0); destruct (Z.eqb_spec (y mod 100) 0);
    destruct (Z.eqb_spec ((1900 + y) mod 400) 0); destruct (Z.eqb_spec (y mod 400) 0);
    cbn [andb orb negb]; try reflexivity; exfalso;
    Z.div_mod_to_equations; lia.
Qed.

(** The day count of the years whose grid has the days of a year. *)
Lemma totalDays_counted y : countedYear y → totalDays y = Some (DaysInYear y).
Proof.
  intros (Hr & H1 & H0 & H99).
  unfold totalDays. rewrite jan1_any, nextJan1_any.
  assert (Hn : MakeFullYear (y + 1) = MakeFullYear y + 1).
  { unfold MakeFullYear.
    destruct (Z.leb_spec 0 y); destruct (Z.leb_spec y 99);
      destruct (Z.leb_spec 0 (y + 1)); destruct (Z.leb_spec (y + 1) 99);
      cbn [andb]; lia. }
  assert (Hd : DaysInYear (MakeFullYear y) = DaysInYear y).
  { unfold MakeFullYear.
    destruct (Z.leb_spec 0 y); destruct (Z.leb_spec y 99); cbn [andb];
      try reflexivity.
    unfold DaysInYear. rewrite InLeapYear_1900 by lia. reflexivity. }
  assert (Hb : -271820 <= MakeFullYear y <= 275759).
  { unfold MakeFullYear.
    destruct (Z.leb_spec 0 y); destruct (Z.leb_spec y 99); cbn [andb]; lia. }
  rewrite Hn. pose proof (DayFromYear_succ (MakeFullYear y)) as Hs.
  pose proof (DaysInYear_bounds (MakeFullYear y)).
  assert (-100000000 <= DayFromYear (MakeFullYear y)
          ∧ DayFromYear (MakeFullYear y + 1) <= 100000000) as [B0 B1].
  { revert Hb. generalize (MakeFullYear y). intros z Hz.
    unfold DayFromYear. Z.div_mod_to_equations. lia. }
  rewrite !TimeClip_days by lia. rewrite dayDiff_days. f_equal. lia.
Qed.

(** ** Properties of the grid builder *)

(** C1, as amended: for every year in the range of [Date] other than -1,
    0 and 99, the grid built from an empty entry list has as many day
    cells as the year has days, 366 in a leap year of the Gregorian rule
    and 365 otherwise. *)
Theorem grid_day_count (y : Z) :
  countedYear y →
  Z.of_nat (length (dayCells (buildYearGrid y [])))
  = if InLeapYear y then 366 else 365.
Proof.
  intros Hy. rewrite dayCells_any, (totalDays_counted y Hy).
  rewrite length_map, length_seqZ.
  change (default 0 (Some (DaysInYear y))) with (DaysInYear y).
  unfold DaysInYear. destruct (InLeapYear y); reflexivity.
Qed.

(** The leap year 2024. *)
Lemma grid_day_count_2024 :
  Z.of_nat (length (dayCells (buildYearGrid 2024 []))) = 366.
Proof. apply (grid_day_count 2024). unfold countedYear. lia. Defined.

(** The years the specification names. *)
Example grid_day_count_named_years :
  length (dayCells (buildYearGrid 2023 [])) = 365%nat
  ∧ length (dayCells (buildYearGrid 2024 [])) = 366%nat
  ∧ length (dayCells (buildYearGrid 2000 [])) = 366%nat.
Proof. vm_compute. auto. Qed.

(** C1 as stated fails for the year 99: [Date.UTC(99, 0, 1)] is 1 January
    1999 and [Date.UTC(100, 0, 1)] is 1 January 100, so the day count is
    negative and the grid has no cell. *)
Lemma grid_day_count_year_99 :
  Z.of_nat (length (dayCells (buildYearGrid 99 []))) ≠ DaysInYear 99.
Proof. vm_compute. discriminate. Qed.

(** The other years left out: the grid of the year 0 is that of 1900, one
    day short; the grid of the year -1 runs on to 1900; beyond the range
    of [Date] the grid has no cell. *)
Example grid_day_count_other_years :
  Z.of_nat (length (dayCells (buildYearGrid 0 []))) = 365
  ∧ DaysInYear 0 = 366
  ∧ Z.of_nat (length (dayCells (buildYearGrid (-1) []))) = 694326
  ∧ length (dayCells (buildYearGrid 275760 [])) = 0%nat
  ∧ length (dayCells (buildYearGrid (-271821) [])) = 0%nat.
Proof.
  rewrite !dayCells_any, !length_map, !length_seqZ. vm_compute. auto.
Qed.

(** C2, as amended: for every literal year [y] and every entry whose key
    is the key of a day of [y], the grid built from that entry alone holds
    it in exactly one cell, the cell's key is the entry's key and is
    derived from the cell's date; and the empty cells that lead week 0 are
    as many as the weekday of 1 January of [y]. *)
Theorem entry_held_once (y m dt : Z) (e : Entry) :
  literalYear y → 0 <= m <= 11 → 1 <= dt <= daysInMonth y m →
  dateKey e = dayKey y m dt →
  heldOnce y e ∧ leadingEmpty (buildYearGrid y [e]) = jan1Weekday y.
Proof.
  intros Hy Hm Hdt He. split.
  - exists (cellOfDay y (entriesByKey [e]) (MakeDay y m dt - DayFromYear y)).
    destruct (cellOfDay_date y (entriesByKey [e]) m dt Hy Hm Hdt) as [_ Hkey].
    split; [apply (occupied_single y e m dt); assumption|].
    split; [|split; [congruence|reflexivity]].
    unfold cellOfDay at 1. cbn [cellEntry].
    change (toDateKey (UTC y 0 (1 + (MakeDay y m dt - DayFromYear y))))
      with (cellDateKey (cellOfDay y (entriesByKey [e]) (MakeDay y m dt - DayFromYear y))).
    rewrite Hkey, entriesByKey_single. apply decide_True. exact He.
  - rewrite leadingEmpty_literal by exact Hy. apply WeekDay_jan1.
Qed.

(** The entry of 5 March 2024. *)
Lemma entry_held_once_2024_03_05 :
  heldOnce 2024 entry_2024_03_05
  ∧ leadingEmpty (buildYearGrid 2024 [entry_2024_03_05]) = jan1Weekday 2024.
Proof.
  apply (entry_held_once 2024 2 5 entry_2024_03_05).
  - right. lia.
  - lia.
  - vm_compute. split; discriminate.
  - reflexivity.
Defined.

(** C2 as stated fails for the year 99: the grid has no cell, so the entry
    of 1 January 99 is held nowhere, whether its key spells the year with
    two digits or with four, and no empty cell leads week 0 although that
    day is a Thursday. *)
Lemma entry_year_99_not_held :
  dateKey entry_0099_01_01 = dayKey 99 0 1
  ∧ ¬ heldOnce 99 entry_0099_01_01
  ∧ ¬ heldOnce 99 entry_0099_01_01_padded
  ∧ leadingEmpty (buildYearGrid 99 [entry_0099_01_01]) ≠ jan1Weekday 99.
Proof.
  split; [reflexivity|]. split; [|split].
  - intros (c & Hc & _). vm_compute in Hc. discriminate.
  - intros (c & Hc & _). vm_compute in Hc. discriminate.
  - vm_compute. discriminate.
Qed.

(** Other years left out: the grid of the year 50 is that of 1950, which
    holds no day of the year 50 and begins on a Sunday, not a Saturday. *)
Example entry_year_50_not_held :
  dateKey entry_0050_03_05 = dayKey 50 2 5
  ∧ occupiedCells (buildYearGrid 50 [entry_0050_03_05]) = []
  ∧ leadingEmpty (buildYearGrid 50 [entry_0050_03_05]) = 0
  ∧ jan1Weekday 50 = 6.
Proof. vm_compute. auto. Qed.

(** C5, as amended: for any year the month labels follow one another
    without a gap, each beginning in the last week column of the label
    before it or in the column right after it, so that two labels share a
    column where a month ends inside a week; and every week column that
    holds a day lies in the span of some label. *)
Theorem month_labels_adjoin_and_cover (y : Z) (entries : list Entry) :
  adjoining (monthLayout (buildYearGrid y entries))
  ∧ coversDayColumns (buildYearGrid y entries).
Proof.
  split.
  - (* the labels adjoin *)
    intros i a b s n s' Ha Hb Hs Hn Hs'.
    apply monthLayout_lookup in Ha as (Hi & Sa & Na).
    apply monthLayout_lookup in Hb as (Hi' & Sb & _).
    rewrite Sa in Hs. rewrite Sb in Hs'. rewrite Na, Hs in Hn.
    destruct (monthEndWeek y (Z.of_nat i)) as [e|] eqn:He; [|discriminate].
    cbn in Hn. injection Hn as <-.
    apply monthStartWeek_Some in Hs; [|lia].
    apply monthStartWeek_Some in Hs'; [|lia].
    apply monthEndWeek_Some in He; [|lia].
    replace (Z.of_nat (S i)) with (Z.of_nat i + 1) in Hs' by lia.
    pose proof (leapDays_bounds (MakeFullYear y)) as Hl.
    pose proof (WeekDay_bounds (DayFromYear (MakeFullYear y))) as Ho.
    set (l := leapDays (MakeFullYear y)) in *.
    set (o := WeekDay (DayFromYear (MakeFullYear y))) in *.
    assert (Z.of_nat i = 0 ∨ Z.of_nat i = 1 ∨ Z.of_nat i = 2 ∨ Z.of_nat i = 3
            ∨ Z.of_nat i = 4 ∨ Z.of_nat i = 5 ∨ Z.of_nat i = 6 ∨ Z.of_nat i = 7
            ∨ Z.of_nat i = 8 ∨ Z.of_nat i = 9 ∨ Z.of_nat i = 10) as Hc by lia.
    subst s s' e. clear Sa Sb Na.
    repeat (destruct Hc as [Hc|Hc]); rewrite Hc;
      match goal with
      | |- context [monthStartDay l (?a + 1)] =>
          let v := eval vm_compute in (a + 1) in change (a + 1) with v
      end;
      cbn [monthStartDay]; Z.div_mod_to_equations; lia.
  - (* the labels cover the columns *)
    intros w Hw _.
    destruct (weeks_index y entries w Hw) as (n & Hn & Hi).
    assert (Hpos : 0 < n) by lia.
    destruct (weekCount_Some y n Hn Hpos) as (B0 & B1 & B2 & J & O & T & N).
    pose proof (WeekDay_bounds (DayFromYear (MakeFullYear y))) as Ho.
    pose proof (leapDays_bounds (MakeFullYear y)) as Hl.
    assert (Ht : 365 <= DayFromYear (MakeFullYear (y + 1))
                       - DayFromYear (MakeFullYear y)) by lia.
    destruct (covering_month _ (leapDays (MakeFullYear y)) _ n (index w) Ho Hl
                Ht N Hi) as (m & Hm & Hspan).
    exists {| label := monthName m;
              startWeek := monthStartWeek y m;
              spanWeeks := max1 (nsub (monthEndWeek y m) (monthStartWeek y m)) |}.
    split.
    + cbn [buildYearGrid monthLayout]. unfold monthLayoutData.
      change (map ?f ?l) with (f <$> l).
      apply (list_elem_of_fmap_2 (λ m, {| label := monthName m;
              startWeek := monthStartWeek y m;
              spanWeeks := max1 (nsub (monthEndWeek y m) (monthStartWeek y m)) |})).
      apply elem_of_seqZ. lia.
    + unfold inSpan. cbn [startWeek spanWeeks].
      rewrite (monthStartWeek_valid y n m Hn Hpos Hm).
      rewrite (monthEndWeek_valid y n m Hn Hpos Hm).
      eexists _, _. split; [reflexivity|]. split; [reflexivity|].
      exact Hspan.
Qed.

(** C5 as stated fails for 2024: the label of January spans the columns
    0 to 4 and the label of February begins in column 4, which holds the
    last days of January and the first of February. *)
Lemma month_labels_overlap_2024 :
  ¬ nonOverlapping (monthLayout (buildYearGrid 2024 [])).
Proof.
  intros H.
  specialize (H 0%nat
                {| label := "Jan"; startWeek := Some 0; spanWeeks := Some 5 |}
                {| label := "Feb"; startWeek := Some 4; spanWeeks := Some 5 |}
                0 5 4).
  assert (0 + 5 <= 4) as Hle; [|lia].
  apply H; vm_compute; reflexivity.
Qed.

(** ** Properties of the merge *)




(** ** Properties of saving *)

Lemma sent_grows (l : list Request) r : l ++ [r] ≠ l.
Proof.
  intros H. apply (f_equal length) in H. rewrite length_app in H. cbn in H. lia.
Qed.

(** C4: on submit, with a valid date in the form, the save waits for
    confirmation, showing the entry held so far and sending nothing, if
    and only if the collection holds an entry with the key of the form's
    date and that key falls in the selected year; otherwise it is committed
    at once. *)
Theorem onSubmit_confirmation (P : Platform) (st : HomeState) (net : Network)
    (t : Z) :
  formDate st = Some t → Z.abs t <= maxTime →
  ∃ payload page',
    submitPayload P st = Normal payload
    ∧ onSubmit P (st, net) = Normal page'
    ∧ ((∃ e, collidingEntry st e)
       ↔ is_Some (updatePreview page'.1) ∧ sent page'.2 = sent net)
    ∧ ((∃ e, collidingEntry st e) →
       ∃ e, collidingEntry st e
            ∧ page' = (setUpdatePreview
                         (Some {| existing := e; next := payload;
                                  previewDateKey := toDateKey (formDate st) |})
                         st, net))
    ∧ (¬ (∃ e, collidingEntry st e) →
       page' = commitSave P payload (st, net)
       ∧ sent page'.2 = sent net ++ [SaveEntryRequest payload]).
Proof.
  intros Hf Ht.
  destruct (submitPayload_valid P st t Hf Ht) as [payload Hp].
  exists payload. unfold onSubmit. rewrite Hp. cbn [mbind completion_bind bindC].
  destruct (entryMap P (entries st) (selectedYear st) !! toDateKey (formDate st))
    as [e|] eqn:E.
  - apply entryMap_Some in E as (He & Hk & Hy).
    assert (Hc : collidingEntry st e).
    { split; [exact He|]. split; [exact Hk|]. rewrite Hk. exact Hy. }
    eexists. split; [reflexivity|]. split; [reflexivity|]. cbn [fst snd].
    split; [|split].
    + split; [intros _; split; [eexists; reflexivity|reflexivity]|eauto].
    + intros _. exists e. split; [exact Hc|reflexivity].
    + intros Hn. exfalso. apply Hn. eauto.
  - assert (Hn : ¬ ∃ e, collidingEntry st e).
    { intros (e & He & Hk & Hy).
      apply (entryMap_None P _ _ _ e E He Hk). rewrite <- Hk. exact Hy. }
    eexists. split; [reflexivity|]. split; [reflexivity|].
    rewrite commitSave_unfold. cbn [fst snd sent].
    split; [|split].
    + split; [intros H; contradiction|].
      intros [_ Hs]. exfalso. exact (sent_grows _ _ Hs).
    + intros H. contradiction.
    + intros _. split; reflexivity.
Qed.

(** C9: when the transport fails, a save leaves the collection, the known
    years and the preview as they were, and a load leaves the collection
    empty; either shows an error, and either has sent its one request and
    no other. *)
Theorem transport_failure (P : Platform) (payload : Payload) (st : HomeState)
    (net : Network) :
  transportFailure (nextReply net) →
  (let page' := commitSave P payload (st, net) in
   entries page'.1 = entries st
   ∧ yearsFromApi page'.1 = yearsFromApi st
   ∧ updatePreview page'.1 = updatePreview st
   ∧ error page'.1 ≠ ""%string
   ∧ sent page'.2 = sent net ++ [SaveEntryRequest payload])
  ∧ (let page' := loadEntries P (st, net) in
     entries page'.1 = []
     ∧ error page'.1 ≠ ""%string
     ∧ sent page'.2 = sent net ++ [FetchEntriesRequest (selectedYear st)]).
Proof.
  intros Hf. split.
  - rewrite commitSave_unfold. cbn [fst snd sent].
    destruct (saveEntrySettled_failure P _ Hf) as [m ->].
    cbn [commitSaveTry entries yearsFromApi updatePreview error
         setBusy setError setInfo].
    split; [reflexivity|]. split; [reflexivity|]. split; [reflexivity|].
    split; [|reflexivity]. apply orString_nonempty. discriminate.
  - unfold loadEntries, fetchEntriesByYear, callFetch.
    assert (Hr : ∃ m, fetchEntriesSettled P (nextReply net) = Rejected m)
      by (apply fetchEntriesSettled_failure; exact Hf).
    destruct Hr as [m Hr]. unfold nextReply in Hr.
    destruct (replies net) as [|reply rest]; rewrite Hr;
      cbn [fst snd sent entries error setBusy setError setEntries selectedYear];
      (split; [reflexivity|]); (split; [|reflexivity]);
      apply orString_nonempty; discriminate.
Qed.

(** A raw entry whose [dateKey] has the canonical shape and whose
    [isSick] is a boolean is accepted without a [date], provided the
    conversion of its severity does not throw; the entry has the date
    [undefined], which is not a valid time, and a save that returns it
    puts it into the collection. *)
Lemma normalizeEntry_dateless (P : Platform) (raw : jsval) (key : string)
    (sick : bool) (sev : option jsnum) (payload : Payload) (st : HomeState)
    (net : Network) :
  isObject raw = true →
  rawProp raw "dateKey" = VStr key → matchesDateKey key = true →
  rawProp raw "isSick" = VBool sick →
  rawProp raw "date" = VUndefined →
  convertedSeverity P raw sick = Normal sev →
  ∃ e, normalizeEntry P raw = Normal (Some e)
       ∧ date e = VUndefined ∧ dateKey e = key ∧ isSick e = sick
       ∧ entryTime P e = None
       ∧ (saveEntrySettled P (nextReply net) = Resolved (VObj [("entry", raw)]) →
          e ∈ entries (commitSave P payload (st, net)).1).
Proof.
  intros Ho Hk Hv Hs Hd Hc. rewrite (normalizeEntry_object P raw Ho).
  unfold derivedDateKey. rewrite Hk, Hv, Hs, Hd, Hc.
  cbn [mbind completion_bind bindC]. eexists.
  split; [reflexivity|]. cbn [date dateKey isSick].
  split; [reflexivity|]. split; [reflexivity|]. split; [reflexivity|].
  split; [reflexivity|].
  intros Hr. rewrite commitSave_unfold, Hr. cbn [fst].
  unfold commitSaveTry.
  change (getProp P (VObj [("entry", raw)]) "entry") with (Normal raw).
  cbn [mbind completion_bind bindC].
  rewrite (normalizeEntry_object P raw Ho).
  unfold derivedDateKey. rewrite Hk, Hv, Hs, Hd, Hc.
  cbn [mbind completion_bind bindC entries setBusy setInfo
    setUpdatePreview setYearsFromApi setEntries setError].
  apply mergeSaved_elem.
Qed.

(** C10: the code breaks the claim.  The raw entry [{"dateKey":
    "2024-03-05", "isSick": true, "severity": {"toString": 1}}] is an
    object with a canonical date key and a boolean [isSick] and without a
    date, and [normalizeEntry] returns no entry for it: [Number(raw.severity
    || 1)] throws a [TypeError], as [new Date(raw.date)] does for the raw
    entry of C6. *)
Theorem normalizeEntry_throws_on_severity (P : Platform) :
  isObject raw_severity_unconvertible = true
  ∧ rawProp raw_severity_unconvertible "dateKey" = VStr "2024-03-05"
  ∧ matchesDateKey "2024-03-05" = true
  ∧ rawProp raw_severity_unconvertible "isSick" = VBool true
  ∧ rawProp raw_severity_unconvertible "date" = VUndefined
  ∧ normalizeEntry P raw_severity_unconvertible = Throw (primitiveErrorText P).
Proof. repeat split. Qed.

(** ** Properties of normalisation, checked on samples *)

(** The examples of the specification. *)
Example normalizeEntry_examples (P : Platform) :
  normalizeEntry P raw_sick_3 = Normal (Some (entry_sick 3))
  ∧ (∃ e, normalizeEntry P raw_healthy_4 = Normal (Some e) ∧ severity e = None)
  ∧ normalizeEntry P (VObj [("isSick", VStr "yes")]) = Normal None
  ∧ normalizeEntry P (VObj []) = Normal None
  ∧ normalizeEntry P (VObj [("dateKey", VStr "2024-13-40")]) = Normal None
  ∧ normalizeEntry P VNull = Normal None
  ∧ normalizeEntry P VUndefined = Normal None.
Proof. repeat split; try reflexivity. eexists; split; reflexivity. Qed.

(** The sick entry of severity 3 of the specification. *)
Lemma normalizeEntry_severity_sick_3 :
  rawProp raw_sick_3 "isSick" = VBool (isSick (entry_sick 3))
  ∧ Normal (severity (entry_sick 3)) =
      if isSick (entry_sick 3)
      then if truthy (rawProp raw_sick_3 "severity")
           then n ← ToNumber barePlatform (rawProp raw_sick_3 "severity");
                Normal (Some n)
           else Normal (Some (intNum 1))
      else Normal None.
Proof.
  apply (normalizeEntry_severity barePlatform raw_sick_3 (entry_sick 3)).
  vm_compute. reflexivity.
Defined.

(** The same entry: its severity is in range. *)
Lemma normalizeEntry_severity_range_sick_3 :
  if isSick (entry_sick 3)
  then ∃ n, severity (entry_sick 3) = Some n
            ∧ ((∃ m, rawProp raw_sick_3 "severity" = VNum m ∧ inSeverityRange m)
               ∨ truthy (rawProp raw_sick_3 "severity") = false →
               inSeverityRange n)
  else severity (entry_sick 3) = None.
Proof.
  apply (normalizeEntry_severity_range barePlatform raw_sick_3 (entry_sick 3)).
  vm_compute. reflexivity.
Defined.

(** C8 as stated fails for a severity of 9, which [normalizeEntry] lets
    through. *)
Lemma normalizeEntry_severity_9 :
  normalizeEntry barePlatform raw_sick_9 = Normal (Some (entry_sick 9))
  ∧ ¬ severityInvariant (entry_sick 9).
Proof.
  split; [vm_compute; reflexivity|].
  unfold severityInvariant. cbn [isSick entry_sick severity].
  intros (n & [= <-] & z & Hz & Hq). unfold Qeq in Hq. cbn in Hq. lia.
Qed.

(** Submitting 1 June 2024 on a page without entries. *)
Lemma onSubmit_confirmation_june_1 :
  ∃ payload page',
    submitPayload barePlatform emptyPage = Normal payload
    ∧ onSubmit barePlatform (emptyPage, failingNetwork) = Normal page'
    ∧ ((∃ e, collidingEntry emptyPage e)
       ↔ is_Some (updatePreview page'.1) ∧ sent page'.2 = sent failingNetwork)
    ∧ ((∃ e, collidingEntry emptyPage e) →
       ∃ e, collidingEntry emptyPage e
            ∧ page' = (setUpdatePreview
                         (Some {| existing := e; next := payload;
                                  previewDateKey := toDateKey (formDate emptyPage) |})
                         emptyPage, failingNetwork))
    ∧ (¬ (∃ e, collidingEntry emptyPage e) →
       page' = commitSave barePlatform payload (emptyPage, failingNetwork)
       ∧ sent page'.2 = sent failingNetwork ++ [SaveEntryRequest payload]).
Proof.
  apply (onSubmit_confirmation barePlatform emptyPage failingNetwork 1717200000000).
  - vm_compute. reflexivity.
  - vm_compute. discriminate.
Defined.

(** A server that answers with an error status. *)
Lemma transport_failure_server_error :
  (let page' := commitSave barePlatform somePayload
                  (withEntries [entry_april] emptyPage, failingNetwork) in
   entries page'.1 = entries (withEntries [entry_april] emptyPage)
   ∧ yearsFromApi page'.1 = yearsFromApi (withEntries [entry_april] emptyPage)
   ∧ updatePreview page'.1 = updatePreview (withEntries [entry_april] emptyPage)
   ∧ error page'.1 ≠ ""%string
   ∧ sent page'.2 = sent failingNetwork ++ [SaveEntryRequest somePayload])
  ∧ (let page' := loadEntries barePlatform
                    (withEntries [entry_april] emptyPage, failingNetwork) in
     entries page'.1 = []
     ∧ error page'.1 ≠ ""%string
     ∧ sent page'.2 = sent failingNetwork
                      ++ [FetchEntriesRequest
                            (selectedYear (withEntries [entry_april] emptyPage))]).
Proof.
  apply (transport_failure barePlatform somePayload
           (withEntries [entry_april] emptyPage) failingNetwork).
  vm_compute. reflexivity.
Defined.

(** ** More on the grid *)

Lemma entriesByKey_lookup (l : list Entry) (k : string) :
  entriesByKey l !! k = last (filter (λ e, dateKey e = k) l).
Proof.
  unfold entriesByKey.
  induction l as [|e l IH] using rev_ind; [reflexivity|].
  rewrite foldl_app, filter_app. cbn [foldl].
  rewrite filter_cons, filter_nil.
  destruct (decide (dateKey e = k)) as [E|E].
  - rewrite E, lookup_insert. rewrite decide_True by reflexivity.
    symmetry. apply last_snoc.
  - rewrite lookup_insert_ne by exact E. rewrite app_nil_r. exact IH.
Qed.

(** The time of the cell of day [k] in a grid that has columns. *)
Lemma cellOfDay_time y n byKey k :
  weekCount y = Some n → 0 < n →
  0 <= k <= DayFromYear (MakeFullYear (y + 1)) - DayFromYear (MakeFullYear y) →
  cellDate (cellOfDay y byKey k)
  = Some ((DayFromYear (MakeFullYear y) + k) * msPerDay).
Proof.
  intros Hn Hpos Hk.
  destruct (weekCount_Some y n Hn Hpos) as (HD0 & HD01 & HD1 & _).
  cbn [cellOfDay cellDate]. unfold UTC.
  rewrite MakeDay_year_start. apply TimeClip_days. lia.
Qed.

Lemma week_of_grid y entries w :
  w ∈ weeks (buildYearGrid y entries) →
  ∃ n, weekCount y = Some n ∧ 0 <= index w < n
       ∧ days w = map (λ d, dayCell y (entriesByKey entries) (index w * 7 + d))
                      (seqZ 0 7)
       ∧ monthBreakBefore w = bool_decide (index w ∈ monthStarts y).
Proof.
  cbn [buildYearGrid weeks]. unfold weekColumns.
  destruct (weekCount y) as [n|] eqn:Hn; [|intros H; inversion H].
  intros H. apply list_elem_of_fmap in H as (i & -> & Hi).
  apply elem_of_seqZ in Hi. exists n. cbn. repeat split; try lia; reflexivity.
Qed.

Lemma getUTCDay_midnight d : getUTCDay (Some (d * msPerDay)) = Some (WeekDay d).
Proof. cbn. unfold compose. rewrite Day_midnight. reflexivity. Qed.

(** X1: in the grid of any year, a day cell in row [d] of its column has
    a date whose weekday is [d] (0 = Sunday): the rows are the days of the
    week. *)
Theorem cell_row_is_weekday (y : Z) (entries : list Entry) (w : WeekColumn)
    (d : nat) (c : DayCell) :
  w ∈ weeks (buildYearGrid y entries) →
  days w !! d = Some (Some c) →
  getUTCDay (cellDate c) = Some (Z.of_nat d).
Proof.
  intros Hw Hd.
  destruct (week_of_grid _ _ _ Hw) as (n & Hn & Hi & Hdays & _).
  assert (0 < n) as Hpos by lia.
  destruct (weekCount_Some y n Hn Hpos) as (HD0 & HD01 & HD1 & _ & Ho & Ht & _).
  rewrite Hdays in Hd. rewrite list_lookup_fmap in Hd.
  destruct (seqZ 0 7 !! d) as [d'|] eqn:Hd'; [|discriminate].
  apply lookup_seqZ in Hd' as [-> Hlt]. cbn in Hd.
  rewrite (dayCell_window y _ _ _ _ Ho Ht) in Hd.
  destruct ((_ <=? _) && _) eqn:Hin; [|discriminate].
  apply andb_true_iff in Hin as [H1 H2].
  apply Z.leb_le in H1. apply Z.ltb_lt in H2.
  injection Hd as <-.
  rewrite (cellOfDay_time y n) by (try assumption; lia).
  rewrite getUTCDay_midnight. f_equal.
  unfold WeekDay in *. Z.div_mod_to_equations. lia.
Qed.

(** The numbers of the grid of a counted year. *)
Lemma weekCount_counted y :
  countedYear y →
  ∃ o, offset y = Some o ∧ 0 <= o <= 6
       ∧ weekCount y = Some (- (- (o + DaysInYear y) / 7)).
Proof.
  intros Hy. pose proof (totalDays_counted y Hy) as Ht.
  unfold weekCount, totalCells. rewrite Ht.
  unfold totalDays, dayDiffUtc in Ht.
  unfold offset. destruct (jan1 y) as [t0|]; [|discriminate].
  cbn. unfold compose. eexists. split; [reflexivity|].
  split; [apply WeekDay_bounds|reflexivity].
Qed.

Lemma weeks_map y entries n :
  weekCount y = Some n →
  weeks (buildYearGrid y entries)
  = map (λ w, {| index := w;
                 days := map (λ d, dayCell y (entriesByKey entries) (w * 7 + d))
                             (seqZ 0 7);
                 monthBreakBefore := bool_decide (w ∈ monthStarts y) |})
        (seqZ 0 n).
Proof. intros Hn. cbn [buildYearGrid weeks]. unfold weekColumns. rewrite Hn. reflexivity. Qed.


(** X3: a day cell of the grid shows the last entry of the list that has
    the cell's key, or none if no entry has it; the cell's key is the key
    of its date. *)
Theorem cell_entry_is_last (y : Z) (entries : list Entry) (c : DayCell) :
  c ∈ dayCells (buildYearGrid y entries) →
  cellEntry c = last (filter (λ e, dateKey e = cellDateKey c) entries)
  ∧ cellDateKey c = toDateKey (cellDate c).
Proof.
  rewrite dayCells_any. intros H.
  apply list_elem_of_fmap in H as (k & -> & _).
  cbn [cellOfDay cellEntry cellDateKey cellDate].
  split; [apply entriesByKey_lookup|reflexivity].
Qed.

Lemma leapDays_counted y : countedYear y → leapDays (MakeFullYear y) = leapDays y.
Proof.
  intros (Hr & H1 & H0 & H99). unfold MakeFullYear.
  destruct ((0 <=? y) && (y <=? 99)) eqn:E; [|reflexivity].
  apply andb_true_iff in E as [E1 E2].
  apply Z.leb_le in E1. apply Z.leb_le in E2.
  unfold leapDays. rewrite InLeapYear_1900 by lia. reflexivity.
Qed.

(** The numbers of the layout of a counted year: the weekday [o] of its
    first cell, the leap day count [l] and the week count. *)
Lemma layout_counted y :
  countedYear y →
  ∃ o l n, 0 <= o <= 6 ∧ 0 <= l <= 1 ∧ n = - (- (o + 365 + l) / 7)
    ∧ weekCount y = Some n
    ∧ (∀ m, 0 <= m <= 11 → monthStartWeek y m = Some ((o + monthStartDay l m) / 7))
    ∧ (∀ m, 0 <= m <= 11 →
         monthEndWeek y m
         = Some (if m =? 11 then n else - (- (o + monthStartDay l (m + 1)) / 7))).
Proof.
  intros Hy. destruct (weekCount_counted y Hy) as (o & Ho & Hob & Hn).
  assert (0 < - (- (o + DaysInYear y) / 7)) as Hpos.
  { pose proof (DaysInYear_bounds y). Z.div_mod_to_equations. lia. }
  destruct (weekCount_Some y _ Hn Hpos) as (_ & _ & _ & _ & Ho' & _).
  rewrite Ho in Ho'. injection Ho' as Ho'.
  exists o, (leapDays y), (- (- (o + DaysInYear y) / 7)).
  split; [exact Hob|]. split; [apply leapDays_bounds|].
  split; [rewrite DaysInYear_leapDays; f_equal; f_equal; f_equal; lia|].
  split; [exact Hn|]. split.
  - intros m Hm. rewrite (monthStartWeek_valid y _ m Hn Hpos Hm).
    rewrite <- Ho', leapDays_counted by exact Hy. reflexivity.
  - intros m Hm. rewrite (monthEndWeek_valid y _ m Hn Hpos Hm).
    rewrite <- Ho', leapDays_counted by exact Hy. reflexivity.
Qed.

(** X4: in the grid of a counted year there are twelve month labels; the
    label of January begins in column 0, and every label spans four to six
    week columns, all of them columns of the grid. *)
Theorem month_labels_shape (y : Z) (entries : list Entry) :
  countedYear y →
  let g := buildYearGrid y entries in
  length (monthLayout g) = 12%nat
  ∧ ∀ (i : nat) ml, monthLayout g !! i = Some ml →
      ∃ s n, startWeek ml = Some s ∧ spanWeeks ml = Some n
             ∧ (i = 0%nat → s = 0) ∧ 0 <= s ∧ 4 <= n <= 6
             ∧ s + n <= Z.of_nat (length (weeks g)).
Proof.
  intros Hy g.
  destruct (layout_counted y Hy) as (o & l & n & Ho & Hl & Hn & Hw & Hs & He).
  split.
  { unfold g. cbn [buildYearGrid monthLayout]. unfold monthLayoutData.
    rewrite length_map, length_seqZ. reflexivity. }
  intros i ml Hi.
  destruct (monthLayout_lookup y entries i ml Hi) as (Hlt & Hstart & Hspan).
  assert (0 <= Z.of_nat i <= 11) as Hm by lia.
  rewrite (Hs _ Hm) in Hstart, Hspan. rewrite (He _ Hm) in Hspan.
  cbn in Hspan.
  eexists _, _. split; [exact Hstart|]. split; [exact Hspan|].
  unfold g. rewrite (weeks_map y entries n Hw), length_map, length_seqZ.
  assert (0 < n) by (subst n; Z.div_mod_to_equations; lia).
  rewrite Z2Nat.id by lia.
  assert (l = 0 ∨ l = 1) as Hl' by lia.
  split.
  { intros ->. change (Z.of_nat 0) with 0. cbn [monthStartDay].
    clear - Ho. Z.div_mod_to_equations. lia. }
  set (m := Z.of_nat i) in *. clearbody m.
  clear Hi Hstart Hspan Hs He Hw Hlt.
  month_cases m Hc; cbn [monthStartDay Z.eqb Pos.eqb];
    try match goal with
    | |- context [monthStartDay _ (?a + 1)] =>
        let v := eval vm_compute in (a + 1) in change (a + 1) with v
    end;
    cbn [monthStartDay];
    destruct Hl' as [-> | ->]; subst n; Z.div_mod_to_equations; lia.
Qed.

(** ** Month breaks *)

Lemma StronglySorted_filter {A} (R : relation A) (Q : A → Prop)
    `{∀ x, Decision (Q x)} (l : list A) :
  StronglySorted R l → StronglySorted R (filter Q l).
Proof.
  induction 1 as [|x l Hl IH Hx]; [constructor|].
  rewrite filter_cons. destruct (decide (Q x)); [|exact IH].
  constructor; [exact IH|].
  apply Forall_forall. intros z Hz. apply list_elem_of_filter in Hz as [_ Hz].
  rewrite Forall_forall in Hx. auto.
Qed.

Lemma filter_fmap {A B} (f : A → B) (Q : B → Prop) `{∀ x, Decision (Q x)}
    (l : list A) :
  filter Q (map f l) = map f (filter (λ x, Q (f x)) l).
Proof.
  induction l as [|x l IH]; [reflexivity|].
  cbn [map]. rewrite !filter_cons.
  destruct (decide (Q (f x))); cbn [map]; rewrite IH; reflexivity.
Qed.

Lemma seqZ_sorted m n : StronglySorted Z.lt (seqZ m n).
Proof.
  destruct (decide (n <= 0)) as [Hn|Hn]; [rewrite seqZ_nil by lia; constructor|].
  replace n with (Z.of_nat (Z.to_nat n)) by lia.
  generalize (Z.to_nat n) as k. clear. intros k. revert m.
  induction k as [|k IH]; intros m; [constructor|].
  rewrite seqZ_cons by lia.
  replace (Z.pred (Z.of_nat (S k))) with (Z.of_nat k) by lia.
  constructor; [apply IH|].
  apply Forall_forall. intros z Hz. apply elem_of_seqZ in Hz. lia.
Qed.

(** A list of integers in strictly ascending order, all among the first
    [n] naturals, is what the filter for its members leaves of them. *)
Lemma filter_seqZ_members (l : list Z) (n : Z) :
  StronglySorted Z.lt l → (∀ x, x ∈ l → 0 <= x < n) →
  filter (λ w, w ∈ l) (seqZ 0 n) = l.
Proof.
  intros Hs Hin.
  apply (StronglySorted_unique_strong Z.lt).
  - intros; lia.
  - apply StronglySorted_filter, seqZ_sorted.
  - exact Hs.
  - apply NoDup_Permutation.
    + apply NoDup_filter, NoDup_seqZ.
    + clear Hin. induction Hs as [|x l Hl IH Hx]; constructor; [|exact IH].
      intros Hm. rewrite Forall_forall in Hx. specialize (Hx _ Hm). lia.
    + intros x. rewrite list_elem_of_filter, elem_of_seqZ.
      split; [tauto|]. intros Hx. split; [exact Hx|]. specialize (Hin _ Hx). lia.
Qed.

(** The start weeks of February to December are apart. *)
Lemma month_starts_sorted o l :
  0 <= o <= 6 → 0 <= l <= 1 →
  StronglySorted Z.lt (map (λ m, (o + monthStartDay l m) / 7) (seqZ 1 11)).
Proof.
  intros Ho Hl. apply Sorted_StronglySorted; [apply _|].
  change (seqZ 1 11) with [1; 2; 3; 4; 5; 6; 7; 8; 9; 10; 11].
  cbn [map monthStartDay].
  repeat (constructor; [|try constructor; Z.div_mod_to_equations; lia]).
  constructor.
Qed.

Lemma monthStarts_counted y o l :
  0 <= o <= 6 → 0 <= l <= 1 →
  (∀ m, 0 <= m <= 11 → monthStartWeek y m = Some ((o + monthStartDay l m) / 7)) →
  ∀ w, w ∈ monthStarts y
       ↔ w ∈ map (λ m, (o + monthStartDay l m) / 7) (seqZ 1 11).
Proof.
  intros Ho Hl Hs w. unfold monthStarts.
  rewrite elem_of_list_to_set, list_elem_of_omap, list_elem_of_fmap.
  split.
  - intros (m & Hm & Hw). apply elem_of_seqZ in Hm.
    rewrite Hs in Hw by lia. cbn in Hw.
    destruct (0 <? _) eqn:E; [|discriminate]. injection Hw as <-.
    apply Z.ltb_lt in E. exists m. split; [reflexivity|].
    apply elem_of_seqZ.
    assert (m ≠ 0); [|lia]. intros ->. cbn [monthStartDay] in E.
    revert E. Z.div_mod_to_equations. lia.
  - intros (m & -> & Hm). apply elem_of_seqZ in Hm. exists m.
    split; [apply elem_of_seqZ; lia|]. rewrite Hs by lia. cbn.
    destruct (0 <? _) eqn:E; [reflexivity|]. exfalso.
    apply Z.ltb_ge in E. revert E.
    assert (31 <= monthStartDay l m).
    { month_cases m Hc; cbn [monthStartDay]; lia. }
    Z.div_mod_to_equations. lia.
Qed.

Lemma markedColumns_counted y entries :
  countedYear y →
  ∃ o l, 0 <= o <= 6 ∧ 0 <= l <= 1
    ∧ markedColumns (buildYearGrid y entries)
      = map (λ m, (o + monthStartDay l m) / 7) (seqZ 1 11)
    ∧ map (monthStartWeek y) (seqZ 1 11)
      = map Some (map (λ m, (o + monthStartDay l m) / 7) (seqZ 1 11)).
Proof.
  intros Hy.
  destruct (layout_counted y Hy) as (o & l & n & Ho & Hl & Hn & Hw & Hs & _).
  pose proof (month_starts_sorted o l Ho Hl) as Hsorted.
  exists o, l. split; [exact Ho|]. split; [exact Hl|]. split.
  - unfold markedColumns. rewrite (weeks_map y entries n Hw).
    rewrite filter_fmap, map_map. cbn [index]. rewrite map_id.
    rewrite <- (filter_seqZ_members _ n Hsorted).
    + apply list_filter_iff. intros w. cbn [monthBreakBefore].
      rewrite bool_decide_eq_true. apply (monthStarts_counted y o l Ho Hl Hs).
    + intros x Hx. apply list_elem_of_fmap in Hx as (m & -> & Hm).
      apply elem_of_seqZ in Hm. subst n.
      assert (l = 0 ∨ l = 1) as [-> | ->] by lia;
        month_cases m Hc; cbn [monthStartDay]; Z.div_mod_to_equations; lia.
  - rewrite map_map. apply map_ext_in. intros m Hm.
    apply list_elem_of_In, elem_of_seqZ in Hm. rewrite Hs by lia. reflexivity.
Qed.

(** X5: in the grid of a counted year the columns marked with a month
    break are, in order, the columns in which February to December begin:
    eleven different columns, column 0 never among them. *)
Theorem month_breaks (y : Z) (entries : list Entry) :
  countedYear y →
  let marked := markedColumns (buildYearGrid y entries) in
  map Some marked = map (monthStartWeek y) (seqZ 1 11)
  ∧ StronglySorted Z.lt marked
  ∧ 0 ∉ marked.
Proof.
  intros Hy marked.
  destruct (markedColumns_counted y entries Hy) as (o & l & Ho & Hl & Hm & Hs).
  unfold marked. rewrite Hm, Hs.
  split; [reflexivity|]. split; [apply month_starts_sorted; assumption|].
  intros H0. apply list_elem_of_fmap in H0 as (m & H0 & Hin).
  apply elem_of_seqZ in Hin.
  assert (31 <= monthStartDay l m).
  { month_cases m Hc; cbn [monthStartDay]; lia. }
  revert H0. Z.div_mod_to_equations. lia.
Qed.

(** ** The month gaps of the calendar heat map *)

Lemma foldl_addToSet_fresh (f : Z → num) (ms : list Z) (acc : list num) :
  NoDup (acc ++ map f ms) →
  foldl (λ set m, addToSet (f m) set) acc ms = acc ++ map f ms.
Proof.
  revert acc. induction ms as [|m ms IH]; intros acc Hnd.
  - cbn. rewrite app_nil_r. reflexivity.
  - cbn [foldl map]. unfold addToSet at 2.
    apply NoDup_app in Hnd as Hnd'. destruct Hnd' as (_ & Hdis & _).
    destruct (decide (f m ∈ acc)) as [Hin|_].
    { exfalso. apply (Hdis _ Hin). left. }
    rewrite IH; rewrite <- app_assoc; [reflexivity|exact Hnd].
Qed.

Lemma sortWith_in_order {A} (compare : A → A → num) (l : list A) :
  StronglySorted
    (λ a b, match compare a b with Some c => c <= 0 | None => True end) l →
  sortWith compare l = l.
Proof.
  intros Hs. unfold sortWith.
  set (after := λ a b, match compare a b with Some c => 0 <? c | None => false end).
  assert (∀ l acc,
            StronglySorted (λ a b, after a b = false) (rev acc ++ l) →
            foldl (λ sortedRev x, insertDown after x sortedRev) acc l
            = rev l ++ acc) as Hfold.
  { clear. intros l. induction l as [|x l IH]; intros acc Hs; [reflexivity|].
    cbn [foldl rev]. rewrite <- app_assoc. cbn [app].
    assert (insertDown after x acc = x :: acc) as ->.
    { destruct acc as [|z acc]; [reflexivity|]. cbn [insertDown].
      rewrite (StronglySorted_app_1_elem_of _ _ _ z x Hs); [reflexivity| |left].
      cbn [rev]. apply elem_of_app. right. left. }
    apply IH. cbn [rev]. rewrite <- app_assoc. exact Hs. }
  rewrite Hfold.
  - rewrite app_nil_r. apply rev_involutive.
  - cbn [rev app]. revert Hs. apply StronglySorted_weaken.
    intros a b. unfold after. destruct (compare a b); [|reflexivity].
    intros Hc. apply Z.ltb_ge. exact Hc.
Qed.

(** X6: for a counted year the calendar heat map puts its month gaps at
    the columns the grid marks with a month break, in the same order. *)
Theorem monthBoundaryWeeks_marked (y : Z) (entries : list Entry) :
  countedYear y →
  monthBoundaryWeeks y = map Some (markedColumns (buildYearGrid y entries)).
Proof.
  intros Hy.
  destruct (markedColumns_counted y entries Hy) as (o & l & Ho & Hl & Hm & Hs).
  pose proof (month_starts_sorted o l Ho Hl) as Hsorted.
  rewrite Hm. unfold monthBoundaryWeeks.
  change (foldl _ [] (seqZ 1 11))
    with (foldl (λ set m, addToSet (monthStartWeek y m) set) [] (seqZ 1 11)).
  cbv zeta.
  assert (StronglySorted (λ a b : num, match nsub a b with
                                       | Some c => c <= 0 | None => True end)
            (map Some (map (λ m, (o + monthStartDay l m) / 7) (seqZ 1 11))))
    as Hsorted'.
  { apply (StronglySorted_fmap Some Z.lt); [|exact Hsorted].
    intros a b Hab. cbn. lia. }
  rewrite foldl_addToSet_fresh; rewrite app_nil_l, Hs.
  - apply sortWith_in_order. exact Hsorted'.
  - apply (NoDup_fmap_2 Some). clear - Hsorted.
    induction Hsorted as [|x k Hk IH Hx]; constructor; [|exact IH].
    intros Hin. rewrite Forall_forall in Hx. specialize (Hx _ Hin). lia.
Qed.

(** ** Colours *)

Lemma numIs_Qeq q z k : (q == inject_Z z)%Q → numIs (Finite q) k = (z =? k).
Proof.
  intros Hq. cbn [numIs].
  destruct (z =? k) eqn:E.
  - apply Z.eqb_eq in E. subst k. apply Qeq_bool_iff. exact Hq.
  - apply Z.eqb_neq in E. destruct (Qeq_bool q (inject_Z k)) eqn:E'; [|reflexivity].
    apply Qeq_bool_iff in E'. rewrite Hq in E'.
    unfold Qeq in E'. cbn in E'. lia.
Qed.

Lemma shades_in_range n :
  inSeverityRange n →
  ∃ z, 1 <= z <= 5 ∧ (∀ k, numIs n k = (z =? k)).
Proof.
  destruct n as [| |q]; cbn [inSeverityRange]; try tauto.
  intros (z & Hz & Hq). exists z. split; [exact Hz|].
  intros k. apply numIs_Qeq. exact Hq.
Qed.

Lemma shades_none n :
  ¬ inSeverityRange n → shades (Some n) = None.
Proof.
  intros Hn. cbn [shades].
  assert (∀ k, 1 <= k <= 5 → numIs n k = false) as Hk.
  { intros k Hk. destruct (numIs n k) eqn:E; [|reflexivity]. exfalso. apply Hn.
    destruct n as [| |q]; cbn [numIs] in E; try discriminate.
    cbn [inSeverityRange]. exists k. split; [exact Hk|]. apply Qeq_bool_iff. exact E. }
  rewrite !Hk by lia. reflexivity.
Qed.

(** X7: the colour of a cell tells the statuses apart.  No entry alone is
    drawn white and a healthy entry alone green; sick entries with a
    severity from 1 to 5 have the same colour only if they have the same
    severity; a sick entry with any other severity has the colour of
    severity 1. *)
Theorem colorForEntry_tells_apart :
  (∀ e, colorForEntry (Some e) ≠ colorForEntry None)
  ∧ (∀ a b, isSick a = false → isSick b = true →
            colorForEntry (Some a) ≠ colorForEntry (Some b))
  ∧ (∀ a b m n,
       isSick a = true → isSick b = true →
       severity a = Some (intNum m) → severity b = Some (intNum n) →
       1 <= m <= 5 → 1 <= n <= 5 →
       (colorForEntry (Some a) = colorForEntry (Some b) ↔ m = n))
  ∧ (∀ e, isSick e = true →
          ¬ (∃ n, severity e = Some n ∧ inSeverityRange n) →
          colorForEntry (Some e) = colorForEntry (Some (entry_sick 1))).
Proof.
  assert (∀ s, ∃ c, match shades s with
                    | Some shade => shade
                    | None => default ""%string (shades (Some (intNum 1)))
                    end = c
                    ∧ c ≠ "#ffffff"%string ∧ c ≠ "#2ecc71"%string) as Hshade.
  { intros s. eexists. split; [reflexivity|].
    destruct s as [n|]; cbn [shades]; [|split; discriminate].
    repeat (match goal with |- context [numIs n ?k] => destruct (numIs n k) end);
      split; discriminate. }
  split; [|split; [|split]].
  - intros e. cbn [colorForEntry]. destruct (isSick e); cbn [negb]; [|discriminate].
    destruct (Hshade (severity e)) as (c & -> & Hc & _). exact Hc.
  - intros a b Ha Hb. cbn [colorForEntry]. rewrite Ha, Hb. cbn [negb].
    destruct (Hshade (severity b)) as (c & -> & _ & Hc). congruence.
  - intros a b m n Ha Hb Hm Hn Hmr Hnr. cbn [colorForEntry].
    rewrite Ha, Hb, Hm, Hn. cbn [negb shades]. rewrite !numIs_int.
    assert (m = 1 ∨ m = 2 ∨ m = 3 ∨ m = 4 ∨ m = 5) as Hcm by lia.
    assert (n = 1 ∨ n = 2 ∨ n = 3 ∨ n = 4 ∨ n = 5) as Hcn by lia.
    clear - Hcm Hcn.
    repeat (destruct Hcm as [Hcm|Hcm]); repeat (destruct Hcn as [Hcn|Hcn]);
      subst m n; cbn; split; intros H; first [reflexivity | discriminate H | lia].
  - intros e He Hno. cbn [colorForEntry]. rewrite He. cbn [negb].
    destruct (severity e) as [n|] eqn:Hs; [|reflexivity].
    rewrite shades_none; [reflexivity|].
    intros Hn. apply Hno. exists n. split; [reflexivity|exact Hn].
Qed.

(** ** The scale of the calendar heat map *)

Section Scale.

Variable fl : Q → Q.

Lemma severityOrOne_cases s :
  (∃ q, severityOrOne s = Finite q) ∨ (∃ b, severityOrOne s = Infinity b).
Proof.
  destruct s as [[| b |q]|]; cbn; eauto.
  destruct (negb _); eauto.
Qed.

Lemma clamp_range n :
  n ≠ NaN → ∃ q, min6 (max2 n) = Finite q ∧ (2 <= q <= 6)%Q.
Proof.
  intros Hn. destruct n as [| [|] |q]; [congruence| | |].
  - exists (inject_Z 2). cbn. split; [reflexivity|]. split; discriminate.
  - exists (inject_Z 6). cbn. split; [reflexivity|]. split; discriminate.
  - cbn [max2]. destruct (Qle_bool q (inject_Z 2)) eqn:E2.
    + exists (inject_Z 2). cbn. split; [reflexivity|]. split; discriminate.
    + cbn [min6]. destruct (Qle_bool (inject_Z 6) q) eqn:E6.
      * exists (inject_Z 6). split; [reflexivity|]. split; discriminate.
      * exists q. split; [reflexivity|]. split.
        -- apply Qlt_le_weak, Qnot_le_lt. intros H.
           apply Qle_bool_iff in H. change 2%Q with (inject_Z 2) in H. congruence.
        -- apply Qlt_le_weak, Qnot_le_lt. intros H.
           apply Qle_bool_iff in H. change 6%Q with (inject_Z 6) in H. congruence.
Qed.

(** X8: the scale of a day is a number from 0 to 6: 0 for no entry, 1 for
    a healthy entry, and from 2 to 6 for a sick entry whatever its
    severity is. *)
Theorem entryToScale_range (entry : option Entry) :
  ∃ q, entryToScale fl entry = Finite q
       ∧ match entry with
         | None => q = inject_Z 0
         | Some e => if isSick e then (2 <= q <= 6)%Q else q = inject_Z 1
         end.
Proof.
  destruct entry as [e|]; cbn [entryToScale]; [|eexists; split; reflexivity].
  destruct (isSick e); cbn [negb]; [|eexists; split; reflexivity].
  apply clamp_range.
  destruct (severityOrOne_cases (severity e)) as [[q ->]|[b ->]]; discriminate.
Qed.

End Scale.

Lemma pieceColor_int n z :
  (∀ k, numIs n k = (z =? k)) → 0 <= z <= 6 →
  pieceColor n = pieces !! Z.to_nat z ≫= (λ piece, Some (snd piece)).
Proof.
  intros Hk Hz. unfold pieceColor, pieces. cbn [List.find fst]. rewrite !Hk.
  assert (z = 0 ∨ z = 1 ∨ z = 2 ∨ z = 3 ∨ z = 4 ∨ z = 5 ∨ z = 6) as Hc by lia.
  clear - Hc. repeat (destruct Hc as [Hc|Hc]); subst z; reflexivity.
Qed.

(** X9: the two heat maps colour alike what the data model allows: for
    no entry, a healthy entry and a sick entry with a severity from 1 to
    5, the piece of the visual map that has the value of the scale has
    the colour the grid gives the cell.  They part above 5: the calendar
    heat map draws the darkest shade, the grid the lightest. *)
Theorem scale_colour (fl : Q → Q) :
  roundsToNearest fl →
  (∀ entry, (∀ e, entry = Some e → severityInvariant e) →
            pieceColor (entryToScale fl entry) = Some (colorForEntry entry))
  ∧ (∀ e s, isSick e = true → severity e = Some (intNum s) → 5 < s →
            pieceColor (entryToScale fl (Some e))
            = Some (colorForEntry (Some (entry_sick 5)))
            ∧ colorForEntry (Some e) = colorForEntry (Some (entry_sick 1))).
Proof.
  intros [Hmono Hexact]. split.
  - intros [e|] Hinv; [|reflexivity].
    specialize (Hinv e eq_refl). unfold severityInvariant in Hinv.
    cbn [entryToScale colorForEntry].
    destruct (isSick e); cbn [negb]; [|reflexivity].
    destruct Hinv as (n & Hs & Hn). rewrite Hs.
    pose proof (inSeverityRange_truthy n Hn) as Ht.
    destruct n as [| |q]; cbn [inSeverityRange] in Hn; try tauto.
    destruct Hn as (z & Hz & Hq).
    cbn [severityOrOne]. rewrite Ht. cbn [plusOne].
    assert (fl (q + 1) == inject_Z (z + 1))%Q as Hfl.
    { apply Hexact; [|lia]. rewrite Hq, inject_Z_plus. reflexivity. }
    assert (∃ r, min6 (max2 (Finite (fl (q + 1)%Q))) = Finite r
                 ∧ (r == inject_Z (z + 1))%Q) as (r & -> & Hr).
    { cbn [max2]. destruct (Qle_bool (fl (q + 1)%Q) (inject_Z 2)) eqn:E2.
      - apply Qle_bool_iff in E2. rewrite Hfl in E2.
        rewrite <- Zle_Qle in E2. assert (z = 1) as -> by lia.
        eexists. split; reflexivity.
      - cbn [min6]. destruct (Qle_bool (inject_Z 6) (fl (q + 1)%Q)) eqn:E6.
        + apply Qle_bool_iff in E6. rewrite Hfl in E6.
          rewrite <- Zle_Qle in E6. assert (z = 5) as -> by lia.
          eexists. split; reflexivity.
        + eexists. split; [reflexivity|exact Hfl]. }
    rewrite (pieceColor_int (Finite r) (z + 1));
      [|intros k; apply numIs_Qeq; exact Hr|lia].
    cbn [shades]. rewrite !(numIs_Qeq q z) by exact Hq.
    assert (z = 1 ∨ z = 2 ∨ z = 3 ∨ z = 4 ∨ z = 5) as Hc by lia.
    clear - Hc. repeat (destruct Hc as [Hc|Hc]); subst z; reflexivity.
  - intros e s He Hs Hr. split.
    + cbn [entryToScale]. rewrite He, Hs. cbn [negb severityOrOne].
      unfold intNum at 1 2. cbn [truthyNum].
      replace (Qnum (inject_Z s) =? 0) with false
        by (symmetry; apply Z.eqb_neq; cbn; lia).
      cbn [negb plusOne].
      assert (inject_Z 6 <= fl (inject_Z s + 1)%Q)%Q as H6.
      { assert (fl (inject_Z 6) == inject_Z 6)%Q as <-
          by (apply Hexact; [reflexivity|vm_compute; discriminate]).
        apply Hmono. change 1%Q with (inject_Z 1).
        rewrite <- inject_Z_plus, <- Zle_Qle. lia. }
      cbn [max2]. destruct (Qle_bool (fl (inject_Z s + 1)%Q) (inject_Z 2)) eqn:E2.
      { apply Qle_bool_iff in E2. exfalso.
        assert (inject_Z 6 <= inject_Z 2)%Q as H by (eapply Qle_trans; eassumption).
        rewrite <- Zle_Qle in H. lia. }
      cbn [min6]. apply Qle_bool_iff in H6. rewrite H6. reflexivity.
    + cbn [colorForEntry]. rewrite He, Hs. cbn [negb shades].
      rewrite !numIs_int.
      repeat match goal with
             | |- context [s =? ?k] =>
                 replace (s =? k) with false by (symmetry; apply Z.eqb_neq; lia)
             end.
      reflexivity.
Qed.

(** ** The data points of the calendar heat map *)

Lemma MakeDay_next y m dt : MakeDay y m (dt + 1) = MakeDay y m dt + 1.
Proof. unfold MakeDay. lia. Qed.

(** Setting the day of the month to the next one moves a midnight to the
    next midnight. *)
Lemma setUTCDate_next d :
  setUTCDate (Some (d * msPerDay))
    (nadd (getUTCDate (Some (d * msPerDay))) (Some 1))
  = TimeClip ((d + 1) * msPerDay).
Proof.
  cbn. unfold compose. rewrite Day_midnight, MakeDay_next.
  destruct (day_fields d) as (_ & _ & ->).
  rewrite Z_mod_mult. f_equal. lia.
Qed.

Section Points.

Variable fl : Q → Q.

Lemma dataPointsFrom_days (byKey : gmap string Entry) (D0 D1 : Z) (fuel : nat) :
  -100000000 <= D0 → D1 <= 100000000 →
  ∀ k, 0 <= k → D0 + k <= D1 → D1 - D0 - k <= Z.of_nat fuel →
  dataPointsFrom fl fuel byKey (Some (D1 * msPerDay))
    (Some ((D0 + k) * msPerDay)) (k + 1)
  = map (λ j, {| pointKey := toDateKey (Some ((D0 + j) * msPerDay));
                 pointScale :=
                   entryToScale fl
                     (byKey !! toDateKey (Some ((D0 + j) * msPerDay)));
                 pointDay := j + 1 |})
        (seqZ k (D1 - D0 - k)).
Proof.
  intros HD0 HD1. induction fuel as [|fuel IH]; intros k Hk Hle Hfuel.
  - rewrite seqZ_nil by lia. reflexivity.
  - cbn [dataPointsFrom nlt].
    destruct ((D0 + k) * msPerDay <? D1 * msPerDay) eqn:E.
    + apply Z.ltb_lt in E. unfold msPerDay in E.
      rewrite seqZ_cons by lia. cbn [map]. f_equal.
      rewrite setUTCDate_next, TimeClip_days by lia.
      replace (D0 + k + 1) with (D0 + (k + 1)) by lia.
      rewrite IH by lia. f_equal. f_equal; lia.
    + apply Z.ltb_ge in E. unfold msPerDay in E.
      rewrite seqZ_nil by lia. reflexivity.
Qed.

Lemma imap_map_seqZ {A B} (f : nat → A → B) (g : Z → A) (n : Z) :
  imap f (map g (seqZ 0 n)) = map (λ j, f (Z.to_nat j) (g j)) (seqZ 0 n).
Proof.
  apply list_eq. intros i.
  rewrite list_lookup_imap, !list_lookup_fmap.
  destruct (seqZ 0 n !! i) as [j|] eqn:Hj; [|reflexivity].
  apply lookup_seqZ in Hj as [-> _]. cbn. do 2 f_equal. lia.
Qed.

Lemma dataPoints_imap (fuel : nat) (y : Z) (entries : list Entry) :
  default 0 (totalDays y) <= Z.of_nat fuel →
  dataPoints fl fuel y entries
  = imap (pointOfCell fl) (dayCells (buildYearGrid y entries)).
Proof.
  intros Hfuel. rewrite dayCells_any, imap_map_seqZ.
  unfold dataPoints.
  change (UTC (y + 1) 0 1) with (nextJan1 y). change (UTC y 0 1) with (jan1 y).
  rewrite jan1_any, nextJan1_any.
  set (D0 := DayFromYear (MakeFullYear y)).
  set (D1 := DayFromYear (MakeFullYear (y + 1))).
  assert (totalDays y = dayDiffUtc (TimeClip (D0 * msPerDay))
                                   (TimeClip (D1 * msPerDay))) as Ht.
  { unfold totalDays. rewrite jan1_any, nextJan1_any. reflexivity. }
  destruct (TimeClip (D0 * msPerDay)) as [t0|] eqn:E0.
  2:{ rewrite Ht. cbn. destruct fuel; reflexivity. }
  destruct (TimeClip (D1 * msPerDay)) as [t1|] eqn:E1.
  2:{ rewrite Ht. cbn. destruct fuel; reflexivity. }
  apply TimeClip_Some_days in E0 as [-> HD0].
  apply TimeClip_Some_days in E1 as [-> HD1].
  rewrite dayDiff_days in Ht. rewrite Ht in Hfuel |- *.
  change (default 0 (Some (D1 - D0))) with (D1 - D0) in Hfuel |- *.
  destruct (decide (D0 <= D1)) as [Hle|Hgt].
  - replace (D0 * msPerDay) with ((D0 + 0) * msPerDay) by (f_equal; lia).
    change 1 with (0 + 1) at 1.
    rewrite (dataPointsFrom_days _ D0 D1 fuel) by lia.
    replace (D1 - D0 - 0) with (D1 - D0) by lia.
    apply map_ext_in. intros j Hj. apply list_elem_of_In, elem_of_seqZ in Hj.
    unfold pointOfCell. cbn [cellOfDay cellDateKey cellEntry].
    unfold UTC. rewrite MakeDay_year_start. fold D0.
    rewrite TimeClip_days by lia. f_equal. lia.
  - rewrite seqZ_nil by lia. destruct fuel; [reflexivity|].
    cbn [dataPointsFrom nlt map].
    replace (D0 * msPerDay <? D1 * msPerDay) with false; [reflexivity|].
    symmetry. apply Z.ltb_ge. unfold msPerDay. lia.
Qed.

(** X10: given rounds enough for the days of the grid, the calendar heat
    map draws one data point for each day cell of the grid, in the same
    order: the point of a cell has the cell's key, the scale of the
    cell's entry, and the number of the day counted from 1. *)
Theorem dataPoints_are_day_cells (fuel : nat) (y : Z) (entries : list Entry) :
  default 0 (totalDays y) <= Z.of_nat fuel →
  length (dataPoints fl fuel y entries)
  = length (dayCells (buildYearGrid y entries))
  ∧ ∀ (i : nat) c,
      dayCells (buildYearGrid y entries) !! i = Some c →
      dataPoints fl fuel y entries !! i
      = Some {| pointKey := cellDateKey c;
                pointScale := entryToScale fl (cellEntry c);
                pointDay := Z.of_nat i + 1 |}.
Proof.
  intros Hfuel. rewrite (dataPoints_imap fuel y entries Hfuel).
  split; [apply length_imap|].
  intros i c Hc. rewrite list_lookup_imap, Hc. reflexivity.
Qed.

End Points.

(** ** Keys of dates *)

Lemma append_String c (s r : string) : String c s +:+ r = String c (s +:+ r).
Proof. reflexivity. Qed.

Lemma append_empty (r : string) : "" +:+ r = r.
Proof. reflexivity. Qed.

Ltac flatten_append :=
  repeat first [rewrite append_String | rewrite append_empty].

Lemma toDateKey_dayKey t :
  toDateKey (Some t)
  = dayKey (YearFromDay (Day t)) (MonthFromDay (Day t)) (DateFromDay (Day t)).
Proof. reflexivity. Qed.

Lemma intToString_4 y :
  1000 <= y <= 9999 →
  intToString y
  = String (digitChar (y / 1000)) (String (digitChar (y / 100 mod 10))
      (String (digitChar (y / 10 mod 10)) (String (digitChar (y mod 10)) ""))).
Proof.
  intros Hy. unfold intToString. destruct (Z.ltb_spec y 0); [lia|].
  assert (9 <= Z.log2 y) as Hlog.
  { change 9 with (Z.log2 512). apply Z.log2_le_mono. lia. }
  destruct (Z.to_nat (Z.log2 y)) as [|[|[|f]]] eqn:Hf; try lia.
  cbn [digitsOf].
  destruct (Z.ltb_spec y 10); [lia|].
  destruct (Z.ltb_spec (y / 10) 10); [Z.div_mod_to_equations; lia|].
  destruct (Z.ltb_spec (y / 10 / 10) 10); [Z.div_mod_to_equations; lia|].
  destruct (Z.ltb_spec (y / 10 / 10 / 10) 10); [|Z.div_mod_to_equations; lia].
  clear Hf Hlog.
  replace (y / 10 / 10 / 10 mod 10) with (y / 1000)
    by (Z.div_mod_to_equations; lia).
  replace (y / 10 / 10 mod 10) with (y / 100 mod 10)
    by (Z.div_mod_to_equations; lia).
  reflexivity.
Qed.

Lemma digitValue_bounds c : isDigit c = true → 0 <= digitValue c <= 9.
Proof.
  unfold isDigit, digitValue. intros H. apply andb_true_iff in H as [H1 H2].
  apply N.leb_le in H1. apply N.leb_le in H2. lia.
Qed.

Lemma intToString_decimalAcc n : 0 <= n → decimalAcc (intToString n) 0 = Some n.
Proof.
  intros Hn. unfold intToString. destruct (Z.ltb_spec n 0); [lia|].
  rewrite digitsOf_value; [reflexivity|].
  rewrite Nat2Z.inj_succ, Z2Nat.id by apply Z.log2_nonneg.
  destruct (Z.eq_dec n 0) as [->|]; [cbn; lia|].
  pose proof (Z.log2_spec n ltac:(lia)). lia.
Qed.

Lemma matchesDateKey_inv s :
  matchesDateKey s = true →
  ∃ y1 y2 y3 y4 m1 m2 d1 d2,
    s = String y1 (String y2 (String y3 (String y4 (String "-"
          (String m1 (String m2 (String "-" (String d1 (String d2 "")))))))))
    ∧ isDigit y1 = true ∧ isDigit y2 = true ∧ isDigit y3 = true
    ∧ isDigit y4 = true.
Proof.
  destruct s as [|y1 [|y2 [|y3 [|y4 [|h1 [|m1 [|m2 [|h2 [|d1 [|d2 [|x s]]]]]]]]]]];
    cbn [matchesDateKey]; try discriminate.
  intros H. do 9 (apply andb_true_iff in H as [H ?]).
  repeat match goal with
         | E : Ascii.eqb _ _ = true |- _ => apply Ascii.eqb_eq in E
         end.
  subst h1 h2. exists y1, y2, y3, y4, m1, m2, d1, d2. auto.
Qed.

(** A canonical key that begins with a string of digits and a dash begins
    with four digits. *)
Lemma canonical_prefix (d rest : string) :
  allDigits d = true → matchesDateKey (d +:+ String "-" rest) = true →
  ∃ y1 y2 y3 y4, d = String y1 (String y2 (String y3 (String y4 ""))).
Proof.
  intros Hd Hm.
  destruct (matchesDateKey_inv _ Hm) as (y1 & y2 & y3 & y4 & m1 & m2 & d1 & d2
                                          & Hs & H1 & H2 & H3 & H4).
  destruct d as [|c1 [|c2 [|c3 [|c4 [|c5 d]]]]]; cbn in Hs, Hd;
    injection Hs as ?; subst; try discriminate.
  - eauto.
  - exfalso. do 4 (apply andb_true_iff in Hd as [? Hd]).
    apply andb_true_iff in Hd as [Hd _]. discriminate Hd.
Qed.

Lemma year_of_canonical t :
  matchesDateKey (toDateKey (Some t)) = true →
  1000 <= YearFromDay (Day t) <= 9999.
Proof.
  rewrite toDateKey_dayKey. unfold dayKey.
  set (y := YearFromDay (Day t)). intros Hm.
  rewrite dash_append in Hm.
  destruct (Z_lt_le_dec y 0) as [Hneg|Hpos].
  { exfalso. unfold intToString in Hm. destruct (Z.ltb_spec y 0); [|lia].
    rewrite append_String in Hm.
    destruct (matchesDateKey_inv _ Hm) as (y1 & ? & ? & ? & ? & ? & ? & ?
                                            & Hs & H1 & _).
    injection Hs as <-. discriminate H1. }
  destruct (canonical_prefix _ _ (intToString_digits y Hpos) Hm)
    as (y1 & y2 & y3 & y4 & Hy).
  pose proof (intToString_decimalAcc y Hpos) as Hv. rewrite Hy in Hv.
  pose proof (intToString_digits y Hpos) as Hd. rewrite Hy in Hd.
  cbn [allDigits] in Hd. do 4 (apply andb_true_iff in Hd as [? Hd]).
  cbn [decimalAcc] in Hv.
  repeat match goal with
         | H : isDigit ?c = true |- _ =>
             rewrite H in Hv; apply digitValue_bounds in H
         end.
  injection Hv as Hv. split; [|lia].
  destruct (Z_lt_le_dec y 1000) as [Hlt|]; [|assumption]. exfalso.
  assert (0 <= y < 10 ^ Z.of_nat 3) as Hp by (change (10 ^ Z.of_nat 3) with 1000; lia).
  unfold intToString in Hy. destruct (Z.ltb_spec y 0); [lia|].
  pose proof (digitsOf_length (S (Z.to_nat (Z.log2 y))) y "" 2 Hp) as Hl.
  rewrite Hy in Hl. cbn in Hl. lia.
Qed.

Lemma key_of_year t :
  1000 <= YearFromDay (Day t) <= 9999 →
  matchesDateKey (toDateKey (Some t)) = true
  ∧ keyYear (toDateKey (Some t)) = Some (YearFromDay (Day t)).
Proof.
  intros Hy. rewrite toDateKey_dayKey. unfold dayKey.
  destruct (day_fields (Day t)) as (Hm & Hdt & _).
  pose proof (daysInMonth_bounds (YearFromDay (Day t)) (MonthFromDay (Day t))).
  set (y := YearFromDay (Day t)) in *.
  rewrite intToString_4, !padStart2_small by lia.
  assert (matchesDateKey
            (String (digitChar (y / 1000)) (String (digitChar (y / 100 mod 10))
               (String (digitChar (y / 10 mod 10)) (String (digitChar (y mod 10)) ""))) +:+
             "-" +:+
             String (digitChar ((MonthFromDay (Day t) + 1) / 10))
               (String (digitChar ((MonthFromDay (Day t) + 1) mod 10)) "") +:+
             "-" +:+
             String (digitChar (DateFromDay (Day t) / 10))
               (String (digitChar (DateFromDay (Day t) mod 10)) "")) = true) as Hk.
  { flatten_append. cbn [matchesDateKey].
    rewrite !isDigit_digitChar by (Z.div_mod_to_equations; lia). reflexivity. }
  split; [exact Hk|]. unfold keyYear. rewrite Hk.
  flatten_append.
  cbn [String.substring decimalValue String.length Nat.leb decimalAcc].
  rewrite !isDigit_digitChar, !digitValue_digitChar
    by (Z.div_mod_to_equations; lia).
  f_equal. Z.div_mod_to_equations. lia.
Qed.

(** X11: the key of a date has the canonical form exactly if the date is
    valid and its UTC year has four digits; the year of such a key is the
    UTC year of the date. *)
Theorem toDateKey_canonical (d : Date) :
  (isValidDateKey (VStr (toDateKey d)) = true
   ↔ ∃ y, getUTCFullYear d = Some y ∧ 1000 <= y <= 9999)
  ∧ keyYear (toDateKey d)
    = if isValidDateKey (VStr (toDateKey d)) then getUTCFullYear d else None.
Proof.
  cbn [isValidDateKey]. destruct d as [t|].
  - split.
    + split.
      * intros H. exists (YearFromDay (Day t)). split; [reflexivity|].
        apply year_of_canonical. exact H.
      * intros (y & [= <-] & Hy). apply key_of_year. exact Hy.
    + destruct (matchesDateKey (toDateKey (Some t))) eqn:E.
      * apply key_of_year, year_of_canonical. exact E.
      * unfold keyYear. rewrite E. reflexivity.
  - split; [|reflexivity]. split; [discriminate|]. intros (y & H & _). discriminate H.
Qed.

(** ** From the form's date to the payload and back *)

Section RoundTrip.

Variable P : Platform.

Lemma Day_bounds t : Z.abs t <= maxTime → -100000000 <= Day t <= 100000000.
Proof. unfold Day, maxTime, msPerDay. intros. Z.div_mod_to_equations. lia. Qed.

(** What [parseDateFromKey] reads in the key of a date of a year from 0
    on: the year, month and day that went into the key. *)
Lemma parseDateFromKey_fields t :
  Z.abs t <= maxTime → 0 <= YearFromDay (Day t) →
  parseDateFromKey P (toDateKey (Some t))
  = UTC (YearFromDay (Day t)) (MonthFromDay (Day t)) (DateFromDay (Day t)).
Proof.
  intros Ht Hpos.
  pose proof (Day_bounds t Ht) as Hd.
  destruct (day_fields (Day t)) as (Hm & Hdt & Hmk).
  pose proof (daysInMonth_bounds (YearFromDay (Day t)) (MonthFromDay (Day t))) as Hb.
  pose proof (YearFromDay_spec (Day t)) as Hy.
  assert (Hyr : -271822 <= YearFromDay (Day t) <= 275760).
  { revert Hy. unfold DayFromYear. generalize (YearFromDay (Day t)). intros y Hy.
    Z.div_mod_to_equations. lia. }
  rewrite toDateKey_dayKey. unfold dayKey.
  set (y := YearFromDay (Day t)) in *. set (m := MonthFromDay (Day t)) in *.
  set (dt := DateFromDay (Day t)) in *.
  destruct (StringToNumber_pad2 P (m + 1) ltac:(lia)) as [Nm Dm].
  destruct (StringToNumber_pad2 P dt ltac:(lia)) as [Nd Dd].
  unfold parseDateFromKey. rewrite !dash_append.
  rewrite splitDash_digits_dash by (apply intToString_digits; lia).
  rewrite splitDash_digits_dash by exact Dm.
  rewrite splitDash_digits by exact Dd.
  cbn [map]. rewrite StringToNumber_int by lia. rewrite Nm, Nd.
  unfold UTCjs, intNum, minusOne.
  rewrite truncate_int_pred, !truncate_int.
  replace (m + 1 - 1) with m by lia. reflexivity.
Qed.

(** X12: the key of a valid date of the year 100 or later parses back to
    the UTC midnight of the same day; the key of a date of a year from 0
    to 99 parses to the same day and month nineteen centuries later. *)
Theorem parseDateFromKey_toDateKey (t : Z) :
  Z.abs t <= maxTime →
  let y := YearFromDay (Day t) in
  (100 <= y → parseDateFromKey P (toDateKey (Some t)) = Some (Day t * msPerDay))
  ∧ (0 <= y <= 99 →
     parseDateFromKey P (toDateKey (Some t))
     = Some (MakeDay (1900 + y) (MonthFromDay (Day t)) (DateFromDay (Day t))
             * msPerDay)).
Proof.
  intros Ht y. pose proof (Day_bounds t Ht) as Hd.
  destruct (day_fields (Day t)) as (Hm & Hdt & Hmk).
  split; intros Hy; rewrite parseDateFromKey_fields by (fold y; lia);
    fold y; unfold UTC, MakeFullYear.
  - destruct (Z.leb_spec 0 y); [|lia]. destruct (Z.leb_spec y 99); [lia|].
    cbn [andb]. unfold y. rewrite Hmk. apply TimeClip_days. exact Hd.
  - destruct (Z.leb_spec 0 y); [|lia]. destruct (Z.leb_spec y 99); [|lia].
    cbn [andb]. apply TimeClip_days.
    pose proof (daysInMonth_bounds y (MonthFromDay (Day t))).
    unfold MakeDay. cbv zeta. rewrite Z.div_small, Z.mod_small by lia.
    pose proof (monthStartDay_bounds (leapDays (1900 + y + 0))
                  (MonthFromDay (Day t)) (leapDays_bounds _) Hm).
    fold y in Hdt. unfold DayFromYear. Z.div_mod_to_equations. lia.
Qed.

Lemma padZeros2_small n :
  0 <= n <= 99 →
  padZeros 2 (intToString n)
  = String (digitChar (n / 10)) (String (digitChar (n mod 10)) "").
Proof.
  intros H. rewrite <- (Z2Nat.id n) by lia.
  assert (Z.to_nat n < 100)%nat as Hk by lia.
  revert Hk. generalize (Z.to_nat n). intros k Hk.
  do 100 (destruct k as [|k]; [vm_compute; reflexivity|]). lia.
Qed.

Lemma twoDigits_digitChar a b :
  0 <= a <= 9 → 0 <= b <= 9 →
  twoDigits (digitChar a) (digitChar b) = Some (10 * a + b).
Proof.
  intros Ha Hb. unfold twoDigits.
  rewrite !isDigit_digitChar, !digitValue_digitChar by lia. reflexivity.
Qed.

(** The time [toISOString] writes for a UTC midnight of a year of four
    digits is the key of the day, then the time 00:00:00.000 and [Z]; and
    [Date.parse] reads it as that midnight. *)
Lemma iso_midnight d :
  -100000000 <= d <= 100000000 → 1000 <= YearFromDay d <= 9999 →
  toISOString P (Some (d * msPerDay))
  = Normal (toDateKey (Some (d * msPerDay)) +:+ "T00:00:00.000Z")
  ∧ Date_parse P (toDateKey (Some (d * msPerDay)) +:+ "T00:00:00.000Z")
    = Some (d * msPerDay).
Proof.
  intros Hd Hy.
  destruct (day_fields d) as (Hm & Hdt & Hmk).
  pose proof (daysInMonth_bounds (YearFromDay d) (MonthFromDay d)) as Hb.
  rewrite toDateKey_dayKey. unfold dayKey, toISOString.
  rewrite Z_mod_mult, !Day_midnight.
  destruct (Z.leb_spec 0 (YearFromDay d)); [|lia].
  destruct (Z.leb_spec (YearFromDay d) 9999); [|lia]. cbn [andb].
  change (padZeros 2 (intToString (0 / 3600000))) with "00"%string.
  change (padZeros 2 (intToString (0 / 60000 mod 60))) with "00"%string.
  change (padZeros 2 (intToString (0 / 1000 mod 60))) with "00"%string.
  change (padZeros 3 (intToString (0 mod 1000))) with "000"%string.
  rewrite !padZeros2_small, !padStart2_small, intToString_4 by lia.
  set (y := YearFromDay d) in *. set (m := MonthFromDay d) in *.
  set (dt := DateFromDay d) in *.
  unfold padZeros. cbn [String.length Nat.sub zeros].
  flatten_append. split; [reflexivity|].
  unfold Date_parse. cbn [parseIsoUtc].
  rewrite !twoDigits_digitChar by (Z.div_mod_to_equations; lia).
  change (twoDigits "0" "0") with (Some 0).
  cbn [mbind option_bind].
  replace (100 * (10 * (y / 1000) + y / 100 mod 10)
           + (10 * (y / 10 mod 10) + y mod 10)) with y
    by (Z.div_mod_to_equations; lia).
  replace (10 * ((m + 1) / 10) + (m + 1) mod 10) with (m + 1)
    by (Z.div_mod_to_equations; lia).
  replace (10 * (dt / 10) + dt mod 10) with dt
    by (Z.div_mod_to_equations; lia).
  replace (m + 1 - 1) with m by lia.
  destruct (Z.leb_spec 1 (m + 1)); [|lia].
  destruct (Z.leb_spec (m + 1) 12); [|lia].
  destruct (Z.leb_spec 1 dt); [|lia].
  destruct (Z.leb_spec dt (daysInMonth y m)); [|lia].
  cbn [andb Z.leb Z.compare Pos.compare Pos.compare_cont].
  rewrite Hmk.
  replace (d * msPerDay + 0 * 3600000 + 0 * 60000 + 0 * 1000 + 100 * 0 + 0)
    with (d * msPerDay) by lia.
  apply TimeClip_days. exact Hd.
Qed.

(** X13: for a form date in a year of four digits, the date of the
    payload that [onSubmit] builds is the form's date key followed by the
    time 00:00:00.000 and [Z], and [new Date] reads it as the UTC midnight
    of the form's day. *)
Theorem submitPayload_date (st : HomeState) (t : Z) :
  formDate st = Some t → Z.abs t <= maxTime →
  1000 <= YearFromDay (Day t) <= 9999 →
  ∃ payload,
    submitPayload P st = Normal payload
    ∧ payloadDate payload = toDateKey (formDate st) +:+ "T00:00:00.000Z"
    ∧ payloadIsSick payload = formIsSick st
    ∧ payloadSeverity payload
      = (if formIsSick st then Some (formSeverity st) else None)
    ∧ newDate P (VStr (payloadDate payload))
      = Normal (Some (Day t * msPerDay)).
Proof.
  intros Hf Ht Hy. pose proof (Day_bounds t Ht) as Hd.
  unfold submitPayload. rewrite Hf.
  rewrite parseDateFromKey_fields by (try assumption; lia).
  assert (UTC (YearFromDay (Day t)) (MonthFromDay (Day t)) (DateFromDay (Day t))
          = Some (Day t * msPerDay)) as ->.
  { destruct (day_fields (Day t)) as (_ & _ & Hmk).
    unfold UTC, MakeFullYear.
    destruct (Z.leb_spec 0 (YearFromDay (Day t))); [|lia].
    destruct (Z.leb_spec (YearFromDay (Day t)) 99); [lia|].
    cbn [andb]. rewrite Hmk. apply TimeClip_days. exact Hd. }
  assert (toDateKey (Some (Day t * msPerDay)) = toDateKey (Some t)) as Hkey.
  { rewrite !toDateKey_dayKey, Day_midnight. reflexivity. }
  destruct (iso_midnight (Day t) Hd Hy) as [Hiso Hparse].
  rewrite Hkey in Hiso, Hparse. rewrite Hiso.
  cbn [mbind completion_bind bindC]. eexists. split; [reflexivity|].
  cbn [payloadDate payloadIsSick payloadSeverity newDate].
  split; [reflexivity|]. split; [reflexivity|]. split; [reflexivity|].
  f_equal. exact Hparse.
Qed.

End RoundTrip.

(** ** The key of an entry that comes back without one *)

Section Echo.

Variable P : Platform.


End Echo.

(** ** The entry map of the page *)

Lemma keyYear_canonical k y : keyYear k = Some y → matchesDateKey k = true.
Proof. unfold keyYear. destruct (matchesDateKey k); [reflexivity|discriminate]. Qed.

Lemma entriesByKey_snoc l e :
  entriesByKey (l ++ [e]) = <[dateKey e := e]> (entriesByKey l).
Proof. unfold entriesByKey. rewrite foldl_app. reflexivity. Qed.

(** X15: the entry map of the page is the lookup of the heat map, kept to
    the canonical keys of the selected year: under such a key both hold
    the same entry, the last of the collection with that key, and under
    any other key the entry map holds nothing. *)
Theorem entryMap_lookup (P : Platform) (l : list Entry) (y : Z) (k : string) :
  entryMap P l y !! k
  = if decide (keyYear k = Some y) then entriesByKey l !! k else None.
Proof.
  induction l as [|e l IH] using rev_ind.
  { cbn. destruct (decide _); reflexivity. }
  rewrite entryMap_snoc, entriesByKey_snoc.
  destruct (decide (dateKey e = k)) as [Ek|Ek].
  - subst k. destruct (decide (keyYear (dateKey e) = Some y)) as [Hy|Hy].
    + pose proof (keyYear_canonical _ _ Hy) as Hm. rewrite Hm. cbn [negb].
      apply (year_of_key P _ _ Hm) in Hy. rewrite Hy. cbn [negb].
      rewrite !lookup_insert, !decide_True by reflexivity. reflexivity.
    + destruct (matchesDateKey (dateKey e)) eqn:Hm; cbn [negb].
      * destruct (numIs _ y) eqn:Hn; cbn [negb].
        -- exfalso. apply Hy. apply (year_of_key P _ _ Hm). exact Hn.
        -- exact IH.
      * exact IH.
  - rewrite (lookup_insert_ne (entriesByKey l)) by exact Ek.
    destruct (negb (matchesDateKey (dateKey e))); [exact IH|].
    destruct (negb (numIs _ y)); [exact IH|].
    rewrite lookup_insert_ne by exact Ek. exact IH.
Qed.

(** ** The statistics *)

Lemma filter_length_perm {A} (f : A → bool) (l l' : list A) :
  l ≡ₚ l' → length (List.filter f l) = length (List.filter f l').
Proof.
  induction 1 as [|x l l' _ IH|x x' l|l l' l'' _ IH1 _ IH2]; cbn.
  - reflexivity.
  - destruct (f x); cbn; rewrite IH; reflexivity.
  - destruct (f x), (f x'); reflexivity.
  - rewrite IH1. exact IH2.
Qed.

Lemma filter_length_snoc {A} (f : A → bool) (l : list A) (x : A) :
  length (List.filter f (l ++ [x]))
  = (length (List.filter f l) + (if f x then 1 else 0))%nat.
Proof.
  rewrite List.filter_app, length_app. cbn. destruct (f x); reflexivity.
Qed.

(** X16: the two statistics add up to the number of entries; and after a
    save has merged its entry into a collection whose dates the comparator
    can convert, they count the entries of the other days as before and
    the saved entry once, under its own status. *)
Theorem counts_add_up (P : Platform) (saved : Entry) (prev : list Entry) :
  (healthyCount prev + sickCount prev = length prev)%nat
  ∧ (datesConvert P (saved :: prev) →
     let others := filter (λ item, dateKey item ≠ dateKey saved) prev in
     healthyCount (mergeSaved P saved prev)
     = (healthyCount others + (if isSick saved then 0 else 1))%nat
     ∧ sickCount (mergeSaved P saved prev)
       = (sickCount others + (if isSick saved then 1 else 0))%nat).
Proof.
  split.
  - unfold healthyCount, sickCount.
    induction prev as [|e l IH]; [reflexivity|]. cbn.
    destruct (isSick e); cbn; lia.
  - intros _. cbv zeta. unfold healthyCount, sickCount.
    rewrite !(filter_length_perm _ _ _ (mergeSaved_perm P saved prev)).
    rewrite !filter_length_snoc. destruct (isSick saved); split; reflexivity.
Qed.

(** ** Selecting a date *)

Lemma keyYear_toDateKey d y :
  keyYear (toDateKey d) = Some y → getUTCFullYear d = Some y.
Proof.
  destruct d as [t|]; [|discriminate].
  intros H. pose proof (keyYear_canonical _ _ H) as Hm.
  apply year_of_canonical in Hm. apply key_of_year in Hm as [_ Hk].
  rewrite Hk in H. injection H as <-. reflexivity.
Qed.

Section Selecting.

Variable LocalTZA : Z → Z.
Variable P : Platform.

(** The notice after a date was selected is what the entry map holds
    under the key of the new form date. *)
Lemma onSelectDate_lookup (d : Date) (st : HomeState) :
  let st' := onSelectDate LocalTZA P (Some d) st in
  entries st' = entries st
  ∧ selectedYear st' = selectedYear st
  ∧ existingEntryNotice st'
    = entryMap P (entries st) (selectedYear st) !! toDateKey (formDate st').
Proof.
  cbv zeta. unfold onSelectDate.
  set (normalized := UTCnum _ _ _).
  cbn [setFormDate selectedYear entries].
  destruct (bool_decide (getUTCFullYear normalized = Some (selectedYear st)))
    eqn:Hyear; cbn [negb].
  - destruct (entryMap P (entries st) (selectedYear st) !! toDateKey normalized)
      as [e|] eqn:Hlook; cbn; rewrite ?Hlook; auto.
  - cbn. repeat split; try reflexivity.
    destruct (entryMap P (entries st) (selectedYear st) !! toDateKey normalized)
      as [e|] eqn:Hlook; [|reflexivity].
    exfalso. apply entryMap_Some in Hlook as (_ & _ & Hk).
    apply keyYear_toDateKey in Hk.
    apply bool_decide_eq_false in Hyear. contradiction.
Qed.


(** X17: after a date has been selected, the notice holds the entry that
    a submit of the form would collide with, if there is one: the entry
    the page's entry map has under the key of the new form date.  With a
    notice the form shows that entry's status and its severity, or 1 for
    a severity that is missing or zero; without one the form's status and
    severity stay as they were. *)
Theorem onSelectDate_notice (d : Date) (st : HomeState) :
  let st' := onSelectDate LocalTZA P (Some d) st in
  entries st' = entries st
  ∧ selectedYear st' = selectedYear st
  ∧ existingEntryNotice st'
    = entryMap P (entries st) (selectedYear st) !! toDateKey (formDate st')
  ∧ match existingEntryNotice st' with
    | Some e => formIsSick st' = isSick e
                ∧ formSeverity st' = severityOrOne (severity e)
    | None => formIsSick st' = formIsSick st
              ∧ formSeverity st' = formSeverity st
    end.
Proof.
  destruct (onSelectDate_lookup d st) as (He & Hy & Hn). cbv zeta.
  split; [exact He|]. split; [exact Hy|]. split; [exact Hn|].
  unfold onSelectDate. set (normalized := UTCnum _ _ _).
  cbn [setFormDate selectedYear entries].
  destruct (bool_decide (getUTCFullYear normalized = Some (selectedYear st)));
    cbn [negb];
    [destruct (entryMap P (entries st) (selectedYear st) !! toDateKey normalized)|];
    cbn; auto.
Qed.


(** X18: a click on the heat-map cell of day [d] selects the day that
    [d]'s UTC midnight falls on in local time: the form date becomes the
    UTC midnight of [d] itself where local time is at or ahead of UTC, and
    of the day before [d] where it is behind. *)
Theorem onHeatmapDayClick_day (d : Z) (st : HomeState) :
  - msPerDay <= LocalTZA (d * msPerDay) < msPerDay →
  -100000000 <= pickedDay LocalTZA d <= 100000000 →
  YearFromDay (pickedDay LocalTZA d) < 0 ∨ 99 < YearFromDay (pickedDay LocalTZA d) →
  formDate (onHeatmapDayClick LocalTZA P (Some (Some (d * msPerDay))) st)
  = Some (pickedDay LocalTZA d * msPerDay).
Proof.
  intros Htz Hrange Hyear.
  assert (Day (LocalTime LocalTZA (d * msPerDay)) = pickedDay LocalTZA d) as Hday.
  { unfold pickedDay, LocalTime, Day. unfold msPerDay in *.
    destruct (Z.leb_spec 0 (LocalTZA (d * 86400000)));
      Z.div_mod_to_equations; lia. }
  assert (formDate (onHeatmapDayClick LocalTZA P (Some (Some (d * msPerDay))) st)
          = UTC (YearFromDay (pickedDay LocalTZA d))
                (MonthFromDay (pickedDay LocalTZA d))
                (DateFromDay (pickedDay LocalTZA d))) as ->.
  { unfold onHeatmapDayClick, onSelectDate.
    cbn [getFullYear getMonth getDate fmap option_fmap option_map UTCnum
         mbind option_bind]. unfold compose. rewrite Hday.
    repeat match goal with
           | |- context [if ?c then _ else _] => destruct c
           | |- context [match ?c with Some _ => _ | None => _ end] => destruct c
           end; reflexivity. }
  destruct (day_fields (pickedDay LocalTZA d)) as (_ & _ & Hmk).
  unfold UTC, MakeFullYear.
  replace ((0 <=? YearFromDay (pickedDay LocalTZA d))
           && (YearFromDay (pickedDay LocalTZA d) <=? 99)) with false.
  - rewrite Hmk. apply TimeClip_days. exact Hrange.
  - symmetry. apply andb_false_iff.
    destruct Hyear; [left; apply Z.leb_gt|right; apply Z.leb_gt]; lia.
Qed.

End Selecting.

(** ** Loading *)

Section Loading.

Variable P : Platform.

Lemma normalizeAll_returns items :
  forallb (λ raw, returns (normalizeEntry P raw)) items = true →
  normalizeAll P items = Normal (omap (accepted P) items).
Proof.
  induction items as [|raw items IH]; [reflexivity|].
  cbn [forallb normalizeAll omap list_omap]. unfold accepted at 1.
  intros H. apply andb_true_iff in H as [Hraw Hrest].
  destruct (normalizeEntry P raw) as [r|thrown]; [|discriminate].
  rewrite (IH Hrest). cbn [mbind completion_bind bindC]. destruct r; reflexivity.
Qed.

Lemma normalizeAll_throws items :
  forallb (λ raw, returns (normalizeEntry P raw)) items = false →
  ∃ thrown, normalizeAll P items = Throw thrown.
Proof.
  induction items as [|raw items IH]; [discriminate|].
  cbn [forallb normalizeAll]. intros H.
  destruct (normalizeEntry P raw) as [r|thrown]; [|eauto].
  cbn [returns andb] in H. destruct (IH H) as [thrown ->].
  cbn [mbind completion_bind bindC]. eauto.
Qed.

Lemma accepted_canonical raw e :
  accepted P raw = Some e → matchesDateKey (dateKey e) = true.
Proof.
  unfold accepted. destruct (normalizeEntry P raw) as [r|] eqn:E; [|discriminate].
  intros ->. apply (normalizeEntry_key_shape P raw). exact E.
Qed.

Lemma loadEntries_unfold st net :
  loadEntries P (st, net)
  = (setBusy false
       (match (match fetchEntriesSettled P (nextReply net) with
               | Resolved data => loadEntriesThen P data
               | Rejected message => Throw message
               end) with
        | Normal normalized =>
            setEntries (λ _, normalized)
              (setEntries (λ _, []) (setError "" (setBusy true st)))
        | Throw message =>
            setError (orString message "Failed to load entries")
              (setEntries (λ _, [])
                 (setEntries (λ _, []) (setError "" (setBusy true st))))
        end),
     {| replies := tail (replies net);
        sent := sent net ++ [FetchEntriesRequest (selectedYear st)] |}).
Proof.
  unfold loadEntries, fetchEntriesByYear, callFetch, nextReply.
  destruct (replies net); reflexivity.
Qed.

Lemma loadEntriesThen_records data :
  data ≠ VNull → data ≠ VUndefined →
  loadEntriesThen P data = normalizeAll P (responseRecords data).
Proof.
  intros Hnull Hundef. unfold loadEntriesThen, responseRecords.
  assert (getProp P data "entries" = Normal (rawProp data "entries")) as ->
    by (destruct data; try reflexivity; congruence).
  cbn [mbind completion_bind bindC].
  destruct (rawProp data "entries"); reflexivity.
Qed.

(** X19: a load that the server answers with a value other than [null]
    leaves in the collection the entries that [normalizeEntry] makes of
    the records of the response, in the order of the response, dropping
    without an error the records it returns [null] for, and every entry
    it leaves has a canonical key, provided [normalizeEntry] throws on no
    record.  If it throws on one, the whole load fails: the collection is
    left empty and the page shows an error. *)
Theorem loadEntries_accepted (st : HomeState) (net : Network) (data : jsval) :
  nextReply net = Response true (Some data) →
  data ≠ VNull → data ≠ VUndefined →
  let st' := (loadEntries P (st, net)).1 in
  busy st' = false
  ∧ if forallb (λ raw, returns (normalizeEntry P raw)) (responseRecords data)
    then entries st' = acceptedEntries P data
         ∧ error st' = ""%string
         ∧ Forall (λ e, isValidDateKey (VStr (dateKey e)) = true) (entries st')
    else entries st' = [] ∧ error st' ≠ ""%string.
Proof.
  intros Hreply Hnull Hundef. cbv zeta.
  rewrite loadEntries_unfold, Hreply. cbn [fetchEntriesSettled fst].
  rewrite (loadEntriesThen_records data Hnull Hundef).
  destruct (forallb _ (responseRecords data)) eqn:Hall.
  - rewrite (normalizeAll_returns _ Hall). cbn. repeat split.
    apply Forall_forall. intros e He.
    apply list_elem_of_omap in He as (raw & _ & Hraw).
    apply (accepted_canonical raw). exact Hraw.
  - destruct (normalizeAll_throws _ Hall) as [thrown ->]. cbn.
    repeat split. apply orString_nonempty. discriminate.
Qed.

End Loading.

(** ** More on saving *)

Section MoreSaving.

Variable P : Platform.

Lemma mergeSaved_keys saved prev :
  NoDup (map dateKey prev) → NoDup (map dateKey (mergeSaved P saved prev)).
Proof.
  intros Hnd.
  rewrite (mergeSaved_perm P saved prev), map_app. cbn [map].
  apply NoDup_app. split; [|split].
  - induction prev as [|e l IH]; [constructor|].
    cbn [map] in Hnd. apply NoDup_cons in Hnd as [Hnot Hnd].
    rewrite filter_cons. destruct (decide (dateKey e ≠ dateKey saved)); [|auto].
    cbn [map]. apply NoDup_cons. split; [|auto].
    intros Hin. apply Hnot.
    apply list_elem_of_fmap in Hin as (x & Hx & Hin).
    apply list_elem_of_filter in Hin as [_ Hin].
    apply list_elem_of_fmap. exists x. auto.
  - intros k Hk Hk'. apply list_elem_of_singleton in Hk'. subst k.
    apply list_elem_of_fmap in Hk as (x & Hx & Hin).
    apply list_elem_of_filter in Hin as [Hne _]. congruence.
  - apply NoDup_singleton.
Qed.

(** What holds of the saved entry and of every entry before the merge
    holds of every entry after it. *)
Lemma mergeSaved_Forall (holds : Entry → Prop) saved prev :
  holds saved → Forall holds prev → Forall holds (mergeSaved P saved prev).
Proof.
  intros Hs Hprev. rewrite (mergeSaved_perm P saved prev).
  apply Forall_app. split; [|repeat constructor; exact Hs].
  apply Forall_forall. intros e He. apply list_elem_of_filter in He as [_ He].
  rewrite Forall_forall in Hprev. auto.
Qed.

Lemma getProp_entry response :
  response ≠ VNull → response ≠ VUndefined →
  getProp P response "entry" = Normal (rawProp response "entry").
Proof. intros Hnull Hundef. destruct response; try reflexivity; congruence. Qed.

(** X20: a save keeps the collection keyed by day, with dates the
    comparator of the merge can convert: if every entry has a canonical
    key and such a date and no two entries share a key before
    [commitSave], and the entry the server returns, if it returns one, has
    such a date, then so it is after [commitSave], whatever the server
    answered. *)
Theorem commitSave_keyedByDay (payload : Payload) (st : HomeState) (net : Network) :
  keyedByDay (entries st) → datesConvert P (entries st) →
  (∀ saved, savedEntry P net = Some saved → datesConvert P [saved]) →
  let st' := (commitSave P payload (st, net)).1 in
  keyedByDay (entries st') ∧ datesConvert P (entries st').
Proof.
  intros [Hcan Hnd] Hconv Hsaved. cbv zeta. rewrite commitSave_unfold. cbn [fst].
  destruct (commitSaveTry P _ _) as [st'|message] eqn:Htry.
  - apply commitSaveTry_Normal in Htry
      as (response & raw & saved & Hsettled & Hraw & Hnorm & Hentries).
    cbn [setBusy entries]. rewrite Hentries. cbn [setInfo setError setBusy entries].
    assert (datesConvert P [saved]) as Hs.
    { apply Hsaved. unfold savedEntry, accepted. rewrite Hsettled, Hraw, Hnorm.
      reflexivity. }
    apply Forall_inv in Hs.
    split; [split|].
    + apply mergeSaved_Forall; [|exact Hcan].
      apply (normalizeEntry_key_shape P raw). exact Hnorm.
    + apply mergeSaved_keys. exact Hnd.
    + apply mergeSaved_Forall; assumption.
  - cbn. repeat split; assumption.
Qed.

(** X21: when the server answers a save with a value other than [null]
    whose [entry] is not made an entry by [normalizeEntry], the
    collection, the known years and the preview stay as they were, and the
    page shows an error: that the entry is invalid if [normalizeEntry]
    returned [null], and the message of the error if it threw. *)
Theorem commitSave_invalid_entry (payload : Payload) (st : HomeState)
    (net : Network) (response : jsval) :
  nextReply net = Response true (Some response) →
  response ≠ VNull → response ≠ VUndefined →
  accepted P (rawProp response "entry") = None →
  let st' := (commitSave P payload (st, net)).1 in
  entries st' = entries st
  ∧ yearsFromApi st' = yearsFromApi st
  ∧ updatePreview st' = updatePreview st
  ∧ error st'
    = match normalizeEntry P (rawProp response "entry") with
      | Normal _ => "Invalid entry returned by server."%string
      | Throw thrown => orString thrown "Failed to save entry"
      end
  ∧ info st' = ""%string
  ∧ busy st' = false.
Proof.
  intros Hreply Hnull Hundef Hacc. cbv zeta.
  rewrite commitSave_unfold, Hreply. cbn [saveEntrySettled commitSaveTry fst].
  rewrite (getProp_entry response Hnull Hundef).
  cbn [mbind completion_bind bindC].
  unfold accepted in Hacc.
  destruct (normalizeEntry P (rawProp response "entry")) as [r|thrown].
  - subst r. cbn. repeat split.
  - cbn. repeat split.
Qed.

(** X22: when the server answers a save with an entry that
    [normalizeEntry] accepts, and the comparator of the merge can convert
    the dates of that entry and of the collection, the page shows that the
    entry is saved and no error, it is no longer busy, the preview is
    closed, and the selected year is among the known years: added at the
    end if it was not there, and otherwise the known years are as
    before. *)
Theorem commitSave_success (payload : Payload) (st : HomeState)
    (net : Network) (response : jsval) (saved : Entry) :
  nextReply net = Response true (Some response) →
  response ≠ VNull → response ≠ VUndefined →
  normalizeEntry P (rawProp response "entry") = Normal (Some saved) →
  datesConvert P (saved :: entries st) →
  let st' := (commitSave P payload (st, net)).1 in
  info st' = "Entry saved."%string
  ∧ error st' = ""%string
  ∧ busy st' = false
  ∧ updatePreview st' = None
  ∧ includesYear (yearsFromApi st') (selectedYear st) = true
  ∧ yearsFromApi st'
    = (if includesYear (yearsFromApi st) (selectedYear st) then yearsFromApi st
       else yearsFromApi st ++ [yearValue (selectedYear st)])
  ∧ selectedYear st' = selectedYear st
  ∧ formDate st' = formDate st.
Proof.
  intros Hreply Hnull Hundef Hnorm _. cbv zeta.
  rewrite commitSave_unfold, Hreply. cbn [saveEntrySettled commitSaveTry fst].
  rewrite (getProp_entry response Hnull Hundef).
  cbn [mbind completion_bind bindC]. rewrite Hnorm.
  cbn [mbind completion_bind bindC].
  cbn [setBusy setInfo setUpdatePreview setYearsFromApi setEntries setError
       info error busy updatePreview yearsFromApi selectedYear formDate].
  repeat split; try reflexivity.
  destruct (includesYear (yearsFromApi st) (selectedYear st)) eqn:E; [exact E|].
  unfold includesYear. rewrite existsb_app. cbn [existsb yearValue].
  rewrite numIs_int, Z.eqb_refl. cbn. apply orb_true_r.
Qed.

End MoreSaving.

(** ** The year selector *)

Import YearSelect.

Section SortOn.

Context {A : Type}.

Lemma sortWith_sorted_on (compare : A → A → num) (key : A → Z) (l : list A) :
  (∀ a b, a ∈ l → b ∈ l →
          match compare a b with Some c => 0 <? c | None => false end
          = (key b <? key a)) →
  StronglySorted (λ a b, key a <= key b) (sortWith compare l).
Proof.
  intros Hafter. unfold sortWith.
  rewrite (foldl_insertDown_ext _ (λ a b, key b <? key a)).
  - apply StronglySorted_rev_key.
    apply foldl_insertDown_sorted; [reflexivity|constructor].
  - intros a b Ha Hb. rewrite app_nil_r in Ha, Hb. apply Hafter; assumption.
Qed.

Lemma sorted_strict (key : A → Z) (l : list A) :
  StronglySorted (λ a b, key a <= key b) l → NoDup (map key l) →
  StronglySorted (λ a b, key a < key b) l.
Proof.
  induction 1 as [|x l Hl IH Hx]; intros Hnd; [constructor|].
  cbn [map] in Hnd. apply NoDup_cons in Hnd as [Hnot Hnd].
  constructor; [auto|].
  apply Forall_forall. intros z Hz. rewrite Forall_forall in Hx.
  specialize (Hx z Hz).
  assert (key x ≠ key z); [|lia].
  intros E. apply Hnot. rewrite E. apply list_elem_of_fmap. exists z. auto.
Qed.

End SortOn.

Lemma yearOf_Some v z :
  yearOf v = Some z ↔ ∃ q, v = VNum (Finite q) ∧ (q == inject_Z z)%Q.
Proof.
  split.
  - destruct v as [| | |[| |q]| | |]; cbn [yearOf]; try discriminate.
    destruct (Qeq_bool q (inject_Z (truncate q))) eqn:E; [|discriminate].
    intros [= <-]. exists q. split; [reflexivity|]. apply Qeq_bool_iff. exact E.
  - intros (q & -> & Hq). cbn [yearOf].
    assert (truncate q = z) as Ht.
    { unfold truncate. unfold Qeq in Hq. cbn in Hq.
      rewrite Z.mul_1_r in Hq. rewrite Hq. apply Z.quot_mul. lia. }
    rewrite Ht. apply Qeq_bool_iff in Hq. rewrite Hq. reflexivity.
Qed.

Lemma yearOf_yearValue y : yearOf (yearValue y) = Some y.
Proof. apply yearOf_Some. exists (inject_Z y). split; reflexivity. Qed.

Lemma sameValueZero_years a b za zb :
  yearOf a = Some za → yearOf b = Some zb →
  sameValueZero a b = (za =? zb).
Proof.
  intros Ha Hb. apply yearOf_Some in Ha as (p & -> & Hp).
  apply yearOf_Some in Hb as (q & -> & Hq). cbn.
  destruct (za =? zb) eqn:E.
  - apply Z.eqb_eq in E. subst zb. apply Qeq_bool_iff. rewrite Hp, Hq. reflexivity.
  - apply Z.eqb_neq in E. destruct (Qeq_bool p q) eqn:E'; [|reflexivity].
    apply Qeq_bool_iff in E'. rewrite Hp, Hq in E'.
    unfold Qeq in E'. cbn in E'. lia.
Qed.

Lemma isYear_yearOf item y :
  yearOf (value item) = Some y → isYear y item = true.
Proof.
  intros H. apply yearOf_Some in H as (q & Hv & Hq).
  unfold isYear. rewrite Hv. cbn. apply Qeq_bool_iff. exact Hq.
Qed.

(** ** Sorting with a comparator that may throw *)

Section SortThrowing.

Context {A : Type}.

Lemma insertDownThrowing_Normal (after : A → A → completion bool)
    (after' : A → A → bool) x s :
  (∀ y, y ∈ s → after y x = Normal (after' y x)) →
  insertDownThrowing after x s = Normal (insertDown after' x s).
Proof.
  induction s as [|y s IH]; intros H; cbn [insertDownThrowing insertDown];
    [reflexivity|].
  rewrite (H y) by left. cbn [mbind completion_bind bindC].
  destruct (after' y x); [|reflexivity].
  rewrite IH by (intros z Hz; apply H; right; exact Hz). reflexivity.
Qed.

Lemma insertAllThrowing_Normal (after : A → A → completion bool)
    (after' : A → A → bool) l s :
  (∀ a b, a ∈ l ++ s → b ∈ l ++ s → after a b = Normal (after' a b)) →
  insertAllThrowing after l s
  = Normal (foldl (λ sortedRev x, insertDown after' x sortedRev) s l).
Proof.
  revert s. induction l as [|x l IH]; intros s H;
    cbn [insertAllThrowing foldl]; [reflexivity|].
  rewrite (insertDownThrowing_Normal after after').
  - cbn [mbind completion_bind bindC]. apply IH. intros a b Ha Hb.
    assert (∀ c, c ∈ l ++ insertDown after' x s → c ∈ (x :: l) ++ s) as Hin.
    { intros c Hc. apply elem_of_app in Hc as [Hc|Hc].
      - cbn. right. apply elem_of_app. left. exact Hc.
      - apply (elem_of_Permutation_proper c _ _ (insertDown_perm after' x s)) in Hc.
        apply elem_of_cons in Hc as [->|Hc]; [left|].
        cbn. right. apply elem_of_app. right. exact Hc. }
    apply H; apply Hin; assumption.
  - intros y Hy. apply H; [|left].
    cbn. right. apply elem_of_app. right. exact Hy.
Qed.

(** A comparator that does not throw on the elements sorts as [sortWith]
    does. *)
Lemma sortThrowing_Normal (compare : A → A → completion num)
    (compare' : A → A → num) l :
  (∀ a b, a ∈ l → b ∈ l → compare a b = Normal (compare' a b)) →
  sortThrowing compare l = Normal (sortWith compare' l).
Proof.
  intros H. unfold sortThrowing, sortWith.
  rewrite (insertAllThrowing_Normal _
             (λ a b, match compare' a b with Some c => 0 <? c | None => false end)).
  - reflexivity.
  - rewrite app_nil_r. intros a b Ha Hb. rewrite (H a b Ha Hb). reflexivity.
Qed.

Lemma insertDownThrowing_perm (after : A → A → completion bool) x s s' :
  insertDownThrowing after x s = Normal s' → s' ≡ₚ x :: s.
Proof.
  revert s'. induction s as [|y s IH]; intros s'; cbn [insertDownThrowing].
  - intros [= <-]. reflexivity.
  - destruct (after y x) as [[|]|thrown]; cbn [mbind completion_bind bindC];
      try discriminate.
    + destruct (insertDownThrowing after x s) as [others|thrown];
        cbn [mbind completion_bind bindC]; [|discriminate].
      intros [= <-]. rewrite (IH others eq_refl). apply perm_swap.
    + intros [= <-]. reflexivity.
Qed.

(** A comparator that throws on an element makes the sort of two or more
    elements throw. *)
Lemma insertAllThrowing_throws (after : A → A → completion bool)
    (bad : A → bool) l s :
  (∀ a b, bad a = true ∨ bad b = true → returns (after a b) = false) →
  existsb bad l = true → existsb bad s = false →
  (2 <= length s + length l)%nat →
  returns (insertAllThrowing after l s) = false.
Proof.
  intros Hbad. revert s. induction l as [|x l IH]; intros s Hl Hs Hlen;
    [discriminate|].
  cbn [insertAllThrowing]. destruct (bad x) eqn:Hx.
  - destruct s as [|y s].
    + destruct l as [|x' l]; [cbn in Hlen; lia|].
      cbn [insertDownThrowing insertAllThrowing mbind completion_bind bindC].
      pose proof (Hbad x x' (or_introl Hx)) as H.
      destruct (after x x'); [discriminate|reflexivity].
    + cbn [insertDownThrowing].
      pose proof (Hbad y x (or_intror Hx)) as H.
      destruct (after y x); [discriminate|reflexivity].
  - cbn [existsb orb] in Hl. rewrite Hx in Hl. cbn [orb] in Hl.
    destruct (insertDownThrowing after x s) as [s'|thrown] eqn:Hins;
      [|reflexivity].
    cbn [mbind completion_bind bindC].
    pose proof (insertDownThrowing_perm after x s s' Hins) as Hperm.
    apply IH; [exact Hl| |].
    + destruct (existsb bad s') eqn:E; [|reflexivity].
      apply existsb_exists in E as (z & Hz & Hbz).
      apply list_elem_of_In in Hz.
      apply (elem_of_Permutation_proper z _ _ Hperm) in Hz.
      apply elem_of_cons in Hz as [->|Hz]; [congruence|].
      assert (existsb bad s = true); [|congruence].
      apply existsb_exists. exists z. split; [apply list_elem_of_In, Hz|exact Hbz].
    + rewrite (Permutation_length Hperm). cbn [length] in *. lia.
Qed.

Lemma sortThrowing_throws (compare : A → A → completion num)
    (bad : A → bool) l :
  (∀ a b, bad a = true ∨ bad b = true → returns (compare a b) = false) →
  existsb bad l = true → (2 <= length l)%nat →
  returns (sortThrowing compare l) = false.
Proof.
  intros Hbad Hl Hlen. unfold sortThrowing.
  pose proof (insertAllThrowing_throws
    (λ a b, c ← compare a b;
            Normal (match c with Some c => 0 <? c | None => false end))
    bad l []) as H.
  cbv beta in H.
  destruct (insertAllThrowing _ l []) as [s|thrown]; [|reflexivity].
  exfalso. assert (true = false) as E; [|discriminate E].
  apply H; [|exact Hl|reflexivity|cbn; lia].
  intros a b Hab. specialize (Hbad a b Hab).
  destruct (compare a b); [discriminate|reflexivity].
Qed.

Lemma mapThrowing_Normal {B} (f : A → completion B) (f' : A → B) l :
  (∀ x, x ∈ l → f x = Normal (f' x)) →
  mapThrowing f l = Normal (map f' l).
Proof.
  induction l as [|x l IH]; intros H; cbn [mapThrowing map]; [reflexivity|].
  rewrite (H x) by left. rewrite IH by (intros z Hz; apply H; right; exact Hz).
  reflexivity.
Qed.

End SortThrowing.

Section Years.

Variable P : Platform.

(** A value converts to a string exactly if it converts to a number. *)
Lemma ToNumber_returns v : returns (ToNumber P v) = returns (ToString P v).
Proof.
  destruct v as [| |[|]|n|s|items|props]; try reflexivity.
  - unfold ToNumber. destruct (ToString P (VArr items)); reflexivity.
  - unfold ToNumber. destruct (ToString P (VObj props)); reflexivity.
Qed.

Lemma ToNumber_numberOf v :
  returns (ToNumber P v) = true → ToNumber P v = Normal (numberOf P v).
Proof. unfold numberOf. destruct (ToNumber P v); [reflexivity|discriminate]. Qed.

Lemma ToString_stringOf v :
  returns (ToNumber P v) = true → ToString P v = Normal (stringOf P v).
Proof.
  rewrite ToNumber_returns. unfold stringOf.
  destruct (ToString P v); [reflexivity|discriminate].
Qed.

Lemma compareYears_years a b za zb :
  yearOf a = Some za → yearOf b = Some zb →
  match signOf (minus (numberOf P b) (numberOf P a)) with
  | Some c => 0 <? c
  | None => false
  end = (- zb <? - za).
Proof.
  intros Ha Hb. apply yearOf_Some in Ha as (p & -> & Hp).
  apply yearOf_Some in Hb as (q & -> & Hq).
  cbn [numberOf ToNumber minus signOf].
  assert ((0 <? Z.sgn (Qnum (q - p))) = true ↔ (p < q)%Q) as Hs.
  { rewrite Z.ltb_lt.
    assert (∀ n, 0 < Z.sgn n ↔ 0 < n) as -> by (intros [|n|n]; cbn; lia).
    unfold Qlt. cbn. lia. }
  assert ((p < q)%Q ↔ za < zb) as Hz.
  { rewrite Hp, Hq, <- Zlt_Qlt. reflexivity. }
  destruct (0 <? Z.sgn (Qnum (q - p))) eqn:E1; destruct (- zb <? - za) eqn:E2;
    try reflexivity; exfalso.
  - apply Z.ltb_ge in E2. assert (za < zb) by (apply Hz, Hs; reflexivity). lia.
  - apply Z.ltb_lt in E2. assert (za < zb) as H by lia.
    apply Hz, Hs in H. discriminate.
Qed.

(** Adding to a set keeps what it holds and makes it hold the value. *)
Lemma setAdd_keeps x set v : v ∈ set → v ∈ setAdd x set.
Proof.
  unfold setAdd. destruct (existsb _ set); [auto|].
  intros H. apply elem_of_app. left. exact H.
Qed.

Lemma setAdd_holds x set :
  ∃ v, v ∈ setAdd x set ∧ (v = x ∨ sameValueZero x v = true).
Proof.
  unfold setAdd. destruct (existsb (sameValueZero x) set) eqn:E.
  - apply existsb_exists in E as (v & Hv & Hs). exists v.
    split; [apply list_elem_of_In; exact Hv|right; exact Hs].
  - exists x. split; [|left; reflexivity]. apply elem_of_app. right. left.
Qed.

Lemma setAdd_from x set v : v ∈ setAdd x set → v ∈ set ∨ v = x.
Proof.
  unfold setAdd. destruct (existsb _ set); [auto|].
  intros H. apply elem_of_app in H as [H|H]; [auto|].
  apply list_elem_of_singleton in H. auto.
Qed.

Lemma foldl_setAdd_keeps {B} (f : B → jsval) (l : list B) set v :
  v ∈ set → v ∈ foldl (λ set x, setAdd (f x) set) set l.
Proof.
  revert set. induction l as [|x l IH]; intros set Hv; [exact Hv|].
  cbn [foldl]. apply IH, setAdd_keeps, Hv.
Qed.

Lemma foldl_setAdd_holds {B} (f : B → jsval) (l : list B) set x :
  x ∈ l →
  ∃ v, v ∈ foldl (λ set x, setAdd (f x) set) set l
       ∧ (v = f x ∨ sameValueZero (f x) v = true).
Proof.
  revert set. induction l as [|y l IH]; intros set Hx; [inversion Hx|].
  cbn [foldl]. apply elem_of_cons in Hx as [->|Hx]; [|apply IH, Hx].
  destruct (setAdd_holds (f y) set) as (v & Hv & Hs).
  exists v. split; [|exact Hs]. apply foldl_setAdd_keeps, Hv.
Qed.

Lemma foldl_setAdd_from {B} (f : B → jsval) (l : list B) set v :
  v ∈ foldl (λ set x, setAdd (f x) set) set l →
  v ∈ set ∨ ∃ x, x ∈ l ∧ v = f x.
Proof.
  revert set. induction l as [|y l IH]; intros set Hv; [left; exact Hv|].
  cbn [foldl] in Hv. apply IH in Hv as [Hv|(x & Hx & ->)].
  - apply setAdd_from in Hv as [Hv| ->]; [left; exact Hv|].
    right. exists y. split; [left|reflexivity].
  - right. exists x. split; [right; exact Hx|reflexivity].
Qed.

Lemma sameValueZero_year y v :
  sameValueZero (yearValue y) v = true → yearOf v = Some y.
Proof.
  unfold yearValue, intNum.
  destruct v as [| | |[| |q]| | |]; cbn [sameValueZero sameNum]; try discriminate.
  intros H. apply Qeq_bool_iff in H. apply yearOf_Some.
  exists q. split; [reflexivity|]. symmetry. exact H.
Qed.

Lemma yearOptions_set api sel now :
  yearOptions P api sel now
  = (sorted ← sortThrowing (compareYears P)
                (List.filter (λ v, negb (isUndefined v)) (yearSet api sel now));
     mapThrowing (λ year, label ← ToString P year;
                          Normal {| value := year; label := label |})
                 (sorted ++ List.filter isUndefined (yearSet api sel now))).
Proof. unfold yearOptions, yearSet. reflexivity. Qed.

Lemma yearSet_from api sel now v :
  v ∈ yearSet api sel now →
  v ∈ api ∨ ∃ y, v = yearValue y ∧ (y = sel ∨ now - 20 <= y <= now + 10).
Proof.
  unfold yearSet. intros Hv.
  apply setAdd_from in Hv as [Hv| ->]; [|right; exists sel; auto].
  apply foldl_setAdd_from in Hv as [Hv|(y & Hy & ->)].
  - apply (foldl_setAdd_from (λ x, x)) in Hv as [Hv|(x & Hx & ->)];
      [inversion Hv|left; exact Hx].
  - right. exists y. split; [reflexivity|]. apply elem_of_seqZ in Hy. lia.
Qed.

Lemma yearSet_api api sel now x :
  x ∈ api →
  ∃ v, v ∈ yearSet api sel now ∧ (v = x ∨ sameValueZero x v = true).
Proof.
  intros Hx. destruct (foldl_setAdd_holds (λ x, x) api [] x Hx) as (v & Hv & Hs).
  exists v. split; [|exact Hs].
  unfold yearSet. apply setAdd_keeps, foldl_setAdd_keeps, Hv.
Qed.

Lemma yearSet_year api sel now y :
  y = sel ∨ now - 20 <= y <= now + 10 →
  ∃ v, v ∈ yearSet api sel now ∧ yearOf v = Some y.
Proof.
  intros Hy.
  assert (∃ v, v ∈ yearSet api sel now
               ∧ (v = yearValue y ∨ sameValueZero (yearValue y) v = true))
    as (v & Hv & Hs).
  { unfold yearSet. destruct Hy as [->|Hy]; [apply setAdd_holds|].
    destruct (foldl_setAdd_holds yearValue (seqZ (now - 20) 31)
                (foldl (λ set x, setAdd x set) [] api) y) as (v & Hv & Hs).
    { apply elem_of_seqZ. lia. }
    exists v. split; [apply setAdd_keeps, Hv|exact Hs]. }
  exists v. split; [exact Hv|].
  destruct Hs as [->|Hs]; [apply yearOf_yearValue|].
  apply sameValueZero_year, Hs.
Qed.

Lemma yearSet_converts api sel now v :
  forallb (λ v, returns (ToNumber P v)) api = true →
  v ∈ yearSet api sel now → returns (ToNumber P v) = true.
Proof.
  intros Hapi Hv. apply yearSet_from in Hv as [Hv|(y & -> & _)]; [|reflexivity].
  rewrite forallb_forall in Hapi. apply Hapi, list_elem_of_In, Hv.
Qed.

Lemma filter_parts {A} (f : A → bool) (l : list A) :
  List.filter (λ x, negb (f x)) l ++ List.filter f l ≡ₚ l.
Proof.
  induction l as [|x l IH]; [reflexivity|]. cbn [List.filter].
  destruct (f x); cbn [negb app].
  - rewrite <- Permutation_middle. constructor. exact IH.
  - constructor. exact IH.
Qed.

Lemma two_elements {A} (x y : A) (l : list A) :
  x ∈ l → y ∈ l → x ≠ y → (2 <= length l)%nat.
Proof.
  intros Hx Hy Hne. destruct l as [|a [|b l]]; cbn [length]; [inversion Hx| |lia].
  apply list_elem_of_singleton in Hx, Hy. congruence.
Qed.

Lemma orderedValues_perm set : orderedValues P set ≡ₚ set.
Proof.
  unfold orderedValues.
  transitivity (List.filter (λ v, negb (isUndefined v)) set
                ++ List.filter isUndefined set).
  - apply Permutation_app_tail. apply sortWith_perm.
  - apply filter_parts.
Qed.

Lemma orderedValues_elem set v : v ∈ orderedValues P set ↔ v ∈ set.
Proof.
  split; intros H.
  - exact (proj1 (elem_of_Permutation_proper v _ _ (orderedValues_perm set)) H).
  - exact (proj2 (elem_of_Permutation_proper v _ _ (orderedValues_perm set)) H).
Qed.

Lemma elem_of_map {A B} (f : A → B) (l : list A) (y : B) :
  y ∈ map f l ↔ ∃ x, y = f x ∧ x ∈ l.
Proof. apply list_elem_of_fmap. Qed.

Lemma options_Normal (set : list jsval) :
  (∀ v, v ∈ set → returns (ToNumber P v) = true) →
  (sorted ← sortThrowing (compareYears P)
              (List.filter (λ v, negb (isUndefined v)) set);
   mapThrowing (λ year, label ← ToString P year;
                        Normal {| value := year; label := label |})
               (sorted ++ List.filter isUndefined set))
  = Normal (map (optionOf P) (orderedValues P set)).
Proof.
  intros Hset.
  rewrite (sortThrowing_Normal _
             (λ a b, signOf (minus (numberOf P b) (numberOf P a)))).
  - cbn [mbind completion_bind bindC].
    apply (mapThrowing_Normal _ (optionOf P) (orderedValues P set)).
    intros v Hv.
    apply (elem_of_Permutation_proper v _ _ (orderedValues_perm set)) in Hv.
    rewrite (ToString_stringOf v (Hset v Hv)). reflexivity.
  - intros a b Ha Hb.
    apply list_elem_of_In, filter_In in Ha as [Ha _].
    apply list_elem_of_In, filter_In in Hb as [Hb _].
    apply list_elem_of_In in Ha, Hb. unfold compareYears.
    rewrite (ToNumber_numberOf b (Hset b Hb)).
    rewrite (ToNumber_numberOf a (Hset a Ha)).
    reflexivity.
Qed.

(** When every known year converts, the options are those of the set of
    years, in the order of the numbers. *)
Lemma yearOptions_Normal api sel now :
  forallb (λ v, returns (ToNumber P v)) api = true →
  yearOptions P api sel now
  = Normal (map (optionOf P) (orderedValues P (yearSet api sel now))).
Proof.
  intros Hapi. rewrite yearOptions_set.
  apply (options_Normal (yearSet api sel now)).
  intros v Hv. exact (yearSet_converts api sel now v Hapi Hv).
Qed.

Lemma options_throws (set : list jsval) (x v : jsval) :
  x ∈ set → returns (ToNumber P x) = false →
  v ∈ set → returns (ToNumber P v) = true → isUndefined v = false →
  returns
    (sorted ← sortThrowing (compareYears P)
                (List.filter (λ v, negb (isUndefined v)) set);
     mapThrowing (λ year, label ← ToString P year;
                          Normal {| value := year; label := label |})
                 (sorted ++ List.filter isUndefined set))
  = false.
Proof.
  intros Hx Hbad Hv Hgood Hvdef.
  assert (x ≠ v) as Hne by (intros ->; congruence).
  assert (isUndefined x = false) as Hxdef
    by (destruct x; try reflexivity; discriminate Hbad).
  pose proof (sortThrowing_throws (compareYears P)
                (λ v, negb (returns (ToNumber P v)))
                (List.filter (λ v, negb (isUndefined v)) set))
    as Hsort.
  destruct (sortThrowing (compareYears P) _) as [sorted|thrown]; [|reflexivity].
  exfalso. assert (true = false) as E; [|discriminate E]. apply Hsort.
  - intros a b Hab. unfold compareYears.
    destruct (ToNumber P b) as [nb|]; [|reflexivity].
    destruct (ToNumber P a) as [na|]; [|reflexivity].
    destruct Hab as [H|H]; discriminate H.
  - apply existsb_exists. exists x. split; [|rewrite Hbad; reflexivity].
    apply filter_In. split; [apply list_elem_of_In, Hx|rewrite Hxdef; reflexivity].
  - apply (two_elements x v); [| |exact Hne].
    + apply list_elem_of_In, filter_In.
      split; [apply list_elem_of_In, Hx|rewrite Hxdef; reflexivity].
    + apply list_elem_of_In, filter_In.
      split; [apply list_elem_of_In, Hv|rewrite Hvdef; reflexivity].
Qed.

(** When a known year does not convert, the sort throws. *)
Lemma yearOptions_throws api sel now :
  forallb (λ v, returns (ToNumber P v)) api = false →
  returns (yearOptions P api sel now) = false.
Proof.
  intros Hapi.
  assert (∃ x, x ∈ api ∧ returns (ToNumber P x) = false) as (x & Hx & Hbad).
  { destruct (existsb (λ v, negb (returns (ToNumber P v))) api) eqn:E.
    - apply existsb_exists in E as (x & Hx & Hb). exists x.
      split; [apply list_elem_of_In, Hx|].
      destruct (returns _); [discriminate|reflexivity].
    - exfalso. assert (forallb (λ v, returns (ToNumber P v)) api = true) as H;
        [|congruence].
      apply forallb_forall. intros v Hv.
      destruct (returns (ToNumber P v)) eqn:Ev; [reflexivity|].
      assert (existsb (λ v, negb (returns (ToNumber P v))) api = true) as H;
        [|congruence].
      apply existsb_exists. exists v. rewrite Ev. auto. }
  assert (x ∈ yearSet api sel now) as Hset.
  { destruct (yearSet_api api sel now x Hx) as (v & Hv & [->|Hs]); [exact Hv|].
    exfalso. destruct x as [| |[|]|?|?|?|?]; try discriminate Hbad;
      destruct v; discriminate Hs. }
  destruct (yearSet_year api sel now sel (or_introl eq_refl)) as (v & Hv & Hyear).
  apply yearOf_Some in Hyear as (q & Hq & _).
  rewrite yearOptions_set.
  apply (options_throws (yearSet api sel now) x v Hset Hbad Hv);
    rewrite Hq; reflexivity.
Qed.

Lemma option_in_options (set : list jsval) v :
  v ∈ set → optionOf P v ∈ map (optionOf P) (orderedValues P set).
Proof.
  intros Hv. apply elem_of_map. exists v. split; [reflexivity|].
  apply orderedValues_elem. exact Hv.
Qed.

Lemma option_from_options (set : list jsval) item :
  item ∈ map (optionOf P) (orderedValues P set) →
  ∃ v, item = optionOf P v ∧ v ∈ set.
Proof.
  intros Hitem. apply elem_of_map in Hitem as (v & -> & Hv).
  exists v. split; [reflexivity|]. apply orderedValues_elem. exact Hv.
Qed.

Lemma options_years api sel now y :
  y = sel ∨ now - 20 <= y <= now + 10 →
  ∃ item, item ∈ map (optionOf P) (orderedValues P (yearSet api sel now))
          ∧ yearOf (value item) = Some y.
Proof.
  intros Hy. destruct (yearSet_year api sel now y Hy) as (v & Hv & Hyear).
  exists (optionOf P v).
  split; [exact (option_in_options (yearSet api sel now) v Hv)|exact Hyear].
Qed.

Lemma options_chosen (options : list YearOption) sel :
  (∃ item, item ∈ options ∧ yearOf (value item) = Some sel) →
  ∃ chosen,
    match List.find (isYear sel) options with
    | Some item => Normal item
    | None =>
        label ← ToString P (yearValue sel);
        Normal {| value := yearValue sel; label := label |}
    end = Normal chosen
    ∧ chosen ∈ options
    ∧ yearOf (value chosen) = Some sel.
Proof.
  intros (item & Hitem & Hy).
  destruct (List.find (isYear sel) options) as [found|] eqn:E.
  - exists found. split; [reflexivity|].
    apply find_some in E as [Hfound Hyear].
    split; [apply list_elem_of_In, Hfound|].
    unfold isYear in Hyear. destruct (value found) as [| | |[| |q]| | |];
      try discriminate Hyear. cbn [numIs] in Hyear. apply Qeq_bool_iff in Hyear.
    apply yearOf_Some. exists q. split; [reflexivity|exact Hyear].
  - exfalso. apply list_elem_of_In in Hitem.
    pose proof (find_none _ _ E item Hitem) as Hno.
    rewrite (isYear_yearOf item sel Hy) in Hno. discriminate Hno.
Qed.

Lemma selectedYearOption_options api sel now options :
  yearOptions P api sel now = Normal options →
  selectedYearOption P api sel now
  = match List.find (isYear sel) options with
    | Some item => Normal item
    | None =>
        label ← ToString P (yearValue sel);
        Normal {| value := yearValue sel; label := label |}
    end.
Proof. intros H. unfold selectedYearOption. rewrite H. reflexivity. Qed.

Lemma options_api api sel now x :
  x ∈ api →
  ∃ item, item ∈ map (optionOf P) (orderedValues P (yearSet api sel now))
          ∧ (value item = x ∨ sameValueZero x (value item) = true).
Proof.
  intros Hx. destruct (yearSet_api api sel now x Hx) as (v & Hv & Hs).
  exists (optionOf P v).
  split; [exact (option_in_options (yearSet api sel now) v Hv)|exact Hs].
Qed.

Lemma options_from api sel now item :
  forallb (λ v, returns (ToNumber P v)) api = true →
  item ∈ map (optionOf P) (orderedValues P (yearSet api sel now)) →
  ToString P (value item) = Normal (label item)
  ∧ (value item ∈ api
     ∨ ∃ y, value item = yearValue y ∧ (y = sel ∨ now - 20 <= y <= now + 10)).
Proof.
  intros Hapi Hitem.
  destruct (option_from_options (yearSet api sel now) item Hitem) as (v & -> & Hv).
  split.
  - exact (ToString_stringOf v (yearSet_converts api sel now v Hapi Hv)).
  - exact (yearSet_from api sel now v Hv).
Qed.

(** X23: when every known year converts to a number, the year selector
    offers the selected year, the years from twenty before the current
    year to ten after it, and every known year, and nothing else, each
    with its value written out as the label; so the option of the selected
    year is always one of the options.  When a known year does not
    convert, making the options throws. *)
Theorem yearOptions_offered (api : list jsval) (sel now : Z) :
  if forallb (λ v, returns (ToNumber P v)) api
  then ∃ options chosen,
         yearOptions P api sel now = Normal options
         ∧ selectedYearOption P api sel now = Normal chosen
         ∧ (∀ y, y = sel ∨ now - 20 <= y <= now + 10 →
                 ∃ item, item ∈ options ∧ yearOf (value item) = Some y)
         ∧ (∀ x, x ∈ api →
                 ∃ item, item ∈ options
                         ∧ (value item = x ∨ sameValueZero x (value item) = true))
         ∧ (∀ item, item ∈ options →
                    ToString P (value item) = Normal (label item)
                    ∧ (value item ∈ api
                       ∨ ∃ y, value item = yearValue y
                              ∧ (y = sel ∨ now - 20 <= y <= now + 10)))
         ∧ chosen ∈ options
         ∧ yearOf (value chosen) = Some sel
  else returns (yearOptions P api sel now) = false.
Proof.
  destruct (forallb (λ v, returns (ToNumber P v)) api) eqn:Hapi;
    [|exact (yearOptions_throws api sel now Hapi)].
  pose proof (yearOptions_Normal api sel now Hapi) as Hopt.
  destruct (options_chosen _ sel (options_years api sel now sel (or_introl eq_refl)))
    as (chosen & Hsel & Hchosen & Hyear).
  rewrite <- (selectedYearOption_options api sel now _ Hopt) in Hsel.
  exists (map (optionOf P) (orderedValues P (yearSet api sel now))), chosen.
  split; [exact Hopt|]. split; [exact Hsel|].
  split; [exact (options_years api sel now)|].
  split; [exact (options_api api sel now)|].
  split; [|split; [exact Hchosen|exact Hyear]].
  intros item Hitem. exact (options_from api sel now item Hapi Hitem).
Qed.

(** A set of integer years holds each year once. *)
Lemma setAdd_years x set :
  is_Some (yearOf x) →
  Forall (λ v, is_Some (yearOf v)) set ∧ NoDup (map yearOf set) →
  Forall (λ v, is_Some (yearOf v)) (setAdd x set)
  ∧ NoDup (map yearOf (setAdd x set)).
Proof.
  intros [zx Hx] [Hall Hnd]. unfold setAdd.
  destruct (existsb (sameValueZero x) set) eqn:E; [auto|].
  split.
  - apply Forall_app. split; [exact Hall|]. repeat constructor. eauto.
  - rewrite map_app. cbn [map]. apply NoDup_app. split; [exact Hnd|].
    split; [|apply NoDup_singleton].
    intros o Ho Ho'. apply list_elem_of_singleton in Ho'. subst o.
    apply list_elem_of_fmap in Ho as (v & Hv & Hin).
    assert (existsb (sameValueZero x) set = true) as Hex; [|congruence].
    apply existsb_exists. exists v. split; [apply list_elem_of_In, Hin|].
    rewrite Hx in Hv. symmetry in Hv.
    rewrite (sameValueZero_years x v zx zx Hx Hv). apply Z.eqb_refl.
Qed.

Lemma foldl_setAdd_years {B} (f : B → jsval) (l : list B) set :
  (∀ x, x ∈ l → is_Some (yearOf (f x))) →
  Forall (λ v, is_Some (yearOf v)) set ∧ NoDup (map yearOf set) →
  let set' := foldl (λ set x, setAdd (f x) set) set l in
  Forall (λ v, is_Some (yearOf v)) set' ∧ NoDup (map yearOf set').
Proof.
  revert set. induction l as [|x l IH]; intros set Hl Hset; [exact Hset|].
  cbn [foldl]. apply IH.
  - intros z Hz. apply Hl. right. exact Hz.
  - apply setAdd_years; [|exact Hset]. apply Hl. left.
Qed.

Lemma filter_all {A} (f : A → bool) (l : list A) :
  Forall (λ x, f x = true) l → List.filter f l = l.
Proof.
  induction 1 as [|x l Hx _ IH]; [reflexivity|].
  cbn [List.filter]. rewrite Hx, IH. reflexivity.
Qed.

Lemma filter_none {A} (f : A → bool) (l : list A) :
  Forall (λ x, f x = false) l → List.filter f l = [].
Proof.
  induction 1 as [|x l Hx _ IH]; [reflexivity|].
  cbn [List.filter]. rewrite Hx. exact IH.
Qed.

Lemma yearSet_years api sel now :
  Forall (λ v, is_Some (yearOf v)) api →
  Forall (λ v, is_Some (yearOf v)) (yearSet api sel now)
  ∧ NoDup (map yearOf (yearSet api sel now)).
Proof.
  intros Hapi. unfold yearSet.
  apply setAdd_years; [rewrite yearOf_yearValue; eauto|].
  apply (foldl_setAdd_years yearValue).
  { intros y _. rewrite yearOf_yearValue. eauto. }
  apply (foldl_setAdd_years (λ x, x)).
  { intros x Hx. rewrite Forall_forall in Hapi. auto. }
  split; constructor.
Qed.

(** A set of integer years, each held once, comes out in strictly
    descending order. *)
Lemma orderedValues_descending (set : list jsval) :
  Forall (λ v, is_Some (yearOf v)) set → NoDup (map yearOf set) →
  ∃ years,
    map (λ item, yearOf (value item)) (map (optionOf P) (orderedValues P set))
    = map Some years
    ∧ StronglySorted (λ a b, b < a) years.
Proof.
  intros Hall Hnd.
  set (compare := λ a b : jsval, signOf (minus (numberOf P b) (numberOf P a))).
  assert (orderedValues P set = sortWith compare set) as ->.
  { unfold orderedValues. rewrite filter_all, filter_none.
    - apply app_nil_r.
    - eapply Forall_impl; [exact Hall|]. intros v [z Hz].
      apply yearOf_Some in Hz as (q & -> & _). reflexivity.
    - eapply Forall_impl; [exact Hall|]. intros v [z Hz].
      apply yearOf_Some in Hz as (q & -> & _). reflexivity. }
  set (sorted := sortWith compare set).
  assert (sorted ≡ₚ set) as Hperm by apply sortWith_perm.
  assert (Forall (λ v, is_Some (yearOf v)) sorted) as Hall'.
  { apply Forall_forall. intros v Hv. rewrite Forall_forall in Hall.
    apply Hall. exact (proj1 (elem_of_Permutation_proper v _ _ Hperm) Hv). }
  assert (NoDup (map yearOf sorted)) as Hnd'.
  { apply (NoDup_Permutation_proper _ _ (fmap_Permutation yearOf _ _ Hperm)).
    exact Hnd. }
  set (key := λ v : jsval, - default 0 (yearOf v)).
  assert (StronglySorted (λ a b, key a < key b) sorted) as Hsorted.
  { apply sorted_strict.
    - apply sortWith_sorted_on. intros a b Ha Hb.
      rewrite Forall_forall in Hall.
      destruct (Hall a Ha) as [za Hza]. destruct (Hall b Hb) as [zb Hzb].
      unfold compare. rewrite (compareYears_years a b za zb Hza Hzb).
      unfold key. rewrite Hza, Hzb. reflexivity.
    - assert (map key sorted
              = (λ o : option Z, - default 0 o) <$> map yearOf sorted) as ->
        by (rewrite <- list_fmap_compose; reflexivity).
      apply NoDup_fmap_2_strong; [|exact Hnd'].
      intros o o' Ho Ho' Heq.
      apply list_elem_of_fmap in Ho as (v & -> & Hv).
      apply list_elem_of_fmap in Ho' as (v' & -> & Hv').
      rewrite Forall_forall in Hall'.
      destruct (Hall' v Hv) as [z Hz]. destruct (Hall' v' Hv') as [z' Hz'].
      rewrite Hz, Hz' in Heq |- *. cbn in Heq. f_equal. lia. }
  exists (map (λ v, default 0 (yearOf v)) sorted). split.
  - rewrite !map_map. cbn [optionOf value]. apply map_ext_in. intros v Hv.
    apply list_elem_of_In in Hv. rewrite Forall_forall in Hall'.
    destruct (Hall' v Hv) as [z ->]. reflexivity.
  - apply (StronglySorted_fmap _ (λ a b, key a < key b)); [|exact Hsorted].
    intros a b. unfold key. lia.
Qed.

(** X24: when the known years are integers, the options of the year
    selector are integer years in strictly descending order, so that no
    year is offered twice. *)
Theorem yearOptions_descending (api : list jsval) (sel now : Z) :
  Forall (λ v, is_Some (yearOf v)) api →
  ∃ options years,
    yearOptions P api sel now = Normal options
    ∧ map (λ item, yearOf (value item)) options = map Some years
    ∧ StronglySorted (λ a b, b < a) years.
Proof.
  intros Hapi.
  assert (forallb (λ v, returns (ToNumber P v)) api = true) as Hconv.
  { apply forallb_forall. intros v Hv. apply list_elem_of_In in Hv.
    rewrite Forall_forall in Hapi. destruct (Hapi v Hv) as [z Hz].
    apply yearOf_Some in Hz as (q & -> & _). reflexivity. }
  destruct (yearSet_years api sel now Hapi) as [Hall Hnd].
  destruct (orderedValues_descending (yearSet api sel now) Hall Hnd)
    as (years & Hyears & Hsorted).
  exists (map (optionOf P) (orderedValues P (yearSet api sel now))), years.
  split; [exact (yearOptions_Normal api sel now Hconv)|].
  split; [exact Hyears|exact Hsorted].
Qed.

End Years.

(** ** Clicks on the calendar heat map *)

(** X25: for a year of four digits the two heat maps hand the same dates
    to [onDayClick]: a click on the data point of a day passes the date
    of that day's cell in the grid, its UTC midnight. *)
Theorem clickedDate_is_cellDate (P : Platform) (fl : Q → Q) (fuel : nat)
    (y : Z) (entries : list Entry) :
  1000 <= y <= 9999 → 366 <= Z.of_nat fuel →
  map (clickedDate P) (dataPoints fl fuel y entries)
  = map cellDate (dayCells (buildYearGrid y entries)).
Proof.
  intros Hy Hfuel.
  assert (literalYear y) as Hlit by (unfold literalYear; lia).
  pose proof (DaysInYear_bounds y) as Hdays.
  rewrite dataPoints_imap
    by (rewrite (totalDays_literal y Hlit); change (DaysInYear y <= Z.of_nat fuel); lia).
  rewrite (dayCells_literal y entries Hlit), imap_map_seqZ, !map_map.
  apply map_ext_in. intros k Hk. apply list_elem_of_In, elem_of_seqZ in Hk.
  unfold clickedDate, pointOfCell. cbn [pointKey cellOfDay cellDateKey cellDate].
  rewrite (UTC_yearDay y k Hlit) by lia.
  pose proof (literalYear_range y Hlit) as Hrange.
  pose proof (DayFromYear_succ y) as Hsucc.
  apply iso_midnight; [lia|].
  rewrite (YearFromDay_unique y) by lia. exact Hy.
Qed.

(** ** The further properties, on samples *)

(** Monday, 1 January 2024, in the first week column of its grid. *)
Lemma cell_row_is_weekday_2024_01_01 :
  getUTCDay (cellDate (cellInRow (firstWeek (buildYearGrid 2024 [])) 1))
  = Some (Z.of_nat 1).
Proof.
  apply (cell_row_is_weekday 2024 [] (firstWeek (buildYearGrid 2024 [])) 1
           (cellInRow (firstWeek (buildYearGrid 2024 [])) 1)).
  - apply list_elem_of_In. vm_compute. left. reflexivity.
  - vm_compute. reflexivity.
Defined.


(** The cell of 5 January 2024 in the grid of the entry of that day. *)
Lemma cell_entry_is_last_2024_01_05 :
  let c := cellOfDay 2024 (entriesByKey [entry_january]) 4 in
  cellEntry c = last (filter (λ e, dateKey e = cellDateKey c) [entry_january])
  ∧ cellDateKey c = toDateKey (cellDate c).
Proof.
  apply (cell_entry_is_last 2024 [entry_january]
           (cellOfDay 2024 (entriesByKey [entry_january]) 4)).
  apply list_elem_of_In. vm_compute. do 4 right. left. reflexivity.
Defined.

(** The month labels of 2024. *)
Lemma month_labels_shape_2024 :
  let g := buildYearGrid 2024 [] in
  length (monthLayout g) = 12%nat
  ∧ ∀ (i : nat) ml, monthLayout g !! i = Some ml →
      ∃ s n, startWeek ml = Some s ∧ spanWeeks ml = Some n
             ∧ (i = 0%nat → s = 0) ∧ 0 <= s ∧ 4 <= n <= 6
             ∧ s + n <= Z.of_nat (length (weeks g)).
Proof. apply (month_labels_shape 2024 []). unfold countedYear. lia. Defined.

(** The month breaks of 2024. *)
Lemma month_breaks_2024 :
  let marked := markedColumns (buildYearGrid 2024 []) in
  map Some marked = map (monthStartWeek 2024) (seqZ 1 11)
  ∧ StronglySorted Z.lt marked
  ∧ 0 ∉ marked.
Proof. apply (month_breaks 2024 []). unfold countedYear. lia. Defined.

Lemma monthBoundaryWeeks_marked_2024 :
  monthBoundaryWeeks 2024 = map Some (markedColumns (buildYearGrid 2024 [])).
Proof. apply (monthBoundaryWeeks_marked 2024 []). unfold countedYear. lia. Defined.

(** Severities that need no rounding. *)
Lemma scale_colour_exact :
  (∀ entry, (∀ e, entry = Some e → severityInvariant e) →
            pieceColor (entryToScale exact entry) = Some (colorForEntry entry))
  ∧ (∀ e s, isSick e = true → severity e = Some (intNum s) → 5 < s →
            pieceColor (entryToScale exact (Some e))
            = Some (colorForEntry (Some (entry_sick 5)))
            ∧ colorForEntry (Some e) = colorForEntry (Some (entry_sick 1))).
Proof.
  apply (scale_colour exact). split.
  - intros p q H. exact H.
  - intros q z H _. exact H.
Defined.

(** The data points of 2024, with a round for each of its 366 days. *)
Lemma dataPoints_are_day_cells_2024 :
  length (dataPoints exact 366 2024 [])
  = length (dayCells (buildYearGrid 2024 []))
  ∧ ∀ (i : nat) c,
      dayCells (buildYearGrid 2024 []) !! i = Some c →
      dataPoints exact 366 2024 [] !! i
      = Some {| pointKey := cellDateKey c;
                pointScale := entryToScale exact (cellEntry c);
                pointDay := Z.of_nat i + 1 |}.
Proof.
  apply (dataPoints_are_day_cells exact 366 2024 []).
  apply Z.leb_le. vm_compute. reflexivity.
Defined.

(** Noon of 5 March 2024. *)
Lemma parseDateFromKey_toDateKey_2024_03_05 :
  let y := YearFromDay (Day 1709640000000) in
  (100 <= y →
   parseDateFromKey barePlatform (toDateKey (Some 1709640000000))
   = Some (Day 1709640000000 * msPerDay))
  ∧ (0 <= y <= 99 →
     parseDateFromKey barePlatform (toDateKey (Some 1709640000000))
     = Some (MakeDay (1900 + y) (MonthFromDay (Day 1709640000000))
                     (DateFromDay (Day 1709640000000))
             * msPerDay)).
Proof.
  apply (parseDateFromKey_toDateKey barePlatform 1709640000000).
  vm_compute. discriminate.
Defined.

(** The payload of the form of the sample page, 1 June 2024. *)
Lemma submitPayload_date_june_1 :
  ∃ payload,
    submitPayload barePlatform emptyPage = Normal payload
    ∧ payloadDate payload = toDateKey (formDate emptyPage) +:+ "T00:00:00.000Z"
    ∧ payloadIsSick payload = formIsSick emptyPage
    ∧ payloadSeverity payload
      = (if formIsSick emptyPage then Some (formSeverity emptyPage) else None)
    ∧ newDate barePlatform (VStr (payloadDate payload))
      = Normal (Some (Day 1717200000000 * msPerDay)).
Proof.
  apply (submitPayload_date barePlatform emptyPage 1717200000000).
  - vm_compute. reflexivity.
  - vm_compute. discriminate.
  - vm_compute. split; discriminate.
Defined.


(** A click on the cell of 5 March 2024, five hours behind UTC, selects
    4 March. *)
Lemma onHeatmapDayClick_day_behind_UTC :
  formDate (onHeatmapDayClick fiveHoursBehind barePlatform
              (Some (Some (19787 * msPerDay))) emptyPage)
  = Some (pickedDay fiveHoursBehind 19787 * msPerDay).
Proof.
  apply (onHeatmapDayClick_day fiveHoursBehind barePlatform 19787 emptyPage).
  - vm_compute. split; [discriminate|reflexivity].
  - vm_compute. split; discriminate.
  - right. vm_compute. reflexivity.
Defined.

(** A response with a good record and one whose date cannot be converted:
    the load fails. *)
Lemma loadEntries_accepted_one_bad_record :
  let data := VObj [("entries", VArr [raw_sick_3; raw_date_unconvertible])] in
  let st' := (loadEntries barePlatform (emptyPage, answering data)).1 in
  busy st' = false
  ∧ if forallb (λ raw, returns (normalizeEntry barePlatform raw))
               (responseRecords data)
    then entries st' = acceptedEntries barePlatform data
         ∧ error st' = ""%string
         ∧ Forall (λ e, isValidDateKey (VStr (dateKey e)) = true) (entries st')
    else entries st' = [] ∧ error st' ≠ ""%string.
Proof.
  apply (loadEntries_accepted barePlatform emptyPage
           (answering (VObj [("entries", VArr [raw_sick_3; raw_date_unconvertible])]))
           (VObj [("entries", VArr [raw_sick_3; raw_date_unconvertible])])).
  - reflexivity.
  - discriminate.
  - discriminate.
Defined.

(** Saving the entry of 5 January into the collection of the entry of
    5 April. *)
Lemma commitSave_keyedByDay_january :
  let net := answering (VObj [("entry", rawEntry "2024-01-05"
                                 (Some "2024-01-05T00:00:00.000Z") false None)]) in
  let st' := (commitSave barePlatform somePayload
                (withEntries [entry_april] emptyPage, net)).1 in
  keyedByDay (entries st') ∧ datesConvert barePlatform (entries st').
Proof.
  apply (commitSave_keyedByDay barePlatform somePayload
           (withEntries [entry_april] emptyPage)
           (answering (VObj [("entry", rawEntry "2024-01-05"
                                 (Some "2024-01-05T00:00:00.000Z") false None)]))).
  - split; [repeat constructor|].
    cbn. apply NoDup_singleton.
  - repeat constructor.
  - intros saved H. vm_compute in H. injection H as <-. repeat constructor.
Defined.

(** The server answers a save with an entry that has no boolean
    [isSick]. *)
Lemma commitSave_invalid_entry_no_status :
  let response := VObj [("entry", VObj [("isSick", VStr "yes")])] in
  let st' := (commitSave barePlatform somePayload
                (withEntries [entry_april] emptyPage, answering response)).1 in
  entries st' = entries (withEntries [entry_april] emptyPage)
  ∧ yearsFromApi st' = yearsFromApi (withEntries [entry_april] emptyPage)
  ∧ updatePreview st' = updatePreview (withEntries [entry_april] emptyPage)
  ∧ error st'
    = match normalizeEntry barePlatform (rawProp response "entry") with
      | Normal _ => "Invalid entry returned by server."%string
      | Throw thrown => orString thrown "Failed to save entry"
      end
  ∧ info st' = ""%string
  ∧ busy st' = false.
Proof.
  apply (commitSave_invalid_entry barePlatform somePayload
           (withEntries [entry_april] emptyPage)
           (answering (VObj [("entry", VObj [("isSick", VStr "yes")])]))
           (VObj [("entry", VObj [("isSick", VStr "yes")])])).
  - reflexivity.
  - discriminate.
  - discriminate.
  - reflexivity.
Defined.

(** The server answers a save with the entry of 5 January. *)
Lemma commitSave_success_january :
  let response := VObj [("entry", rawEntry "2024-01-05"
                           (Some "2024-01-05T00:00:00.000Z") false None)] in
  let st := withEntries [entry_april] emptyPage in
  let st' := (commitSave barePlatform somePayload (st, answering response)).1 in
  info st' = "Entry saved."%string
  ∧ error st' = ""%string
  ∧ busy st' = false
  ∧ updatePreview st' = None
  ∧ includesYear (yearsFromApi st') (selectedYear st) = true
  ∧ yearsFromApi st'
    = (if includesYear (yearsFromApi st) (selectedYear st) then yearsFromApi st
       else yearsFromApi st ++ [yearValue (selectedYear st)])
  ∧ selectedYear st' = selectedYear st
  ∧ formDate st' = formDate st.
Proof.
  apply (commitSave_success barePlatform somePayload
           (withEntries [entry_april] emptyPage)
           (answering (VObj [("entry", rawEntry "2024-01-05"
                                (Some "2024-01-05T00:00:00.000Z") false None)]))
           (VObj [("entry", rawEntry "2024-01-05"
                     (Some "2024-01-05T00:00:00.000Z") false None)])
           entry_january).
  - reflexivity.
  - discriminate.
  - discriminate.
  - vm_compute. reflexivity.
  - repeat constructor.
Defined.

(** The known year 2019, seen from 2024. *)
Lemma yearOptions_descending_2019 :
  ∃ options years,
    yearOptions barePlatform [yearValue 2019] 2024 2024 = Normal options
    ∧ map (λ item, yearOf (value item)) options = map Some years
    ∧ StronglySorted (λ a b, b < a) years.
Proof.
  apply (yearOptions_descending barePlatform [yearValue 2019] 2024 2024).
  repeat constructor. exists 2019. reflexivity.
Defined.

(** The clicks on the days of 2024. *)
Lemma clickedDate_is_cellDate_2024 :
  map (clickedDate barePlatform) (dataPoints exact 366 2024 [])
  = map cellDate (dayCells (buildYearGrid 2024 [])).
Proof.
  apply (clickedDate_is_cellDate barePlatform exact 366 2024 []).
  - lia.
  - vm_compute. discriminate.
Defined.

